(** * Credit-risk ledger engine: a shallow embedding and its properties

    The development follows [backend/blockchain_integration.py]
    (class [CreditBlockchain] and the health endpoint), the ledger part of
    [backend/deep_learning_model.py] (class [CreditModelBlockchain]) and
    the ledger of [backend/simple_blockchain_demo.py]
    (class [SimpleBlockchain]).

    Layout:
    - [SHA256]   : the digest computed by [hashlib.sha256] (FIPS 180-4);
    - [Py]       : the Python and SQLite primitives the code relies on
                   ([str], [encode], [json.dumps], [json.loads],
                   [datetime.isoformat], [CURRENT_TIMESTAMP], float [repr]);
    - the rows of the tables that the classes create;
    - [CreditBlockchain], [CreditModelBlockchain], [SimpleBlockchain] : the
      methods, written over an arbitrary digest function [sha256];
    - the properties, for every digest function, and their evaluation with
      the real SHA-256 on concrete ledgers. *)

From Equations Require Import Equations.
From Stdlib Require Import ZArith QArith String Ascii Lia Bool List.
Import ListNotations.

Local Open Scope Z_scope.

(* ===================================================================== *)
(** ** SHA-256 *)
(* ===================================================================== *)

(** [hashlib.sha256(bytes).hexdigest()].  Words are 32-bit values kept in
    [Z]; every addition is wrapped explicitly. *)
Module SHA256.

Definition wrap32 (x : Z) : Z := Z.land x 4294967295.
Definition add32 (x y : Z) : Z := wrap32 (x + y).
Definition rotr (n x : Z) : Z :=
  Z.lor (Z.shiftr x n) (wrap32 (Z.shiftl x (32 - n))).
Definition shr (n x : Z) : Z := Z.shiftr x n.
Definition not32 (x : Z) : Z := Z.lxor x 4294967295.

Definition Ch (x y z : Z) : Z := Z.lxor (Z.land x y) (Z.land (not32 x) z).
Definition Maj (x y z : Z) : Z :=
  Z.lxor (Z.lxor (Z.land x y) (Z.land x z)) (Z.land y z).
Definition bsig0 (x : Z) : Z :=
  Z.lxor (Z.lxor (rotr 2 x) (rotr 13 x)) (rotr 22 x).
Definition bsig1 (x : Z) : Z :=
  Z.lxor (Z.lxor (rotr 6 x) (rotr 11 x)) (rotr 25 x).
Definition ssig0 (x : Z) : Z :=
  Z.lxor (Z.lxor (rotr 7 x) (rotr 18 x)) (shr 3 x).
Definition ssig1 (x : Z) : Z :=
  Z.lxor (Z.lxor (rotr 17 x) (rotr 19 x)) (shr 10 x).

(** The round constants: the first 32 bits of the fractional parts of the
    cube roots of the first 64 primes (checked by [K_cube_roots]). *)
Definition K : list Z :=
  [
    1116352408; 1899447441; 3049323471; 3921009573;
    961987163; 1508970993; 2453635748; 2870763221;
    3624381080; 310598401; 607225278; 1426881987;
    1925078388; 2162078206; 2614888103; 3248222580;
    3835390401; 4022224774; 264347078; 604807628;
    770255983; 1249150122; 1555081692; 1996064986;
    2554220882; 2821834349; 2952996808; 3210313671;
    3336571891; 3584528711; 113926993; 338241895;
    666307205; 773529912; 1294757372; 1396182291;
    1695183700; 1986661051; 2177026350; 2456956037;
    2730485921; 2820302411; 3259730800; 3345764771;
    3516065817; 3600352804; 4094571909; 275423344;
    430227734; 506948616; 659060556; 883997877;
    958139571; 1322822218; 1537002063; 1747873779;
    1955562222; 2024104815; 2227730452; 2361852424;
    2428436474; 2756734187; 3204031479; 3329325298 ].

Definition primes : list Z :=
  [ 2; 3; 5; 7; 11; 13; 17; 19; 23; 29; 31; 37; 41; 43; 47; 53; 59; 61; 67;
    71; 73; 79; 83; 89; 97; 101; 103; 107; 109; 113; 127; 131; 137; 139;
    149; 151; 157; 163; 167; 173; 179; 181; 191; 193; 197; 199; 211; 223;
    227; 229; 233; 239; 241; 251; 257; 263; 269; 271; 277; 281; 283; 293;
    307; 311 ].

(** The eight working registers a..h, also used for the chaining value. *)
Record regs := Regs
  { ra : Z; rb : Z; rc : Z; rd : Z; re : Z; rf : Z; rg : Z; rh : Z }.

(** The initial chaining value: the first 32 bits of the fractional parts
    of the square roots of the first 8 primes (checked by
    [init_square_roots]). *)
Definition init : regs :=
  Regs 1779033703 3144134277 1013904242 2773480762
       1359893119 2600822924 528734635 1541459225.

(** Big-endian bytes of [x], [n] bytes wide. *)
Fixpoint be_bytes (n : nat) (x : Z) : list Z :=
  match n with
  | O => []
  | S m => Z.land (Z.shiftr x (8 * Z.of_nat m)) 255 :: be_bytes m x
  end.

(** Padding: a 1 bit, zeros up to 56 modulo 64, the bit length on 8 bytes. *)
Definition pad (msg : list Z) : list Z :=
  let len := Z.of_nat (List.length msg) in
  msg ++ 128 :: repeat 0 (Z.to_nat ((55 - len) mod 64)) ++ be_bytes 8 (8 * len).

Fixpoint words (fuel : nat) (bs : list Z) : list Z :=
  match fuel, bs with
  | S f, b0 :: b1 :: b2 :: b3 :: rest =>
      (Z.shiftl b0 24 + Z.shiftl b1 16 + Z.shiftl b2 8 + b3) :: words f rest
  | _, _ => []
  end.

(** Message schedule; the window holds W[t-16] .. W[t-1]. *)
Fixpoint schedule (n : nat) (win : list Z) : list Z :=
  match n with
  | O => []
  | S m =>
      match win with
      | w0 :: rest =>
          let w1 := nth 0 rest 0 in
          let w9 := nth 8 rest 0 in
          let w14 := nth 13 rest 0 in
          let wt := add32 (add32 (ssig1 w14) w9) (add32 (ssig0 w1) w0) in
          w0 :: schedule m (rest ++ [wt])
      | [] => []
      end
  end.

Definition round (s : regs) (kw : Z * Z) : regs :=
  let '(k, w) := kw in
  let t1 :=
    add32 (add32 (add32 (rh s) (bsig1 (re s)))
                 (add32 (Ch (re s) (rf s) (rg s)) k)) w in
  let t2 := add32 (bsig0 (ra s)) (Maj (ra s) (rb s) (rc s)) in
  Regs (add32 t1 t2) (ra s) (rb s) (rc s) (add32 (rd s) t1) (re s) (rf s) (rg s).

Definition compress (h : regs) (block : list Z) : regs :=
  let s := fold_left round (combine K (schedule 64 block)) h in
  Regs (add32 (ra h) (ra s)) (add32 (rb h) (rb s)) (add32 (rc h) (rc s))
       (add32 (rd h) (rd s)) (add32 (re h) (re s)) (add32 (rf h) (rf s))
       (add32 (rg h) (rg s)) (add32 (rh h) (rh s)).

Fixpoint blocks (fuel : nat) (ws : list Z) (h : regs) : regs :=
  match fuel with
  | O => h
  | S f =>
      match ws with
      | [] => h
      | _ => blocks f (skipn 16 ws) (compress h (firstn 16 ws))
      end
  end.

Definition digest_words (msg : list Z) : regs :=
  let p := pad msg in
  let ws := words (List.length p) p in
  blocks (List.length ws) ws init.

(** The 32 bytes of the digest ([.digest()]). *)
Definition digest (msg : list Z) : list Z :=
  let h := digest_words msg in
  be_bytes 4 (ra h) ++ be_bytes 4 (rb h) ++ be_bytes 4 (rc h) ++
  be_bytes 4 (rd h) ++ be_bytes 4 (re h) ++ be_bytes 4 (rf h) ++
  be_bytes 4 (rg h) ++ be_bytes 4 (rh h).

Definition hex_digit (d : Z) : ascii :=
  if d <? 10 then ascii_of_N (Z.to_N (48 + d))
  else ascii_of_N (Z.to_N (87 + d)).

Fixpoint hex_be (n : nat) (x : Z) : string :=
  match n with
  | O => EmptyString
  | S m =>
      String (hex_digit (Z.land (Z.shiftr x (4 * Z.of_nat m)) 15)) (hex_be m x)
  end.

(** The digest as 64 lowercase hexadecimal characters ([.hexdigest()]). *)
Definition hexdigest (msg : list Z) : string :=
  let h := digest_words msg in
  (hex_be 8 (ra h) ++ hex_be 8 (rb h) ++ hex_be 8 (rc h) ++ hex_be 8 (rd h) ++
   hex_be 8 (re h) ++ hex_be 8 (rf h) ++ hex_be 8 (rg h) ++ hex_be 8 (rh h))%string.

End SHA256.

(* ===================================================================== *)
(** ** Python and SQLite primitives *)
(* ===================================================================== *)

(** A Python [str] is modelled by a Rocq [string] whose characters are the
    code points below 256; Python [int] is [Z]; a Python [float] is the
    rational it stands for ([Q]).  List lengths and counters are [nat]. *)
Module Py.

Local Open Scope string_scope.
Local Open Scope Z_scope.

Definition dquote : ascii := "034"%char.
Definition backslash : ascii := "092"%char.

(** [ord(c)] and [chr(n)]. *)
Definition ord (c : ascii) : Z := Z.of_N (N_of_ascii c).
Definition chr (n : Z) : ascii := ascii_of_N (Z.to_N n).

(** [s.encode()]: UTF-8. *)
Definition encode_char (c : ascii) : list Z :=
  let n := ord c in
  if n <? 128 then [n]
  else [Z.lor 192 (Z.shiftr n 6); Z.lor 128 (Z.land n 63)].

Fixpoint encode (s : string) : list Z :=
  match s with
  | EmptyString => []
  | String c r => (encode_char c ++ encode r)%list
  end.

(** [s.startswith(t)]. *)
Definition startswith (s t : string) : bool := String.prefix t s.

(** [s * n]; a count below 1 gives the empty string. *)
Fixpoint str_repeat (s : string) (n : nat) : string :=
  match n with
  | O => EmptyString
  | S m => s ++ str_repeat s m
  end.

Definition str_mul (s : string) (n : Z) : string := str_repeat s (Z.to_nat n).

(** [sep.join(parts)]. *)
Definition join (sep : string) (parts : list string) : string :=
  String.concat sep parts.

Definition digit_char (d : Z) : ascii := chr (48 + d).

Fixpoint digits_acc (fuel : nat) (n : Z) (acc : string) : string :=
  match fuel with
  | O => acc
  | S f =>
      let acc' := String (digit_char (n mod 10)) acc in
      if n <? 10 then acc' else digits_acc f (n / 10) acc'
  end.

(** Decimal digits of a non-negative integer. *)
Definition str_nat (n : Z) : string :=
  digits_acc (S (Z.to_nat (Z.log2 n))) n EmptyString.

(** [str(n)] for an [int], also what an f-string writes for it. *)
Definition str_int (z : Z) : string :=
  if z <? 0 then String "-" (str_nat (- z)) else str_nat z.

(** Zero padding to [w] characters, as [%0wd] does. *)
Definition zfill (w : nat) (n : Z) : string :=
  let s := str_int n in
  str_repeat "0" (w - String.length s) ++ s.

(** *** Clocks *)

Record datetime := Datetime
  { year : Z; month : Z; day : Z;
    hour : Z; minute : Z; second : Z; microsecond : Z }.

Definition date_part (d : datetime) : string :=
  zfill 4 (year d) ++ "-" ++ zfill 2 (month d) ++ "-" ++ zfill 2 (day d).

Definition time_part (d : datetime) : string :=
  zfill 2 (hour d) ++ ":" ++ zfill 2 (minute d) ++ ":" ++ zfill 2 (second d).

(** [datetime.isoformat()]: [YYYY-MM-DDTHH:MM:SS.ffffff], the fraction
    left out when the microsecond is 0. *)
Definition isoformat (d : datetime) : string :=
  date_part d ++ "T" ++ time_part d ++
  (if microsecond d =? 0 then EmptyString
   else String "." (zfill 6 (microsecond d))).

(** SQLite's [CURRENT_TIMESTAMP]: [YYYY-MM-DD HH:MM:SS]. *)
Definition current_timestamp (d : datetime) : string :=
  date_part d ++ " " ++ time_part d.

(** The two clocks an operation reads: [datetime.now()] in the process and
    the database's own clock when a row takes its column default. *)
Record clock := Clock { py_now : datetime; sql_now : datetime }.

(** *** Floats

    [repr(x)] for a float: the shortest decimal string that reads back as
    the same binary64, the closest one when several have that length
    (CPython's [float.__repr__]).  A rational is first rounded to the nearest
    binary64, ties to even, which is also what reading a decimal literal and
    the true division of two ints do.  A float is carried by the rational
    value of its binary64, so that comparisons of floats are comparisons in
    [Q].  Magnitudes are taken in the normal range of binary64; infinities,
    NaN and the negative zero are not represented. *)

(** A positive binary64 [m * 2^e] with [2^52 <= m < 2^53]. *)
Definition binary64 : Type := Z * Z.

Definition round_half_even (n d : Z) : Z :=
  let q := n / d in
  match 2 * (n mod d) ?= d with
  | Lt => q
  | Gt => q + 1
  | Eq => if Z.even q then q else q + 1
  end.

(** [n / (d * b^e)] as a fraction, for any sign of [e]. *)
Definition scale (b n d e : Z) : Z * Z :=
  if 0 <=? e then (n, d * b ^ e) else (n * b ^ (- e), d).

(** Nearest binary64 of the positive rational [n / d]. *)
Definition to_binary64 (n d : Z) : binary64 :=
  let e1 := Z.log2 n - Z.log2 d - 52 in
  let '(n1, d1) := scale 2 n d e1 in
  let e := if n1 / d1 <? 2 ^ 52 then e1 - 1 else e1 in
  let '(n2, d2) := scale 2 n d e in
  let m := round_half_even n2 d2 in
  if m =? 2 ^ 53 then (2 ^ 52, e + 1) else (m, e).

Definition binary64_eqb (x y : binary64) : bool :=
  (fst x =? fst y) && (snd x =? snd y).

(** The exact value of a binary64 as a fraction. *)
Definition binary64_frac (x : binary64) : Z * Z :=
  if 0 <=? snd x then (fst x * 2 ^ snd x, 1) else (fst x, 2 ^ (- snd x)).

Definition binary64_value (x : binary64) : Q :=
  let '(n, d) := binary64_frac x in Qmake n (Z.to_pos d).

(** The float nearest to a rational: a literal such as [0.95]. *)
Definition float_of_Q (q : Q) : Q :=
  let n := Qnum q in
  let d := Z.pos (Qden q) in
  if n =? 0 then 0%Q
  else if n <? 0 then Qopp (binary64_value (to_binary64 (- n) d))
  else binary64_value (to_binary64 n d).

(** [a / b] on two ints, [b] positive: the correctly rounded quotient. *)
Definition truediv (a b : Z) : Q := float_of_Q (Qmake a (Z.to_pos b)).

(** [floor (log10 (n / d))], from an estimate corrected by comparison. *)
Fixpoint log10_fix (fuel : nat) (n d e : Z) : Z :=
  match fuel with
  | O => e
  | S f =>
      let '(lo_n, lo_d) := scale 10 n d e in
      if lo_n <? lo_d then log10_fix f n d (e - 1)
      else if 10 * lo_d <=? lo_n then log10_fix f n d (e + 1)
      else e
  end.

Definition floor_log10 (n d : Z) : Z :=
  log10_fix 4 n d (((Z.log2 n - Z.log2 d) * 30103) / 100000).

(** The decimal [c * 10^p] reads back as [x]. *)
Definition reads_back (x : binary64) (c p : Z) : bool :=
  (0 <? c) &&
  (let '(n, d) := if 0 <=? p then (c * 10 ^ p, 1) else (c, 10 ^ (- p)) in
   binary64_eqb (to_binary64 n d) x).

(** The best decimal with [k] digits for [x = n / d] of decimal exponent
    [e10], if one reads back as [x]: its integer and its power of ten. *)
Definition try_digits (x : binary64) (n d e10 k : Z) : option (Z * Z) :=
  let p := e10 - (k - 1) in
  let '(xn, xd) := scale 10 n d p in
  let lo := xn / xd in
  let hi := lo + 1 in
  let r := xn mod xd in
  let lo_ok := reads_back x lo p in
  let hi_ok := reads_back x hi p in
  let lo_near :=
    match 2 * r ?= xd with
    | Lt => true
    | Gt => false
    | Eq => Z.even lo
    end in
  if lo_ok && (lo_near || negb hi_ok) then Some (lo, p)
  else if hi_ok then Some (hi, p)
  else None.

Fixpoint shortest_digits (fuel : nat) (x : binary64) (n d e10 k : Z)
  : Z * Z :=
  match fuel with
  | O => (round_half_even n d, 0)
  | S f =>
      match try_digits x n d e10 k with
      | Some r => r
      | None => shortest_digits f x n d e10 (k + 1)
      end
  end.

Fixpoint strip_zeros (fuel : nat) (c p : Z) : Z * Z :=
  match fuel with
  | O => (c, p)
  | S f => if (c mod 10 =? 0) && (0 <? c) then strip_zeros f (c / 10) (p + 1)
           else (c, p)
  end.

(** Layout of the digits [ds] with the decimal point after [decpt] of them:
    plain notation for [-4 < decpt <= 16], exponent notation otherwise. *)
Definition format_short (ds : string) (decpt : Z) : string :=
  let nd := Z.of_nat (String.length ds) in
  if (decpt <=? -4) || (16 <? decpt) then
    let e := decpt - 1 in
    let mant :=
      match ds with
      | String c EmptyString => ds
      | String c rest => String c (String "." rest)
      | EmptyString => ds
      end in
    mant ++ "e" ++ (if e <? 0 then "-" else "+") ++ zfill 2 (Z.abs e)
  else if decpt <=? 0 then
    "0." ++ str_mul "0" (- decpt) ++ ds
  else if nd <=? decpt then
    ds ++ str_mul "0" (decpt - nd) ++ ".0"
  else
    substring 0 (Z.to_nat decpt) ds ++ "." ++
    substring (Z.to_nat decpt) (Z.to_nat (nd - decpt)) ds.

Definition float_repr_pos (n d : Z) : string :=
  let x := to_binary64 n d in
  let '(xn, xd) := binary64_frac x in
  let e10 := floor_log10 xn xd in
  let '(c0, p0) := shortest_digits 17 x xn xd e10 1 in
  let '(c, p) := strip_zeros 20 c0 p0 in
  let ds := str_nat c in
  format_short ds (Z.of_nat (String.length ds) + p).

Definition float_repr (q : Q) : string :=
  let n := Qnum q in
  let d := Z.pos (Qden q) in
  if n =? 0 then "0.0"
  else if n <? 0 then String "-" (float_repr_pos (- n) d)
  else float_repr_pos n d.

(** *** JSON *)

#[local] Set Warnings "-register-all".

Inductive json : Type :=
| JNull
| JBool (b : bool)
| JInt (n : Z)
| JFloat (x : Q)
| JStr (s : string)
| JList (items : list json)
| JDict (items : list (string * json)).

(** One character inside a JSON string, [ensure_ascii] being on: the
    quote, the backslash and everything outside [' ' .. '~'] are escaped. *)
Definition escape_char (c : ascii) : string :=
  let n := ord c in
  if Ascii.eqb c dquote then String backslash (String dquote EmptyString)
  else if Ascii.eqb c backslash then String backslash (String backslash EmptyString)
  else if n =? 8 then "\b"
  else if n =? 12 then "\f"
  else if n =? 10 then "\n"
  else if n =? 13 then "\r"
  else if n =? 9 then "\t"
  else if (32 <=? n) && (n <=? 126) then String c EmptyString
  else "\u00" ++ SHA256.hex_be 2 n.

Fixpoint escape (s : string) : string :=
  match s with
  | EmptyString => EmptyString
  | String c r => escape_char c ++ escape r
  end.

Definition json_string (s : string) : string :=
  String dquote (escape s ++ String dquote EmptyString).

(** [sorted(d.items())] on rendered items: insertion sort on the keys. *)
Fixpoint insert_item (kv : string * string) (l : list (string * string))
  : list (string * string) :=
  match l with
  | [] => [kv]
  | h :: t =>
      if String.leb (fst kv) (fst h) then kv :: l else h :: insert_item kv t
  end.

Definition sort_items (l : list (string * string)) : list (string * string) :=
  fold_right insert_item [] l.

Definition dump_item (kv : string * string) : string :=
  json_string (fst kv) ++ ": " ++ snd kv.

(** [json.dumps(obj, sort_keys=True)] with the default separators. *)
Fixpoint json_dumps (j : json) : string :=
  match j with
  | JNull => "null"
  | JBool true => "true"
  | JBool false => "false"
  | JInt n => str_int n
  | JFloat x => float_repr x
  | JStr s => json_string s
  | JList items => "[" ++ join ", " (map json_dumps items) ++ "]"
  | JDict items =>
      "{" ++
      join ", "
        (map dump_item
           (sort_items (map (fun kv => (fst kv, json_dumps (snd kv))) items)))
      ++ "}"
  end.

(** [json.dumps(obj)]: the keys stay in insertion order. *)
Fixpoint json_dumps_unsorted (j : json) : string :=
  match j with
  | JNull => "null"
  | JBool true => "true"
  | JBool false => "false"
  | JInt n => str_int n
  | JFloat x => float_repr x
  | JStr s => json_string s
  | JList items => "[" ++ join ", " (map json_dumps_unsorted items) ++ "]"
  | JDict items =>
      "{" ++
      join ", "
        (map dump_item
           (map (fun kv => (fst kv, json_dumps_unsorted (snd kv))) items))
      ++ "}"
  end.

(** [d[k] = v] on a dict kept as an association list. *)
Fixpoint dict_set (k : string) (v : json) (d : list (string * json))
  : list (string * json) :=
  match d with
  | [] => [(k, v)]
  | (k', v') :: t =>
      if String.eqb k k' then (k, v) :: t else (k', v') :: dict_set k v t
  end.

Definition is_ws (c : ascii) : bool :=
  let n := ord c in
  (n =? 32) || (n =? 9) || (n =? 10) || (n =? 13).

Fixpoint skip_ws (s : string) : string :=
  match s with
  | String c r => if is_ws c then skip_ws r else s
  | EmptyString => s
  end.

Definition hex_val (c : ascii) : option Z :=
  let n := ord c in
  if (48 <=? n) && (n <=? 57) then Some (n - 48)
  else if (97 <=? n) && (n <=? 102) then Some (n - 87)
  else if (65 <=? n) && (n <=? 70) then Some (n - 55)
  else None.

Definition unescape (c : ascii) : option ascii :=
  if Ascii.eqb c dquote then Some dquote
  else if Ascii.eqb c backslash then Some backslash
  else if Ascii.eqb c "/" then Some "/"%char
  else if Ascii.eqb c "b" then Some "008"%char
  else if Ascii.eqb c "f" then Some "012"%char
  else if Ascii.eqb c "n" then Some "010"%char
  else if Ascii.eqb c "r" then Some "013"%char
  else if Ascii.eqb c "t" then Some "009"%char
  else None.

(** The text after an opening quote: the decoded string and what follows
    the closing quote.  A raw control character is refused, and so is an
    escape of a code point above 255, which this model does not hold. *)
Fixpoint parse_string (s : string) : option (string * string) :=
  match s with
  | EmptyString => None
  | String c r =>
      if Ascii.eqb c dquote then Some (EmptyString, r)
      else if Ascii.eqb c backslash then
        match r with
        | String "u" (String h3 (String h2 (String h1 (String h0 r')))) =>
            match hex_val h3, hex_val h2, hex_val h1, hex_val h0 with
            | Some 0, Some 0, Some a, Some b =>
                match parse_string r' with
                | Some (t, rest) =>
                    Some (String (chr (16 * a + b)) t, rest)
                | None => None
                end
            | _, _, _, _ => None
            end
        | String e r' =>
            match unescape e, parse_string r' with
            | Some c', Some (t, rest) => Some (String c' t, rest)
            | _, _ => None
            end
        | EmptyString => None
        end
      else if ord c <? 32 then None
      else
        match parse_string r with
        | Some (t, rest) => Some (String c t, rest)
        | None => None
        end
  end.

Definition is_digit (c : ascii) : bool :=
  let n := ord c in (48 <=? n) && (n <=? 57).

(** Leading decimal digits: their value, how many, and the rest. *)
Fixpoint take_digits (s : string) (acc : Z) (count : Z) : Z * Z * string :=
  match s with
  | String c r =>
      if is_digit c
      then take_digits r (10 * acc + (ord c - 48)) (count + 1)
      else (acc, count, s)
  | EmptyString => (acc, count, s)
  end.

(** Integer part of a number: a lone 0, or digits not starting with 0. *)
Definition take_int (s : string) : option (Z * string) :=
  match s with
  | String "0" r => Some (0, r)
  | _ =>
      let '(v, k, r) := take_digits s 0 0 in
      if k =? 0 then None else Some (v, r)
  end.

Definition take_frac (s : string) : option (Z * Z * string) :=
  match s with
  | String "." r =>
      let '(v, k, r') := take_digits r 0 0 in
      if k =? 0 then None else Some (v, k, r')
  | _ => None
  end.

Definition take_exp (s : string) : option (Z * string) :=
  let digits sign r :=
    let '(v, k, r') := take_digits r 0 0 in
    if k =? 0 then None else Some (sign * v, r') in
  match s with
  | String c r =>
      if Ascii.eqb c "e" || Ascii.eqb c "E" then
        match r with
        | String "+" r' => digits 1 r'
        | String "-" r' => digits (-1) r'
        | _ => digits 1 r
        end
      else None
  | EmptyString => None
  end.

(** [m * 10^e] as a rational. *)
Definition decimal (m e : Z) : Q :=
  if 0 <=? e then inject_Z (m * 10 ^ e)
  else Qmake m (Z.to_pos (10 ^ (- e))).

(** A number: an [int] when it has neither fraction nor exponent, a
    [float] otherwise. *)
Definition parse_number (s : string) : option (json * string) :=
  let '(sign, s1) :=
    match s with
    | String "-" r => (-1, r)
    | _ => (1, s)
    end in
  match take_int s1 with
  | None => None
  | Some (i, s2) =>
      let '(m, k, s3, has_frac) :=
        match take_frac s2 with
        | Some (f, k, r) => (i * 10 ^ k + f, k, r, true)
        | None => (i, 0, s2, false)
        end in
      match take_exp s3 with
      | Some (e, s4) => Some (JFloat (decimal (sign * m) (e - k)), s4)
      | None =>
          if has_frac then Some (JFloat (decimal (sign * m) (- k)), s3)
          else Some (JInt (sign * i), s3)
      end
  end.

Definition take_literal (lit : string) (v : json) (s : string)
  : option (json * string) :=
  if String.prefix lit s
  then Some (v, substring (String.length lit)
                          (String.length s - String.length lit) s)
  else None.

(** The recursive descent of [json.loads]; [fuel] bounds the number of
    values, elements and members read, and the length of the text is
    enough.  [NaN] and [Infinity], which Python also accepts, are not
    represented and are refused. *)
Fixpoint parse_value (fuel : nat) (s : string) : option (json * string) :=
  match fuel with
  | O => None
  | S f =>
      match s with
      | String c r =>
          if Ascii.eqb c dquote then
            match parse_string r with
            | Some (t, rest) => Some (JStr t, rest)
            | None => None
            end
          else if Ascii.eqb c "[" then
            match skip_ws r with
            | String "]" rest => Some (JList [], rest)
            | r' =>
                match parse_elements f r' with
                | Some (items, rest) => Some (JList items, rest)
                | None => None
                end
            end
          else if Ascii.eqb c "{" then
            match skip_ws r with
            | String "}" rest => Some (JDict [], rest)
            | r' =>
                match parse_members f r' [] with
                | Some (items, rest) => Some (JDict items, rest)
                | None => None
                end
            end
          else if Ascii.eqb c "n" then take_literal "null" JNull s
          else if Ascii.eqb c "t" then take_literal "true" (JBool true) s
          else if Ascii.eqb c "f" then take_literal "false" (JBool false) s
          else parse_number s
      | EmptyString => None
      end
  end

with parse_elements (fuel : nat) (s : string) : option (list json * string) :=
  match fuel with
  | O => None
  | S f =>
      match parse_value f s with
      | Some (v, rest) =>
          match skip_ws rest with
          | String "]" rest' => Some ([v], rest')
          | String "," rest' =>
              match parse_elements f (skip_ws rest') with
              | Some (vs, rest'') => Some (v :: vs, rest'')
              | None => None
              end
          | _ => None
          end
      | None => None
      end
  end

with parse_members (fuel : nat) (s : string) (acc : list (string * json))
  : option (list (string * json) * string) :=
  match fuel with
  | O => None
  | S f =>
      match s with
      | String c r =>
          if Ascii.eqb c dquote then
            match parse_string r with
            | Some (k, rest) =>
                match skip_ws rest with
                | String ":" rest1 =>
                    match parse_value f (skip_ws rest1) with
                    | Some (v, rest2) =>
                        let acc' := dict_set k v acc in
                        match skip_ws rest2 with
                        | String "}" rest3 => Some (acc', rest3)
                        | String "," rest3 =>
                            parse_members f (skip_ws rest3) acc'
                        | _ => None
                        end
                    | None => None
                    end
                | _ => None
                end
            | None => None
            end
          else None
      | EmptyString => None
      end
  end.

(** [json.loads(text)]; [None] stands for the exception it raises. *)
Definition json_loads (text : string) : option json :=
  match parse_value (S (String.length text)) (skip_ws text) with
  | Some (v, rest) =>
      match skip_ws rest with
      | EmptyString => Some v
      | _ => None
      end
  | None => None
  end.

(** [hashlib.sha256(s.encode()).hexdigest()]. *)
Definition sha256_hexdigest (s : string) : string :=
  SHA256.hexdigest (encode s).

End Py.

Import Py.
Local Open Scope string_scope.
Local Open Scope Z_scope.

(* ===================================================================== *)
(** ** The tables *)
(* ===================================================================== *)

(** One record per table, a field per column in the order of the
    [CREATE TABLE] statement, so that position [k] of a fetched tuple is
    field [k].  Each column holds a value of its declared type; a table is
    the list of its rows in ascending [id], which is what
    [SELECT * ... ORDER BY id] returns. *)

Module CreditScoreRow.
Record t := Make
  { id : Z; block_hash : string; previous_hash : string; user_id : Z;
    credit_score : Z; model_version : string; prediction_confidence : Q;
    risk_factors : string; merkle_root : string; nonce : Z;
    timestamp : string; miner_id : string; block_size : Z; verified : Z }.
End CreditScoreRow.

Module TransactionRow.
Record t := Make
  { id : Z; block_hash : string; previous_hash : string; user_id : Z;
    transaction_type : string; amount : Q; transaction_hash : string;
    merkle_root : string; nonce : Z; timestamp : string; verified : Z }.
End TransactionRow.

Module ModelVersionRow.
Record t := Make
  { id : Z; block_hash : string; previous_hash : string;
    model_version : string; accuracy : Q; training_data_hash : string;
    algorithm_hash : string; deployment_timestamp : string; nonce : Z;
    verified : Z }.
End ModelVersionRow.

Module PredictionAuditRow.
Record t := Make
  { id : Z; block_hash : string; previous_hash : string; user_id : Z;
    input_data_hash : string; prediction_hash : string; model_hash : string;
    prediction_timestamp : string; auditor_signature : option string;
    nonce : Z; verified : Z }.
End PredictionAuditRow.

Module VerificationLogRow.
Record t := Make
  { id : Z; blockchain_type : string; total_blocks : nat;
    verified_blocks : nat; integrity_score : Q;
    verification_timestamp : string; verification_hash : string }.
End VerificationLogRow.

(** [model_blockchain] of [deep_learning_model.py]; its [previous_hash]
    column has no [NOT NULL]. *)
Module ModelBlockRow.
Record t := Make
  { id : Z; block_hash : string; previous_hash : string;
    model_version : string; accuracy : Q; training_data_hash : string;
    timestamp : string; verified : Z }.
End ModelBlockRow.

(** [prediction_audit] of [deep_learning_model.py]: no [block_hash] and no
    [previous_hash] column. *)
Module PredictionAuditRecord.
Record t := Make
  { id : Z; user_id : Z; prediction_hash : string; model_hash : string;
    input_features_hash : string; prediction_result : string;
    timestamp : string; verified : Z }.
End PredictionAuditRecord.

(** The database file [credit_risk.db] that both classes open. *)
Record database := Database
  { credit_score_blockchain : list CreditScoreRow.t;
    transaction_blockchain : list TransactionRow.t;
    model_version_blockchain : list ModelVersionRow.t;
    prediction_audit_blockchain : list PredictionAuditRow.t;
    blockchain_verification_log : list VerificationLogRow.t;
    model_blockchain : list ModelBlockRow.t;
    prediction_audit : list PredictionAuditRecord.t }.

(** The state left by [CREATE TABLE IF NOT EXISTS] on a new file. *)
Definition empty_database : database := Database [] [] [] [] [] [] [].

(** [AUTOINCREMENT]: one more than the largest [id] in use. *)
Definition next_id {A : Type} (id : A -> Z) (rows : list A) : Z :=
  1 + fold_right (fun r m => Z.max (id r) m) 0 rows.

(** SQLite keeps an [INTEGER] on 64 bits; a larger Python [int] makes the
    binding raise [OverflowError]. *)
Definition sqlite_integer (n : Z) : bool :=
  (- 2 ^ 63 <=? n) && (n <? 2 ^ 63).

(** A tuple fetched by [SELECT *] from one of the four ledger tables. *)
Inductive block : Type :=
| CreditScoreBlock (r : CreditScoreRow.t)
| TransactionBlock (r : TransactionRow.t)
| ModelVersionBlock (r : ModelVersionRow.t)
| PredictionAuditBlock (r : PredictionAuditRow.t).

(** [block[1]]. *)
Definition block_hash_of (b : block) : string :=
  match b with
  | CreditScoreBlock r => CreditScoreRow.block_hash r
  | TransactionBlock r => TransactionRow.block_hash r
  | ModelVersionBlock r => ModelVersionRow.block_hash r
  | PredictionAuditBlock r => PredictionAuditRow.block_hash r
  end.

(** [block[2]]. *)
Definition previous_hash_of (b : block) : string :=
  match b with
  | CreditScoreBlock r => CreditScoreRow.previous_hash r
  | TransactionBlock r => TransactionRow.previous_hash r
  | ModelVersionBlock r => ModelVersionRow.previous_hash r
  | PredictionAuditBlock r => PredictionAuditRow.previous_hash r
  end.

(** [SELECT * FROM table_name ORDER BY id]. *)
Definition fetchall (db : database) (table_name : string) : list block :=
  if String.eqb table_name "credit_score_blockchain"
  then map CreditScoreBlock (credit_score_blockchain db)
  else if String.eqb table_name "transaction_blockchain"
  then map TransactionBlock (transaction_blockchain db)
  else if String.eqb table_name "model_version_blockchain"
  then map ModelVersionBlock (model_version_blockchain db)
  else if String.eqb table_name "prediction_audit_blockchain"
  then map PredictionAuditBlock (prediction_audit_blockchain db)
  else [].

(** The last element of a list: [ORDER BY id DESC LIMIT 1] then [fetchone]. *)
Definition fetch_last {A : Type} (rows : list A) : option A :=
  List.last (map Some rows) None.

Definition with_credit_score_blockchain (db : database)
  (rows : list CreditScoreRow.t) : database :=
  Database rows (transaction_blockchain db) (model_version_blockchain db)
    (prediction_audit_blockchain db) (blockchain_verification_log db)
    (model_blockchain db) (prediction_audit db).

Definition with_transaction_blockchain (db : database)
  (rows : list TransactionRow.t) : database :=
  Database (credit_score_blockchain db) rows (model_version_blockchain db)
    (prediction_audit_blockchain db) (blockchain_verification_log db)
    (model_blockchain db) (prediction_audit db).

Definition with_blockchain_verification_log (db : database)
  (rows : list VerificationLogRow.t) : database :=
  Database (credit_score_blockchain db) (transaction_blockchain db)
    (model_version_blockchain db) (prediction_audit_blockchain db) rows
    (model_blockchain db) (prediction_audit db).

Definition with_model_blockchain (db : database)
  (rows : list ModelBlockRow.t) : database :=
  Database (credit_score_blockchain db) (transaction_blockchain db)
    (model_version_blockchain db) (prediction_audit_blockchain db)
    (blockchain_verification_log db) rows (prediction_audit db).

Definition with_prediction_audit (db : database)
  (rows : list PredictionAuditRecord.t) : database :=
  Database (credit_score_blockchain db) (transaction_blockchain db)
    (model_version_blockchain db) (prediction_audit_blockchain db)
    (blockchain_verification_log db) (model_blockchain db) rows.

(* ===================================================================== *)
(** ** [CreditBlockchain] ([blockchain_integration.py]) *)
(* ===================================================================== *)

Module CreditBlockchain.

(** The object: [self.db_path] and [self.difficulty]. *)
Record t := Make { db_path : string; difficulty : Z }.

(** [__init__]: the tables are created if missing and the difficulty is
    set to 4. *)
Definition init (db_path : string) : t :=
  {| db_path := db_path; difficulty := 4 |}.

(** What [verify_blockchain_integrity] returns; the dictionary of the
    empty ledger has no [verification_hash] key. *)
Record verification := Verification
  { valid : bool; total_blocks : nat; verified_blocks : nat;
    integrity_score : Q; verification_hash : option string }.

Record kind_health := KindHealth
  { status : string; kh_integrity_score : Q; kh_total_blocks : nat }.

Record health := Health
  { overall_status : string;
    blockchain_health : list (string * kind_health);
    health_timestamp : string }.

Section WithDigest.

(** [sha256 s] is [hashlib.sha256(s.encode()).hexdigest()]. *)
Variable sha256 : string -> string.

(** One level of the tree: adjacent pairs, the last leaf paired with
    itself when the count is odd. *)
Fixpoint next_level (transactions : list string) : list string :=
  match transactions with
  | a :: b :: rest => sha256 (a ++ b) :: next_level rest
  | [a] => [sha256 (a ++ a)]
  | [] => []
  end.

Lemma next_level_length (l : list string) :
  (List.length (next_level l) <= List.length l)%nat.
Proof.
  revert l.
  fix IH 1.
  intros [|a [|b rest]]; simpl; auto.
  specialize (IH rest). lia.
Qed.

Equations? calculate_merkle_root (transactions : list string) : string
  by wf (List.length transactions) lt :=
  calculate_merkle_root [] := sha256 EmptyString;
  calculate_merkle_root [x] := sha256 x;
  calculate_merkle_root (a :: b :: rest) :=
    calculate_merkle_root (next_level (a :: b :: rest)).
Proof.
  pose proof (next_level_length rest). simpl. lia.
Qed.

(** The body of the [while True] loop, run at most [fuel] times. *)
Fixpoint pow_loop (fuel : nat) (block_data target : string) (nonce : Z) : Z :=
  match fuel with
  | O => nonce
  | S fuel' =>
      let hash_attempt := sha256 (block_data ++ str_int nonce) in
      if startswith hash_attempt target then nonce
      else
        let nonce := nonce + 1 in
        if nonce >? 1000000 then nonce
        else pow_loop fuel' block_data target nonce
  end.

(** The loop leaves by [return] or [break] within 1000001 iterations when
    it starts at 0 (lemma [pow_loop_fuel]). *)
Definition pow_fuel : nat := Z.to_nat 1000001.

Definition proof_of_work (self : t) (block_data : string) : Z :=
  let nonce := 0 in
  let target := str_mul "0" (difficulty self) in
  pow_loop pow_fuel block_data target nonce.

(** The nonces for which the loop computes [hash_attempt], in order. *)
Fixpoint pow_attempts (fuel : nat) (block_data target : string) (nonce : Z)
  : list Z :=
  match fuel with
  | O => []
  | S fuel' =>
      let hash_attempt := sha256 (block_data ++ str_int nonce) in
      nonce ::
      (if startswith hash_attempt target then []
       else
         let nonce := nonce + 1 in
         if nonce >? 1000000 then []
         else pow_attempts fuel' block_data target nonce)
  end.

Definition attempted_nonces (self : t) (block_data : string) : list Z :=
  pow_attempts pow_fuel block_data (str_mul "0" (difficulty self)) 0.

(** The difficulty predicate on one nonce. *)
Definition meets_difficulty (self : t) (block_data : string) (nonce : Z)
  : bool :=
  startswith (sha256 (block_data ++ str_int nonce))
             (str_mul "0" (difficulty self)).

(** [add_credit_score_block]; [None] stands for the exception raised by
    the [INSERT] ([block_hash] is [UNIQUE], the integer columns are 64-bit),
    in which case nothing is committed. *)
Definition add_credit_score_block (self : t) (db : database) (c : clock)
  (user_id credit_score : Z) (model_version : string)
  (prediction_confidence : Q) (risk_factors : list string)
  : option (string * database) :=
  let rows := credit_score_blockchain db in
  let previous_hash :=
    match fetch_last rows with
    | Some result => CreditScoreRow.block_hash result
    | None => str_mul "0" 64
    end in
  let block_data :=
    JDict [ ("user_id", JInt user_id);
            ("credit_score", JInt credit_score);
            ("model_version", JStr model_version);
            ("prediction_confidence", JFloat prediction_confidence);
            ("risk_factors", JList (map JStr risk_factors));
            ("previous_hash", JStr previous_hash);
            ("timestamp", JStr (isoformat (py_now c))) ] in
  let transactions := [json_dumps block_data] in
  let merkle_root := calculate_merkle_root transactions in
  let block_string := json_dumps block_data ++ merkle_root in
  let nonce := proof_of_work self block_string in
  let final_block_data := block_string ++ str_int nonce in
  let block_hash := sha256 final_block_data in
  if existsb (fun r => String.eqb (CreditScoreRow.block_hash r) block_hash) rows
     || negb (sqlite_integer user_id && sqlite_integer credit_score)
  then None
  else
    let row :=
      CreditScoreRow.Make (next_id CreditScoreRow.id rows) block_hash
        previous_hash user_id credit_score model_version
        prediction_confidence (json_dumps (JList (map JStr risk_factors)))
        merkle_root nonce (current_timestamp (sql_now c)) "system" 0 1 in
    Some (block_hash, with_credit_score_blockchain db (rows ++ [row])%list).

(** [add_transaction_block]. *)
Definition add_transaction_block (self : t) (db : database) (c : clock)
  (user_id : Z) (transaction_type : string) (amount : Q)
  : option (string * database) :=
  let rows := transaction_blockchain db in
  let previous_hash :=
    match fetch_last rows with
    | Some result => TransactionRow.block_hash result
    | None => str_mul "0" 64
    end in
  let transaction_data :=
    JDict [ ("user_id", JInt user_id);
            ("transaction_type", JStr transaction_type);
            ("amount", JFloat amount);
            ("timestamp", JStr (isoformat (py_now c))) ] in
  let transaction_hash := sha256 (json_dumps transaction_data) in
  let merkle_root := calculate_merkle_root [transaction_hash] in
  let block_string := previous_hash ++ transaction_hash ++ merkle_root in
  let nonce := proof_of_work self block_string in
  let final_block_data := block_string ++ str_int nonce in
  let block_hash := sha256 final_block_data in
  if existsb (fun r => String.eqb (TransactionRow.block_hash r) block_hash) rows
     || negb (sqlite_integer user_id)
  then None
  else
    let row :=
      TransactionRow.Make (next_id TransactionRow.id rows) block_hash
        previous_hash user_id transaction_type amount transaction_hash
        merkle_root nonce (current_timestamp (sql_now c)) 1 in
    Some (block_hash, with_transaction_blockchain db (rows ++ [row])%list).

(** [_verify_single_block]: the hash is recomputed from the fields of the
    fetched tuple.  Unpacking a tuple of another table and a
    [risk_factors] text that [json.loads] refuses raise, and the [except]
    clause answers [False]. *)
Definition _verify_single_block (self : t) (b : block)
  (blockchain_type : string) : bool :=
  if String.eqb blockchain_type "credit_score" then
    match b with
    | CreditScoreBlock r =>
        match json_loads (CreditScoreRow.risk_factors r) with
        | Some risk_factors =>
            let block_data :=
              JDict [ ("user_id", JInt (CreditScoreRow.user_id r));
                      ("credit_score", JInt (CreditScoreRow.credit_score r));
                      ("model_version", JStr (CreditScoreRow.model_version r));
                      ("prediction_confidence",
                       JFloat (CreditScoreRow.prediction_confidence r));
                      ("risk_factors", risk_factors);
                      ("previous_hash", JStr (CreditScoreRow.previous_hash r));
                      ("timestamp", JStr (CreditScoreRow.timestamp r)) ] in
            let block_string :=
              json_dumps block_data ++ CreditScoreRow.merkle_root r in
            let final_block_data :=
              block_string ++ str_int (CreditScoreRow.nonce r) in
            let calculated_hash := sha256 final_block_data in
            String.eqb calculated_hash (CreditScoreRow.block_hash r)
        | None => false
        end
    | _ => false
    end
  else if String.eqb blockchain_type "transaction" then
    match b with
    | TransactionBlock r =>
        let block_string :=
          TransactionRow.previous_hash r ++ TransactionRow.transaction_hash r
          ++ TransactionRow.merkle_root r in
        let final_block_data :=
          block_string ++ str_int (TransactionRow.nonce r) in
        let calculated_hash := sha256 final_block_data in
        String.eqb calculated_hash (TransactionRow.block_hash r)
    | _ => false
    end
  else false.

(** The linkage test of the loop body; [previous_block] is [None] at
    index 0.  Only the two kinds named in the source are tested. *)
Definition link_broken (blockchain_type : string)
  (previous_block : option block) (b : block) : bool :=
  match previous_block with
  | None => false
  | Some p =>
      if String.eqb blockchain_type "credit_score"
      then negb (String.eqb (previous_hash_of b) (block_hash_of p))
      else if String.eqb blockchain_type "transaction"
      then negb (String.eqb (previous_hash_of b) (block_hash_of p))
      else false
  end.

(** The [for] loop of [verify_blockchain_integrity] with its [break].
    It returns [verified_blocks] and, beside it, the number of blocks the
    loop body ran on. *)
Fixpoint scan (self : t) (blockchain_type : string)
  (previous_block : option block) (blocks : list block)
  (verified_blocks examined : nat) : nat * nat :=
  match blocks with
  | [] => (verified_blocks, examined)
  | b :: rest =>
      let verified_blocks :=
        if _verify_single_block self b blockchain_type
        then S verified_blocks else verified_blocks in
      if link_broken blockchain_type previous_block b
      then (verified_blocks, S examined)
      else scan self blockchain_type (Some b) rest verified_blocks (S examined)
  end.

(** [table_map.get(blockchain_type, 'credit_score_blockchain')]. *)
Definition table_map (blockchain_type : string) : string :=
  if String.eqb blockchain_type "credit_score" then "credit_score_blockchain"
  else if String.eqb blockchain_type "transaction" then "transaction_blockchain"
  else if String.eqb blockchain_type "model_version"
  then "model_version_blockchain"
  else if String.eqb blockchain_type "prediction_audit"
  then "prediction_audit_blockchain"
  else "credit_score_blockchain".

(** The blocks the loop body runs on during one verification. *)
Definition blocks_examined (self : t) (db : database)
  (blockchain_type : string) : nat :=
  snd (scan self blockchain_type None
         (fetchall db (table_map blockchain_type)) 0 0).

Definition verify_blockchain_integrity (self : t) (db : database) (c : clock)
  (blockchain_type : string) : verification * database :=
  let table_name := table_map blockchain_type in
  let blocks := fetchall db table_name in
  match blocks with
  | [] => (Verification true 0 0 1 None, db)
  | _ :: _ =>
      let verified_blocks := fst (scan self blockchain_type None blocks 0 0) in
      let total_blocks := List.length blocks in
      let integrity_score :=
        if (0 <? total_blocks)%nat
        then truediv (Z.of_nat verified_blocks) (Z.of_nat total_blocks)
        else 1%Q in
      let verification_data :=
        JDict [ ("blockchain_type", JStr blockchain_type);
                ("total_blocks", JInt (Z.of_nat total_blocks));
                ("verified_blocks", JInt (Z.of_nat verified_blocks));
                ("integrity_score", JFloat integrity_score);
                ("timestamp", JStr (isoformat (py_now c))) ] in
      let verification_hash := sha256 (json_dumps verification_data) in
      let log := blockchain_verification_log db in
      let row :=
        VerificationLogRow.Make (next_id VerificationLogRow.id log)
          blockchain_type total_blocks verified_blocks integrity_score
          (current_timestamp (sql_now c)) verification_hash in
      (Verification (Qeq_bool integrity_score 1) total_blocks verified_blocks
         integrity_score (Some verification_hash),
       with_blockchain_verification_log db (log ++ [row])%list)
  end.

(** One turn of the loop of [blockchain_health_check]; the state is the
    dictionary built so far, the database and the number of clock
    readings taken. *)
Definition health_step (self : t) (time : nat -> clock)
  (st : list (string * kind_health) * database * nat)
  (blockchain_type : string) : list (string * kind_health) * database * nat :=
  let '(health_status, db, k) := st in
  let '(verification, db') :=
    verify_blockchain_integrity self db (time k) blockchain_type in
  let entry :=
    KindHealth
      (if Qle_bool (float_of_Q (95 # 100)) (integrity_score verification)
       then "healthy" else "degraded")
      (integrity_score verification) (total_blocks verification) in
  ((health_status ++ [(blockchain_type, entry)])%list, db', S k).

(** [blockchain_health_check], for the object [self] that the module
    keeps in [credit_blockchain]; [time k] is the [k]-th clock reading. *)
Definition blockchain_health_check (self : t) (db : database)
  (time : nat -> clock) : health * database :=
  let blockchain_types := ["credit_score"; "transaction"] in
  let '(health_status, db', k) :=
    fold_left (health_step self time) blockchain_types ([], db, O) in
  let overall_health :=
    forallb (fun s => String.eqb (status (snd s)) "healthy") health_status in
  (Health (if overall_health then "healthy" else "degraded") health_status
     (isoformat (py_now (time k))),
   db').

End WithDigest.

End CreditBlockchain.

(* ===================================================================== *)
(** ** [CreditModelBlockchain] ([deep_learning_model.py]) *)
(* ===================================================================== *)

Module CreditModelBlockchain.

Record t := Make { db_path : string }.

Definition init (db_path : string) : t := {| db_path := db_path |}.

Section WithDigest.

Variable sha256 : string -> string.

(** [add_model_block]; [None] stands for the exception of the [INSERT]
    when the [UNIQUE] [block_hash] is already present. *)
Definition add_model_block (self : t) (db : database) (c : clock)
  (model_version : string) (accuracy : Q) (training_data_hash : string)
  : option (string * database) :=
  let rows := model_blockchain db in
  let previous_hash :=
    match fetch_last rows with
    | Some result => ModelBlockRow.block_hash result
    | None => "0"
    end in
  let block_data :=
    JDict [ ("model_version", JStr model_version);
            ("accuracy", JFloat accuracy);
            ("training_data_hash", JStr training_data_hash);
            ("previous_hash", JStr previous_hash);
            ("timestamp", JStr (isoformat (py_now c))) ] in
  let block_string := json_dumps block_data in
  let block_hash := sha256 block_string in
  if existsb (fun r => String.eqb (ModelBlockRow.block_hash r) block_hash) rows
  then None
  else
    let row :=
      ModelBlockRow.Make (next_id ModelBlockRow.id rows) block_hash
        previous_hash model_version accuracy training_data_hash
        (current_timestamp (sql_now c)) 1 in
    Some (block_hash, with_model_blockchain db (rows ++ [row])%list).

(** [audit_prediction]: one row of [prediction_audit], which has neither a
    hash of its own nor a link to the row before it. *)
Definition audit_prediction (self : t) (db : database) (c : clock)
  (user_id : Z) (input_features prediction_result : json)
  (model_hash : string) : option database :=
  let features_string := json_dumps input_features in
  let features_hash := sha256 features_string in
  let result_string := json_dumps prediction_result in
  let prediction_hash := sha256 result_string in
  if sqlite_integer user_id then
    let rows := prediction_audit db in
    let row :=
      PredictionAuditRecord.Make (next_id PredictionAuditRecord.id rows)
        user_id prediction_hash model_hash features_hash result_string
        (current_timestamp (sql_now c)) 1 in
    Some (with_prediction_audit db (rows ++ [row])%list)
  else None.

End WithDigest.

End CreditModelBlockchain.

(* ===================================================================== *)
(** ** [SimpleBlockchain] ([simple_blockchain_demo.py]) *)
(* ===================================================================== *)

Module CreditBlockRow.
Record t := Make
  { id : Z; block_hash : string; previous_hash : string; user_id : Z;
    credit_score : Z; prediction_data : string; timestamp : string;
    verified : Z }.
End CreditBlockRow.

Module SimpleBlockchain.

Record t := Make { db_path : string }.

Definition init : t := {| db_path := "simple_blockchain.db" |}.

(** The table [credit_blocks] of the file [simple_blockchain.db]. *)
Definition credit_blocks : Type := list CreditBlockRow.t.

Record verification := Verification
  { valid : bool; total_blocks : nat; verified_blocks : nat;
    integrity_score : Q }.

Section WithDigest.

Variable sha256 : string -> string.

(** [add_credit_block]; [prediction_data] is the dictionary as a JSON
    value. *)
Definition add_credit_block (self : t) (rows : credit_blocks) (c : clock)
  (user_id credit_score : Z) (prediction_data : json)
  : option (string * credit_blocks) :=
  let previous_hash :=
    match fetch_last rows with
    | Some result => CreditBlockRow.block_hash result
    | None => str_mul "0" 64
    end in
  let block_data :=
    JDict [ ("user_id", JInt user_id);
            ("credit_score", JInt credit_score);
            ("prediction_data", prediction_data);
            ("previous_hash", JStr previous_hash);
            ("timestamp", JStr (isoformat (py_now c))) ] in
  let block_string := json_dumps block_data in
  let block_hash := sha256 block_string in
  if existsb (fun r => String.eqb (CreditBlockRow.block_hash r) block_hash) rows
     || negb (sqlite_integer user_id && sqlite_integer credit_score)
  then None
  else
    let row :=
      CreditBlockRow.Make (next_id CreditBlockRow.id rows) block_hash
        previous_hash user_id credit_score
        (json_dumps_unsorted prediction_data)
        (current_timestamp (sql_now c)) 1 in
    Some (block_hash, (rows ++ [row])%list).

(** The [for] loop of [verify_blockchain]; [None] stands for the
    exception of [json.loads], which nothing catches here. *)
Fixpoint scan (previous_block : option CreditBlockRow.t)
  (blocks : list CreditBlockRow.t) (verified_blocks : nat) : option nat :=
  match blocks with
  | [] => Some verified_blocks
  | b :: rest =>
      match json_loads (CreditBlockRow.prediction_data b) with
      | None => None
      | Some prediction_data =>
          let block_data :=
            JDict [ ("user_id", JInt (CreditBlockRow.user_id b));
                    ("credit_score", JInt (CreditBlockRow.credit_score b));
                    ("prediction_data", prediction_data);
                    ("previous_hash", JStr (CreditBlockRow.previous_hash b));
                    ("timestamp", JStr (CreditBlockRow.timestamp b)) ] in
          let block_string := json_dumps block_data in
          let calculated_hash := sha256 block_string in
          let verified_blocks :=
            if String.eqb calculated_hash (CreditBlockRow.block_hash b)
            then S verified_blocks else verified_blocks in
          match previous_block with
          | Some p =>
              if negb (String.eqb (CreditBlockRow.previous_hash b)
                                  (CreditBlockRow.block_hash p))
              then Some verified_blocks
              else scan (Some b) rest verified_blocks
          | None => scan (Some b) rest verified_blocks
          end
      end
  end.

Definition verify_blockchain (self : t) (blocks : credit_blocks)
  : option verification :=
  match blocks with
  | [] => Some (Verification true 0 0 1)
  | _ :: _ =>
      match scan None blocks 0 with
      | None => None
      | Some verified_blocks =>
          let total_blocks := List.length blocks in
          let integrity_score :=
            if (0 <? total_blocks)%nat
            then truediv (Z.of_nat verified_blocks) (Z.of_nat total_blocks)
            else 1%Q in
          Some (Verification (Qeq_bool integrity_score 1) total_blocks
                  verified_blocks integrity_score)
      end
  end.

End WithDigest.

End SimpleBlockchain.

(* ===================================================================== *)
(** ** Ledger histories *)
(* ===================================================================== *)

(** The databases that the operations of the two classes produce from a
    new file, for a digest function [sha256]. *)
Inductive reachable (sha256 : string -> string) : database -> Prop :=
| reach_empty : reachable sha256 empty_database
| reach_credit_score self db c user_id credit_score model_version
    prediction_confidence risk_factors h db' :
    reachable sha256 db ->
    CreditBlockchain.add_credit_score_block sha256 self db c user_id
      credit_score model_version prediction_confidence risk_factors
    = Some (h, db') ->
    reachable sha256 db'
| reach_transaction self db c user_id transaction_type amount h db' :
    reachable sha256 db ->
    CreditBlockchain.add_transaction_block sha256 self db c user_id
      transaction_type amount = Some (h, db') ->
    reachable sha256 db'
| reach_verify self db c blockchain_type :
    reachable sha256 db ->
    reachable sha256
      (snd (CreditBlockchain.verify_blockchain_integrity sha256 self db c
              blockchain_type))
| reach_model self db c model_version accuracy training_data_hash h db' :
    reachable sha256 db ->
    CreditModelBlockchain.add_model_block sha256 self db c model_version
      accuracy training_data_hash = Some (h, db') ->
    reachable sha256 db'
| reach_audit self db c user_id input_features prediction_result model_hash
    db' :
    reachable sha256 db ->
    CreditModelBlockchain.audit_prediction sha256 self db c user_id
      input_features prediction_result model_hash = Some db' ->
    reachable sha256 db'.

(** Every block after the first names the hash of the block before it. *)
Definition linked {A : Type} (block_hash previous_hash : A -> string)
  (rows : list A) : Prop :=
  forall i p b,
    nth_error rows i = Some p ->
    nth_error rows (S i) = Some b ->
    previous_hash b = block_hash p.

(** The first block names [genesis]. *)
Definition rooted {A : Type} (previous_hash : A -> string) (genesis : string)
  (rows : list A) : Prop :=
  forall b, nth_error rows 0 = Some b -> previous_hash b = genesis.

(* ===================================================================== *)
(** ** Properties of the proof of work *)
(* ===================================================================== *)

(** [start, start + 1, ...], [n] values. *)
Fixpoint zrange (start : Z) (n : nat) : list Z :=
  match n with
  | O => []
  | S k => start :: zrange (start + 1) k
  end.

Lemma zrange_length (start : Z) (n : nat) : List.length (zrange start n) = n.
Proof.
  revert start; induction n as [|n IH]; intros start; simpl; auto.
Qed.

Lemma zrange_last (n : nat) (start d : Z) :
  List.last (zrange start (S n)) d = start + Z.of_nat n.
Proof.
  revert start; induction n as [|n IH]; intros start.
  - simpl. lia.
  - change (zrange start (S (S n))) with (start :: zrange (start + 1) (S n)).
    change (List.last (start :: zrange (start + 1) (S n)) d)
      with (List.last (zrange (start + 1) (S n)) d).
    rewrite IH. lia.
Qed.

Section ProofOfWork.

Variable sha256 : string -> string.
Variable self : CreditBlockchain.t.
Variable block_data : string.

Abbreviation target := (str_mul "0" (CreditBlockchain.difficulty self)).
Abbreviation ok := (CreditBlockchain.meets_difficulty sha256 self block_data).
Abbreviation loop fuel nonce :=
  (CreditBlockchain.pow_loop sha256 fuel block_data target nonce).
Abbreviation attempts fuel nonce :=
  (CreditBlockchain.pow_attempts sha256 fuel block_data target nonce).

(** What the loop does from [nonce] on, given enough fuel for the nonces
    up to 1000000: it stops on the first nonce that meets the difficulty,
    or leaves by [break] with 1000001 after trying every one of them. *)
Lemma pow_loop_spec (fuel : nat) :
  forall nonce,
    0 <= nonce <= 1000000 ->
    (Z.to_nat (1000001 - nonce) <= fuel)%nat ->
    (exists r,
        nonce <= r <= 1000000 /\ ok r = true /\
        (forall m, nonce <= m < r -> ok m = false) /\
        loop fuel nonce = r /\
        attempts fuel nonce = zrange nonce (S (Z.to_nat (r - nonce))))
    \/
    ((forall m, nonce <= m <= 1000000 -> ok m = false) /\
     loop fuel nonce = 1000001 /\
     attempts fuel nonce = zrange nonce (Z.to_nat (1000001 - nonce))).
Proof.
  induction fuel as [|fuel IH]; intros nonce Hrange Hfuel.
  - lia.
  - cbn [CreditBlockchain.pow_loop CreditBlockchain.pow_attempts].
    destruct (startswith (sha256 (block_data ++ str_int nonce)) target)
      eqn:Hhit.
    + left. exists nonce. replace (nonce - nonce) with 0 by lia.
      repeat split; try lia; auto.
    + destruct (nonce + 1 >? 1000000) eqn:Hcap.
      * right. apply Z.gtb_lt in Hcap.
        assert (nonce = 1000000) by lia. subst nonce.
        repeat split; auto.
        intros m Hm. assert (m = 1000000) by lia. subst m. exact Hhit.
      * assert (Hle : nonce + 1 <= 1000000).
        { destruct (Z.gtb_spec (nonce + 1) 1000000); [discriminate | lia]. }
        destruct (IH (nonce + 1)) as
          [(r & Hr & Hok & Hmin & Hres & Hatt) | (Hall & Hres & Hatt)];
          try lia.
        -- left. exists r. repeat split; try lia; auto.
           ++ intros m Hm. destruct (Z.eq_dec m nonce) as [->|Hne].
              ** exact Hhit.
              ** apply Hmin. lia.
           ++ rewrite Hatt.
              replace (S (Z.to_nat (r - nonce)))
                with (S (S (Z.to_nat (r - (nonce + 1))))) by lia.
              reflexivity.
        -- right. repeat split; auto.
           ++ intros m Hm. destruct (Z.eq_dec m nonce) as [->|Hne].
              ** exact Hhit.
              ** apply Hall. lia.
           ++ rewrite Hatt.
              replace (Z.to_nat (1000001 - nonce))
                with (S (Z.to_nat (1000001 - (nonce + 1)))) by lia.
              reflexivity.
Qed.

(** The [while True] loop started at 0 always leaves within the fuel it is
    given: more fuel changes nothing. *)
Lemma pow_loop_fuel (fuel : nat) :
  (CreditBlockchain.pow_fuel <= fuel)%nat ->
  loop fuel 0 = CreditBlockchain.proof_of_work sha256 self block_data.
Proof.
  intros Hfuel. unfold CreditBlockchain.proof_of_work.
  assert (Hpow : (Z.to_nat (1000001 - 0) <= CreditBlockchain.pow_fuel)%nat).
  { unfold CreditBlockchain.pow_fuel. lia. }
  assert (Hf : (Z.to_nat (1000001 - 0) <= fuel)%nat) by lia.
  destruct (pow_loop_spec fuel 0) as
    [(r & Hr & Hok & Hmin & Hres & _) | (Hall & Hres & _)]; try lia;
  destruct (pow_loop_spec CreditBlockchain.pow_fuel 0) as
    [(r' & Hr' & Hok' & Hmin' & Hres' & _) | (Hall' & Hres' & _)]; try lia;
  rewrite Hres, Hres'.
  - destruct (Z.lt_trichotomy r r') as [Hlt | [Heq | Hgt]]; auto.
    + rewrite Hmin' in Hok by lia. discriminate.
    + rewrite Hmin in Hok' by lia. discriminate.
  - rewrite Hall' in Hok by lia. discriminate.
  - rewrite Hall in Hok' by lia. discriminate.
Qed.

End ProofOfWork.

(** C4.  Whenever some nonce [n] in [0 .. 1000000] meets the difficulty,
    [proof_of_work] returns the least non-negative nonce [r] whose digest
    [sha256 (block_data ++ str r)] starts with [difficulty] characters 0;
    the nonces it tries are exactly [0, 1, ..., r], and the difficulty of a
    new [CreditBlockchain] is 4. *)
Theorem C4_proof_of_work_least (sha256 : string -> string)
  (self : CreditBlockchain.t) (block_data : string) (n : Z) :
  0 <= n <= 1000000 ->
  CreditBlockchain.meets_difficulty sha256 self block_data n = true ->
  let r := CreditBlockchain.proof_of_work sha256 self block_data in
  0 <= r <= n /\
  startswith (sha256 (block_data ++ str_int r))
             (str_mul "0" (CreditBlockchain.difficulty self)) = true /\
  (forall m, 0 <= m < r ->
             startswith (sha256 (block_data ++ str_int m))
                        (str_mul "0" (CreditBlockchain.difficulty self))
             = false) /\
  CreditBlockchain.attempted_nonces sha256 self block_data
  = zrange 0 (S (Z.to_nat r)) /\
  (forall p, CreditBlockchain.difficulty (CreditBlockchain.init p) = 4).
Proof.
  intros Hn Hok r.
  assert (Hfuel : (Z.to_nat (1000001 - 0) <= CreditBlockchain.pow_fuel)%nat).
  { unfold CreditBlockchain.pow_fuel. lia. }
  destruct (pow_loop_spec sha256 self block_data CreditBlockchain.pow_fuel 0)
    as [(r' & Hr' & Hok' & Hmin & Hres & Hatt) | (Hall & _)]; try lia.
  - assert (Hrr : r = r') by exact Hres.
    rewrite Hrr.
    assert (Hle : r' <= n).
    { destruct (Z.le_gt_cases r' n) as [|Hgt]; auto.
      rewrite Hmin in Hok by lia. discriminate. }
    repeat split; try lia; auto.
    unfold CreditBlockchain.attempted_nonces. rewrite Hatt.
    replace (r' - 0) with r' by lia. reflexivity.
  - rewrite Hall in Hok by lia. discriminate.
Qed.

Lemma zrange_bounds (k : nat) :
  forall start x, In x (zrange start k) -> start <= x < start + Z.of_nat k.
Proof.
  induction k as [|k IH]; intros start x Hx.
  - destruct Hx.
  - destruct Hx as [<-|Hx]; [lia|]. apply IH in Hx. lia.
Qed.

Lemma zrange_last_Z (start k d : Z) :
  0 < k -> List.last (zrange start (Z.to_nat k)) d = start + k - 1.
Proof.
  intros Hk.
  destruct (Z.to_nat k) as [|n] eqn:Hn; [lia|].
  rewrite zrange_last. lia.
Qed.

(** The loop on a block for which no nonce up to 1000000 meets the
    difficulty. *)
Lemma pow_exhausted (sha256 : string -> string) (self : CreditBlockchain.t)
  (block_data : string) :
  (forall n, 0 <= n <= 1000000 ->
             CreditBlockchain.meets_difficulty sha256 self block_data n = false) ->
  CreditBlockchain.proof_of_work sha256 self block_data = 1000001 /\
  CreditBlockchain.attempted_nonces sha256 self block_data
  = zrange 0 (Z.to_nat 1000001).
Proof.
  intros Hnone.
  assert (Hrange : 0 <= 0 <= 1000000) by lia.
  assert (Hfuel : (Z.to_nat (1000001 - 0) <= CreditBlockchain.pow_fuel)%nat).
  { unfold CreditBlockchain.pow_fuel. lia. }
  destruct (pow_loop_spec sha256 self block_data CreditBlockchain.pow_fuel 0
              Hrange Hfuel)
    as [(r & Hr & Hok & _) | (_ & Hres & Hatt)].
  - rewrite (Hnone r Hr) in Hok. discriminate.
  - split; [exact Hres|].
    unfold CreditBlockchain.attempted_nonces. rewrite Hatt.
    rewrite Z.sub_0_r. reflexivity.
Qed.

(** C5, as the code has it.  If no nonce in [0 .. 1000000] meets the
    difficulty, [proof_of_work] returns 1000001: the loop has tried exactly
    the nonces [0 .. 1000000], the last one tried is 1000000, and the value
    returned is the next integer, for which no digest was computed. *)
Theorem C5_proof_of_work_exhausted (sha256 : string -> string)
  (self : CreditBlockchain.t) (block_data : string) :
  (forall n, 0 <= n <= 1000000 ->
             CreditBlockchain.meets_difficulty sha256 self block_data n = false) ->
  CreditBlockchain.proof_of_work sha256 self block_data = 1000001 /\
  CreditBlockchain.attempted_nonces sha256 self block_data
  = zrange 0 (Z.to_nat 1000001) /\
  List.last (CreditBlockchain.attempted_nonces sha256 self block_data) 0
  = 1000000 /\
  ~ In 1000001 (CreditBlockchain.attempted_nonces sha256 self block_data).
Proof.
  intros Hnone.
  destruct (pow_exhausted sha256 self block_data Hnone) as [Hres Hatt].
  split; [exact Hres|]. split; [exact Hatt|]. rewrite Hatt. split.
  - exact (zrange_last_Z 0 1000001 0 eq_refl).
  - intros Hin. apply zrange_bounds in Hin. lia.
Qed.

(* ===================================================================== *)
(** ** Facts on strings and on the SHA-256 digest *)
(* ===================================================================== *)

Lemma string_length_app (s1 s2 : string) :
  String.length (s1 ++ s2) = (String.length s1 + String.length s2)%nat.
Proof.
  induction s1 as [|c s1 IH]; simpl; auto.
Qed.

Lemma prefix_length (t s : string) :
  String.prefix t s = true -> (String.length t <= String.length s)%nat.
Proof.
  revert s; induction t as [|c t IH]; intros s H.
  - simpl. lia.
  - destruct s as [|c' s]; simpl in H; [discriminate|].
    destruct (ascii_dec c c'); [|discriminate].
    apply IH in H. simpl. lia.
Qed.

Lemma str_repeat_length (c : ascii) (n : nat) :
  String.length (str_repeat (String c EmptyString) n) = n.
Proof.
  induction n as [|n IH]; simpl; auto.
Qed.

Lemma hex_be_length (n : nat) (x : Z) : String.length (SHA256.hex_be n x) = n.
Proof.
  induction n as [|n IH]; simpl; auto.
Qed.

(** [v] is the first 32 bits of the fractional part of the [k]-th root of
    [p]: for the integer part [c] of that root, [c * 2^32 + v] is the
    integer part of the root of [p * 2^(32 k)]. *)
Definition root_bits (k p v : Z) : bool :=
  (0 <=? v) && (v <? 2 ^ 32) &&
  existsb
    (fun c =>
       let r := c * 2 ^ 32 + v in
       (r ^ k <=? p * 2 ^ (32 * k)) && (p * 2 ^ (32 * k) <? (r + 1) ^ k))
    [0; 1; 2; 3; 4; 5; 6; 7].

Lemma K_cube_roots :
  List.length SHA256.K = 64%nat /\
  forallb (fun pv => root_bits 3 (fst pv) (snd pv))
          (combine SHA256.primes SHA256.K) = true.
Proof.
  split; vm_compute; reflexivity.
Qed.

Lemma init_square_roots :
  forallb (fun pv => root_bits 2 (fst pv) (snd pv))
    (combine SHA256.primes
       [ SHA256.ra SHA256.init; SHA256.rb SHA256.init; SHA256.rc SHA256.init;
         SHA256.rd SHA256.init; SHA256.re SHA256.init; SHA256.rf SHA256.init;
         SHA256.rg SHA256.init; SHA256.rh SHA256.init ]) = true.
Proof.
  vm_compute. reflexivity.
Qed.

(** The digests of the empty string and of [abc] (FIPS 180-4 examples). *)
Lemma sha256_test_vectors :
  sha256_hexdigest EmptyString
  = "e3b0c44298fc1c149afbf4c8996fb92427ae41e4649b934ca495991b7852b855" /\
  sha256_hexdigest "abc"
  = "ba7816bf8f01cfea414140de5dae2223b00361a396177a9cb410ff61f20015ad".
Proof.
  split; vm_compute; reflexivity.
Qed.

(** A digest is written on 64 characters. *)
Lemma hexdigest_length (s : string) : String.length (sha256_hexdigest s) = 64%nat.
Proof.
  unfold sha256_hexdigest, SHA256.hexdigest.
  repeat rewrite string_length_app. repeat rewrite hex_be_length.
  reflexivity.
Qed.

(** No digest starts with more than 64 zeros: a difficulty above 64 is
    out of reach. *)
Lemma unreachable_difficulty (self : CreditBlockchain.t) (block_data : string)
  (n : Z) :
  64 < CreditBlockchain.difficulty self ->
  CreditBlockchain.meets_difficulty sha256_hexdigest self block_data n = false.
Proof.
  intros Hd. unfold CreditBlockchain.meets_difficulty, startswith.
  destruct (String.prefix _ _) eqn:Hp; auto.
  apply prefix_length in Hp.
  unfold str_mul in Hp. rewrite str_repeat_length, hexdigest_length in Hp.
  lia.
Qed.

(** A ledger object whose difficulty no digest can meet. *)
Definition unreachable_ledger : CreditBlockchain.t :=
  CreditBlockchain.Make "credit_risk.db" 65.

(** C5, as the claim states it, fails: with a difficulty of 65 no nonce
    meets the difficulty, and the value returned, 1000001, is not the last
    nonce tried, 1000000. *)
Lemma C5_counterexample :
  (forall n, 0 <= n <= 1000000 ->
     CreditBlockchain.meets_difficulty sha256_hexdigest unreachable_ledger
       "block" n = false) /\
  CreditBlockchain.proof_of_work sha256_hexdigest unreachable_ledger "block"
  <> List.last
       (CreditBlockchain.attempted_nonces sha256_hexdigest unreachable_ledger
          "block") 0.
Proof.
  assert (Hnone : forall n, 0 <= n <= 1000000 ->
     CreditBlockchain.meets_difficulty sha256_hexdigest unreachable_ledger
       "block" n = false).
  { intros n _. apply unreachable_difficulty. reflexivity. }
  split; [exact Hnone|].
  destruct (pow_exhausted sha256_hexdigest unreachable_ledger "block" Hnone)
    as [Hres Hatt].
  rewrite Hres, Hatt.
  rewrite (zrange_last_Z 0 1000001 0 eq_refl).
  discriminate.
Qed.

(** The exhausted search, on the ledger of difficulty 65. *)
Lemma C5_witness :
  CreditBlockchain.proof_of_work sha256_hexdigest unreachable_ledger "block"
  = 1000001 /\
  CreditBlockchain.attempted_nonces sha256_hexdigest unreachable_ledger "block"
  = zrange 0 (Z.to_nat 1000001) /\
  List.last
    (CreditBlockchain.attempted_nonces sha256_hexdigest unreachable_ledger
       "block") 0 = 1000000 /\
  ~ In 1000001
      (CreditBlockchain.attempted_nonces sha256_hexdigest unreachable_ledger
         "block").
Proof.
  apply (C5_proof_of_work_exhausted sha256_hexdigest unreachable_ledger "block").
  intros n _. apply unreachable_difficulty. reflexivity.
Defined.

Definition default_ledger : CreditBlockchain.t :=
  CreditBlockchain.init "credit_risk.db".

(** The search on a block whose first nonce meeting the default
    difficulty is 2. *)
Lemma C4_witness :
  let r :=
    CreditBlockchain.proof_of_work sha256_hexdigest default_ledger
      "block-16888" in
  0 <= r <= 2 /\
  startswith (sha256_hexdigest ("block-16888" ++ str_int r))
             (str_mul "0" (CreditBlockchain.difficulty default_ledger)) = true /\
  (forall m, 0 <= m < r ->
             startswith (sha256_hexdigest ("block-16888" ++ str_int m))
                        (str_mul "0" (CreditBlockchain.difficulty default_ledger))
             = false) /\
  CreditBlockchain.attempted_nonces sha256_hexdigest default_ledger
    "block-16888" = zrange 0 (S (Z.to_nat r)) /\
  (forall p, CreditBlockchain.difficulty (CreditBlockchain.init p) = 4).
Proof.
  apply (C4_proof_of_work_least sha256_hexdigest default_ledger
           "block-16888" 2).
  - lia.
  - vm_compute. reflexivity.
Defined.

(* ===================================================================== *)
(** ** Properties of the Merkle root *)
(* ===================================================================== *)

(** C6, as the code has it.  The root of no leaf is the digest of the
    empty string and the root of one leaf is its digest.  With two leaves
    or more the leaves are concatenated in adjacent pairs, left to right,
    an odd last leaf with itself, each pair is replaced by its digest, and
    the root is the root of that shorter level; the last value left is
    hashed once more.  So the root of [a, b] is
    [digest (digest (a ++ b))], and the root of [a, b, c] is the root of
    [a, b, c, c]. *)
Theorem C6_merkle_root_cases (sha256 : string -> string) (x a b c : string) :
  CreditBlockchain.calculate_merkle_root sha256 [] = sha256 EmptyString /\
  CreditBlockchain.calculate_merkle_root sha256 [x] = sha256 x /\
  CreditBlockchain.calculate_merkle_root sha256 [a; b]
  = sha256 (sha256 (a ++ b)) /\
  CreditBlockchain.calculate_merkle_root sha256 [a; b; c]
  = sha256 (sha256 (sha256 (a ++ b) ++ sha256 (c ++ c))) /\
  CreditBlockchain.calculate_merkle_root sha256 [a; b; c]
  = CreditBlockchain.calculate_merkle_root sha256 [a; b; c; c] /\
  (forall l, (2 <= List.length l)%nat ->
     CreditBlockchain.calculate_merkle_root sha256 l
     = CreditBlockchain.calculate_merkle_root sha256
         (CreditBlockchain.next_level sha256 l)) /\
  (forall u v rest,
     CreditBlockchain.next_level sha256 (u :: v :: rest)
     = sha256 (u ++ v) :: CreditBlockchain.next_level sha256 rest) /\
  (forall u, CreditBlockchain.next_level sha256 [u] = [sha256 (u ++ u)]).
Proof.
  repeat split;
    try (repeat (simp calculate_merkle_root;
                 cbn [CreditBlockchain.next_level]); reflexivity).
  intros [|u [|v rest]] Hlen; simpl in Hlen; try lia.
  now simp calculate_merkle_root.
Qed.

(** C6, as the claim states it, fails on two leaves: the root of [a, b] is
    not the digest of the two leaf digests put side by side, whether these
    are taken as hexadecimal text or as raw bytes. *)
Lemma C6_counterexample :
  CreditBlockchain.calculate_merkle_root sha256_hexdigest ["a"; "b"]
  <> sha256_hexdigest (sha256_hexdigest "a" ++ sha256_hexdigest "b") /\
  CreditBlockchain.calculate_merkle_root sha256_hexdigest ["a"; "b"]
  <> SHA256.hexdigest
       (SHA256.digest (encode "a") ++ SHA256.digest (encode "b"))%list.
Proof.
  rewrite CreditBlockchain.calculate_merkle_root_equation_3.
  cbn [CreditBlockchain.next_level].
  rewrite CreditBlockchain.calculate_merkle_root_equation_2.
  split; intros H; vm_compute in H; discriminate H.
Qed.

(* ===================================================================== *)
(** ** Properties of the verification *)
(* ===================================================================== *)

Section Verification.

Variable sha256 : string -> string.
Variable self : CreditBlockchain.t.

Abbreviation verify_one := (CreditBlockchain._verify_single_block sha256 self).
Abbreviation scan := (CreditBlockchain.scan sha256 self).
Abbreviation verify := (CreditBlockchain.verify_blockchain_integrity sha256 self).

(** The blocks of [l] whose recomputed hash matches the stored one. *)
Definition count_verified (blockchain_type : string) (l : list block) : nat :=
  List.length (filter (fun b => verify_one b blockchain_type) l).

(** The kinds whose linkage the loop tests. *)
Definition link_checked (blockchain_type : string) : bool :=
  String.eqb blockchain_type "credit_score"
  || String.eqb blockchain_type "transaction".

Lemma link_broken_checked (blockchain_type : string) (p b : block) :
  link_checked blockchain_type = true ->
  CreditBlockchain.link_broken blockchain_type (Some p) b
  = negb (String.eqb (previous_hash_of b) (block_hash_of p)).
Proof.
  unfold link_checked, CreditBlockchain.link_broken.
  destruct (String.eqb blockchain_type "credit_score"); auto.
  destruct (String.eqb blockchain_type "transaction"); auto.
  discriminate.
Qed.

Lemma link_broken_unchecked (blockchain_type : string) (prev : option block)
  (b : block) :
  link_checked blockchain_type = false ->
  CreditBlockchain.link_broken blockchain_type prev b = false.
Proof.
  unfold link_checked, CreditBlockchain.link_broken.
  destruct prev; auto.
  destruct (String.eqb blockchain_type "credit_score"); [discriminate|].
  destruct (String.eqb blockchain_type "transaction"); [discriminate|].
  auto.
Qed.

(** The counters only grow, by one per block on which the body runs. *)
Lemma scan_step (blockchain_type : string) (prev : option block) (b : block)
  (rest : list block) (v e : nat) :
  scan blockchain_type prev (b :: rest) v e
  = if CreditBlockchain.link_broken blockchain_type prev b
    then (v + count_verified blockchain_type [b], S e)%nat
    else scan blockchain_type (Some b) rest
           (v + count_verified blockchain_type [b])%nat (S e).
Proof.
  unfold count_verified. simpl.
  destruct (verify_one b blockchain_type); simpl;
    replace (v + 1)%nat with (S v) by lia;
    replace (v + 0)%nat with v by lia; reflexivity.
Qed.

Lemma count_verified_cons (blockchain_type : string) (b : block)
  (l : list block) :
  count_verified blockchain_type (b :: l)
  = (count_verified blockchain_type [b] + count_verified blockchain_type l)%nat.
Proof.
  unfold count_verified. simpl.
  destruct (verify_one b blockchain_type); reflexivity.
Qed.

(** A loop that never leaves by [break] runs on every block. *)
Lemma scan_no_break (blockchain_type : string) (blocks : list block) :
  forall prev v e,
    (forall pre q b post,
        (match prev with Some p => [p] | None => [] end ++ blocks)%list
        = (pre ++ q :: b :: post)%list ->
        CreditBlockchain.link_broken blockchain_type (Some q) b = false) ->
    scan blockchain_type prev blocks v e
    = (v + count_verified blockchain_type blocks,
       e + List.length blocks)%nat.
Proof.
  induction blocks as [|b rest IH]; intros prev v e Hlinks.
  - simpl. unfold count_verified. simpl. f_equal; lia.
  - rewrite scan_step.
    assert (Hb : CreditBlockchain.link_broken blockchain_type prev b = false).
    { destruct prev as [p|]; [|reflexivity].
      apply (Hlinks [] p b rest). reflexivity. }
    rewrite Hb, IH.
    + rewrite (count_verified_cons _ b rest). simpl. f_equal; lia.
    + intros pre q b' post Heq.
      apply (Hlinks (match prev with Some p => [p] | None => [] end ++ pre)%list
               q b' post).
      simpl in Heq. rewrite <- app_assoc. simpl.
      destruct prev; simpl; rewrite Heq; reflexivity.
Qed.

(** The loop on a ledger whose first broken link is at index [S k]: it
    runs on the blocks [0 .. S k] and on no other. *)
Lemma scan_break (blockchain_type : string) (blocks : list block) :
  link_checked blockchain_type = true ->
  forall k prev v e p b,
    nth_error blocks k = Some p ->
    nth_error blocks (S k) = Some b ->
    previous_hash_of b <> block_hash_of p ->
    (forall j q a, (j < k)%nat ->
        nth_error blocks j = Some q -> nth_error blocks (S j) = Some a ->
        previous_hash_of a = block_hash_of q) ->
    (forall q b0, prev = Some q -> nth_error blocks 0 = Some b0 ->
        previous_hash_of b0 = block_hash_of q) ->
    scan blockchain_type prev blocks v e
    = (v + count_verified blockchain_type (firstn (S (S k)) blocks),
       e + S (S k))%nat.
Proof.
  intros Hkind.
  induction blocks as [|b0 rest IH]; intros k prev v e p b Hp Hb Hne Hlinked Hprev.
  - destruct k; discriminate.
  - rewrite scan_step.
    assert (Hb0 : CreditBlockchain.link_broken blockchain_type prev b0 = false).
    { destruct prev as [q|]; [|reflexivity].
      rewrite link_broken_checked by assumption.
      rewrite (Hprev q b0 eq_refl eq_refl). rewrite String.eqb_refl.
      reflexivity. }
    rewrite Hb0.
    destruct k as [|k].
    + simpl in Hp. injection Hp as ->.
      destruct rest as [|b1 rest']; [discriminate|].
      simpl in Hb. injection Hb as ->.
      rewrite scan_step.
      rewrite link_broken_checked by assumption.
      apply String.eqb_neq in Hne. rewrite Hne. simpl negb. cbv iota.
      change (firstn 2 (p :: b :: rest')) with [p; b].
      rewrite (count_verified_cons _ p [b]). f_equal; lia.
    + rewrite (IH k (Some b0) _ _ p b); auto.
      * change (firstn (S (S (S k))) (b0 :: rest))
          with (b0 :: firstn (S (S k)) rest).
        rewrite (count_verified_cons _ b0 (firstn (S (S k)) rest)).
        f_equal; lia.
      * intros j q a Hj Hq Ha. apply (Hlinked (S j) q a); auto. lia.
      * intros q b1 Hq Hb1. injection Hq as <-.
        apply (Hlinked 0%nat b0 b1); auto. lia.
Qed.

(** A kind that [_verify_single_block] does not know verifies nothing. *)
Lemma verify_one_other_kind (blockchain_type : string) (b : block) :
  blockchain_type <> "credit_score" ->
  blockchain_type <> "transaction" ->
  verify_one b blockchain_type = false.
Proof.
  intros H1 H2. unfold CreditBlockchain._verify_single_block.
  apply String.eqb_neq in H1, H2. rewrite H1, H2. reflexivity.
Qed.

Lemma count_verified_other_kind (blockchain_type : string) (l : list block) :
  blockchain_type <> "credit_score" ->
  blockchain_type <> "transaction" ->
  count_verified blockchain_type l = 0%nat.
Proof.
  intros H1 H2. unfold count_verified.
  induction l as [|b l IH]; simpl; auto.
  rewrite verify_one_other_kind by assumption. exact IH.
Qed.



End Verification.

(** The answer on a ledger that holds at least one block, in terms of the
    loop. *)
Lemma verify_nonempty (sha256 : string -> string) (self : CreditBlockchain.t)
  (db : database) (c : clock) (blockchain_type : string) :
  let blocks := fetchall db (CreditBlockchain.table_map blockchain_type) in
  let r :=
    fst (CreditBlockchain.verify_blockchain_integrity sha256 self db c
           blockchain_type) in
  blocks <> [] ->
  CreditBlockchain.verified_blocks r
  = fst (CreditBlockchain.scan sha256 self blockchain_type None blocks 0 0) /\
  CreditBlockchain.total_blocks r = List.length blocks /\
  CreditBlockchain.integrity_score r
  = truediv (Z.of_nat (CreditBlockchain.verified_blocks r))
            (Z.of_nat (List.length blocks)) /\
  CreditBlockchain.valid r = Qeq_bool (CreditBlockchain.integrity_score r) 1.
Proof.
  intros blocks r Hne. subst r.
  unfold CreditBlockchain.verify_blockchain_integrity.
  fold blocks. destruct blocks as [|b rest]; [congruence|].
  repeat split; reflexivity.
Qed.

(** C8.  On a ledger with no block, [verify_blockchain_integrity] returns
    exactly [valid = True], [total_blocks = 0], [verified_blocks = 0] and
    [integrity_score = 1.0] (and no other key), leaves the database as it
    is, and its loop body runs on no block.  [verify_blockchain] of the
    demonstration ledger returns the same four values on its empty table. *)
Theorem C8_empty_ledger (sha256 : string -> string)
  (self : CreditBlockchain.t) (db : database) (c : clock)
  (blockchain_type : string) :
  fetchall db (CreditBlockchain.table_map blockchain_type) = [] ->
  CreditBlockchain.verify_blockchain_integrity sha256 self db c blockchain_type
  = (CreditBlockchain.Verification true 0 0 1 None, db) /\
  CreditBlockchain.blocks_examined sha256 self db blockchain_type = 0%nat /\
  (forall demo,
     SimpleBlockchain.verify_blockchain sha256 demo []
     = Some (SimpleBlockchain.Verification true 0 0 1)).
Proof.
  intros Hempty.
  unfold CreditBlockchain.verify_blockchain_integrity,
    CreditBlockchain.blocks_examined.
  rewrite Hempty. repeat split; reflexivity.
Qed.

(** C10.  For a [blockchain_type] other than [credit_score] and
    [transaction], [_verify_single_block] answers [False] on every block;
    hence on a ledger of such a kind that holds at least one block the
    verification returns [verified_blocks = 0], [integrity_score = 0.0] and
    [valid = False], whatever the blocks hold. *)
Theorem C10_unverifiable_kinds (sha256 : string -> string)
  (self : CreditBlockchain.t) (db : database) (c : clock)
  (blockchain_type : string) :
  blockchain_type <> "credit_score" ->
  blockchain_type <> "transaction" ->
  (forall b,
      CreditBlockchain._verify_single_block sha256 self b blockchain_type
      = false) /\
  (fetchall db (CreditBlockchain.table_map blockchain_type) <> [] ->
   let r :=
     fst (CreditBlockchain.verify_blockchain_integrity sha256 self db c
            blockchain_type) in
   CreditBlockchain.verified_blocks r = 0%nat /\
   CreditBlockchain.integrity_score r = 0%Q /\
   CreditBlockchain.valid r = false /\
   CreditBlockchain.total_blocks r
   = List.length (fetchall db (CreditBlockchain.table_map blockchain_type))).
Proof.
  intros H1 H2. split.
  - intros b. apply verify_one_other_kind; assumption.
  - intros Hne r.
    destruct (verify_nonempty sha256 self db c blockchain_type Hne)
      as (Hv & Ht & Hs & Hval).
    fold r in Hv, Ht, Hs, Hval.
    assert (Hzero : CreditBlockchain.verified_blocks r = 0%nat).
    { rewrite Hv, scan_no_break.
      - simpl. apply count_verified_other_kind; assumption.
      - intros pre q b post _. apply link_broken_unchecked.
        unfold link_checked.
        apply String.eqb_neq in H1, H2. rewrite H1, H2. reflexivity. }
    assert (Hscore : CreditBlockchain.integrity_score r = 0%Q).
    { rewrite Hs, Hzero. reflexivity. }
    repeat split; auto.
    rewrite Hval, Hscore. reflexivity.
Qed.

(** C2, as the code has it.  For the kinds [credit_score] and
    [transaction], when the first block whose [previous_hash] differs from
    the hash of the block before it stands at index [S k], the loop body
    runs on the blocks of index [0 .. S k] and on no later one, and
    [verified_blocks] counts the verified blocks among these; the
    [integrity_score] is [verified_blocks] divided by the number of all the
    blocks of the ledger, and [valid] is the test [integrity_score == 1.0]. *)
Theorem C2_fail_fast (sha256 : string -> string) (self : CreditBlockchain.t)
  (db : database) (c : clock) (blockchain_type : string) (k : nat)
  (p b : block) :
  let blocks := fetchall db (CreditBlockchain.table_map blockchain_type) in
  let r :=
    fst (CreditBlockchain.verify_blockchain_integrity sha256 self db c
           blockchain_type) in
  blockchain_type = "credit_score" \/ blockchain_type = "transaction" ->
  nth_error blocks k = Some p ->
  nth_error blocks (S k) = Some b ->
  previous_hash_of b <> block_hash_of p ->
  (forall j q a, (j < k)%nat ->
      nth_error blocks j = Some q -> nth_error blocks (S j) = Some a ->
      previous_hash_of a = block_hash_of q) ->
  CreditBlockchain.blocks_examined sha256 self db blockchain_type = S (S k) /\
  CreditBlockchain.verified_blocks r
  = count_verified sha256 self blockchain_type (firstn (S (S k)) blocks) /\
  CreditBlockchain.total_blocks r = List.length blocks /\
  CreditBlockchain.integrity_score r
  = truediv (Z.of_nat (CreditBlockchain.verified_blocks r))
            (Z.of_nat (List.length blocks)) /\
  CreditBlockchain.valid r = Qeq_bool (CreditBlockchain.integrity_score r) 1.
Proof.
  intros blocks r Hkind Hp Hb Hne Hlinked.
  assert (Hchecked : link_checked blockchain_type = true).
  { unfold link_checked. destruct Hkind as [-> | ->]; reflexivity. }
  assert (Hscan :
    CreditBlockchain.scan sha256 self blockchain_type None blocks 0 0
    = (count_verified sha256 self blockchain_type (firstn (S (S k)) blocks),
       S (S k))).
  { rewrite (scan_break sha256 self blockchain_type blocks Hchecked k None
               0%nat 0%nat p b Hp Hb Hne Hlinked).
    - reflexivity.
    - intros q b0 Hq. discriminate. }
  assert (Hnonempty : blocks <> []).
  { intros Hnil. rewrite Hnil in Hp. destruct k; discriminate. }
  destruct (verify_nonempty sha256 self db c blockchain_type Hnonempty)
    as (Hv & Ht & Hs & Hval).
  fold blocks in Hv, Ht, Hs. fold r in Hv, Ht, Hs, Hval.
  repeat split; auto.
  - unfold CreditBlockchain.blocks_examined. fold blocks. rewrite Hscan.
    reflexivity.
  - rewrite Hv, Hscan. reflexivity.
Qed.

(** C7, as the code has it.  A verification of a ledger that holds at
    least one block appends exactly one row to
    [blockchain_verification_log]; the row carries the kind, the two
    counts and the score of the answer, and its [verification_hash], which
    is also in the answer, is the digest of the sorted JSON text of these
    four fields and of the current time.  A verification of an empty ledger
    writes nothing and its answer has no [verification_hash]. *)
Theorem C7_verification_record (sha256 : string -> string)
  (self : CreditBlockchain.t) (db : database) (c : clock)
  (blockchain_type : string) :
  let blocks := fetchall db (CreditBlockchain.table_map blockchain_type) in
  let r :=
    fst (CreditBlockchain.verify_blockchain_integrity sha256 self db c
           blockchain_type) in
  let db' :=
    snd (CreditBlockchain.verify_blockchain_integrity sha256 self db c
           blockchain_type) in
  (blocks <> [] ->
   exists row,
     blockchain_verification_log db'
     = (blockchain_verification_log db ++ [row])%list /\
     VerificationLogRow.blockchain_type row = blockchain_type /\
     VerificationLogRow.total_blocks row = CreditBlockchain.total_blocks r /\
     VerificationLogRow.verified_blocks row
     = CreditBlockchain.verified_blocks r /\
     VerificationLogRow.integrity_score row
     = CreditBlockchain.integrity_score r /\
     VerificationLogRow.verification_hash row
     = sha256
         (json_dumps
            (JDict
               [ ("blockchain_type", JStr blockchain_type);
                 ("total_blocks",
                  JInt (Z.of_nat (CreditBlockchain.total_blocks r)));
                 ("verified_blocks",
                  JInt (Z.of_nat (CreditBlockchain.verified_blocks r)));
                 ("integrity_score",
                  JFloat (CreditBlockchain.integrity_score r));
                 ("timestamp", JStr (isoformat (py_now c))) ])) /\
     CreditBlockchain.verification_hash r
     = Some (VerificationLogRow.verification_hash row)) /\
  (blocks = [] ->
   db' = db /\ CreditBlockchain.verification_hash r = None).
Proof.
  intros blocks r db'. subst r db'.
  unfold CreditBlockchain.verify_blockchain_integrity. fold blocks.
  destruct blocks as [|b rest]; split; intros H; try congruence.
  - split; reflexivity.
  - eexists. repeat split; reflexivity.
Qed.



(* ===================================================================== *)
(** ** The chain of previous hashes *)
(* ===================================================================== *)

Lemma fetch_last_snoc {A : Type} (rows : list A) (x : A) :
  fetch_last (rows ++ [x]) = Some x.
Proof.
  unfold fetch_last. rewrite map_app. simpl. apply last_last.
Qed.

Lemma fetch_last_nth {A : Type} (rows : list A) (i : nat) (p : A) :
  nth_error rows i = Some p -> S i = List.length rows ->
  fetch_last rows = Some p.
Proof.
  intros Hp Hlen.
  destruct (nth_error_split rows i Hp) as (l1 & l2 & -> & Hl1).
  rewrite List.length_app in Hlen. simpl in Hlen.
  destruct l2 as [|y l2]; [|simpl in Hlen; lia].
  apply fetch_last_snoc.
Qed.

Section Chain.

Context {A : Type} (block_hash previous_hash : A -> string).

(** Appending a block that names the hash of the last one keeps the
    chain linked. *)
Lemma linked_snoc (rows : list A) (row : A) :
  linked block_hash previous_hash rows ->
  (forall tip, fetch_last rows = Some tip ->
               previous_hash row = block_hash tip) ->
  linked block_hash previous_hash (rows ++ [row]).
Proof.
  intros Hlinked Htip i p b Hp Hb.
  destruct (Nat.lt_ge_cases (S i) (List.length rows)) as [Hlt | Hge].
  - rewrite nth_error_app1 in Hp, Hb by lia. eauto.
  - assert (Hi : (i < List.length rows)%nat).
    { destruct (Nat.lt_ge_cases i (List.length rows)) as [|Hge']; auto.
      rewrite nth_error_app2 in Hb by lia.
      destruct (S i - List.length rows)%nat as [|[|n]] eqn:E;
        simpl in Hb; try discriminate; lia. }
    rewrite nth_error_app1 in Hp by lia.
    rewrite nth_error_app2 in Hb by lia.
    replace (S i - List.length rows)%nat with 0%nat in Hb by lia.
    simpl in Hb. injection Hb as <-.
    apply Htip. apply (fetch_last_nth rows i p Hp). lia.
Qed.

(** The first block keeps its place when blocks are appended. *)
Lemma rooted_snoc (genesis : string) (rows : list A) (row : A) :
  rooted previous_hash genesis rows ->
  (rows = [] -> previous_hash row = genesis) ->
  rooted previous_hash genesis (rows ++ [row]).
Proof.
  intros Hrooted Hfirst b Hb.
  destruct rows as [|r rows].
  - simpl in Hb. injection Hb as <-. auto.
  - simpl in Hb. apply Hrooted. exact Hb.
Qed.

End Chain.

Lemma fetch_last_nil {A : Type} (rows : list A) :
  fetch_last rows = None -> rows = [].
Proof.
  destruct rows as [|r rows] using rev_ind; auto.
  rewrite fetch_last_snoc. discriminate.
Qed.

Lemma some_pair_inj {A B : Type} (a a' : A) (b b' : B) :
  Some (a, b) = Some (a', b') -> a = a' /\ b = b'.
Proof.
  intros H. injection H as -> ->. split; reflexivity.
Qed.

(** What a successful [add_credit_score_block] leaves in the database. *)
Lemma add_credit_score_block_row (sha256 : string -> string)
  self db c user_id credit_score model_version prediction_confidence
  risk_factors h db' :
  CreditBlockchain.add_credit_score_block sha256 self db c user_id
    credit_score model_version prediction_confidence risk_factors
  = Some (h, db') ->
  exists row,
    db' = with_credit_score_blockchain db
            (credit_score_blockchain db ++ [row])%list /\
    CreditScoreRow.block_hash row = h /\
    CreditScoreRow.previous_hash row
    = match fetch_last (credit_score_blockchain db) with
      | Some tip => CreditScoreRow.block_hash tip
      | None => str_mul "0" 64
      end.
Proof.
  unfold CreditBlockchain.add_credit_score_block.
  destruct (_ || _); [discriminate|].
  intros H.
  match type of H with
  | Some (_, _ _ (_ ++ [?row])%list) = _ => exists row
  end.
  apply some_pair_inj in H as [Hh Hdb].
  repeat split; [symmetry; exact Hdb | exact Hh].
Qed.

Lemma add_transaction_block_row (sha256 : string -> string)
  self db c user_id transaction_type amount h db' :
  CreditBlockchain.add_transaction_block sha256 self db c user_id
    transaction_type amount = Some (h, db') ->
  exists row,
    db' = with_transaction_blockchain db
            (transaction_blockchain db ++ [row])%list /\
    TransactionRow.block_hash row = h /\
    TransactionRow.previous_hash row
    = match fetch_last (transaction_blockchain db) with
      | Some tip => TransactionRow.block_hash tip
      | None => str_mul "0" 64
      end.
Proof.
  unfold CreditBlockchain.add_transaction_block.
  destruct (_ || _); [discriminate|].
  intros H.
  match type of H with
  | Some (_, _ _ (_ ++ [?row])%list) = _ => exists row
  end.
  apply some_pair_inj in H as [Hh Hdb].
  repeat split; [symmetry; exact Hdb | exact Hh].
Qed.

Lemma add_model_block_row (sha256 : string -> string)
  self db c model_version accuracy training_data_hash h db' :
  CreditModelBlockchain.add_model_block sha256 self db c model_version
    accuracy training_data_hash = Some (h, db') ->
  exists row,
    db' = with_model_blockchain db (model_blockchain db ++ [row])%list /\
    ModelBlockRow.block_hash row = h /\
    ModelBlockRow.previous_hash row
    = match fetch_last (model_blockchain db) with
      | Some tip => ModelBlockRow.block_hash tip
      | None => "0"
      end.
Proof.
  unfold CreditModelBlockchain.add_model_block.
  destruct (existsb _ _); [discriminate|].
  intros H.
  match type of H with
  | Some (_, _ _ (_ ++ [?row])%list) = _ => exists row
  end.
  apply some_pair_inj in H as [Hh Hdb].
  repeat split; [symmetry; exact Hdb | exact Hh].
Qed.

(** The linkage of the three ledgers that the code appends to. *)
Definition chained (db : database) : Prop :=
  rooted CreditScoreRow.previous_hash (str_mul "0" 64)
    (credit_score_blockchain db) /\
  linked CreditScoreRow.block_hash CreditScoreRow.previous_hash
    (credit_score_blockchain db) /\
  rooted TransactionRow.previous_hash (str_mul "0" 64)
    (transaction_blockchain db) /\
  linked TransactionRow.block_hash TransactionRow.previous_hash
    (transaction_blockchain db) /\
  linked ModelBlockRow.block_hash ModelBlockRow.previous_hash
    (model_blockchain db).


(* ===================================================================== *)
(** ** Concrete ledgers, with the real SHA-256 *)
(* ===================================================================== *)

(** The process clock reads 10:30:00.039261 local time on 2024-01-15 and
    the database clock 05:00:00 UTC. *)
Definition clock0 : clock :=
  Clock (Datetime 2024 1 15 10 30 0 39261) (Datetime 2024 1 15 5 0 0 0).


(** The credit-score ledger after one call of [add_credit_score_block] on
    a new database. *)
Definition fresh_credit_db : database :=
  match
    CreditBlockchain.add_credit_score_block sha256_hexdigest default_ledger
      empty_database clock0 1 720 "v1" (91 # 100) ["high_debt_ratio"]
  with
  | Some (_, db) => db
  | None => empty_database
  end.

(** A transaction ledger of three mined blocks whose second block was
    replaced by another mined block that names the genesis hash. *)
Definition tx0 : TransactionRow.t :=
  TransactionRow.Make 1
    "00008052588c5ea5a9433dee4599184fe216b11035ef41e0fdcc0bf20d3269be"
    "0000000000000000000000000000000000000000000000000000000000000000"
    1 "deposit" 1500
    "1628eb6daf44d86fece31e32513fd4647a2b341288fb0215fe0570f9ad6eab3e"
    "6d3fa2cb303601d234190729e3b8ad6524afca730f75bddfa1e15ed4e4de985f"
    13935 "2024-01-15 05:00:00" 1.

Definition tx1_forged : TransactionRow.t :=
  TransactionRow.Make 2
    "0000829d4eb8743d7a9a236cdbfb6236f6711446678413a8c4b73dab24cd7bcb"
    "0000000000000000000000000000000000000000000000000000000000000000"
    1 "withdrawal" (41 # 2)
    "f868d23edae642c652da5f2bba0bde32204d04b2bbc9829629f78ad81e343b12"
    "4e32e468ee64e643b37780034d41b83a12f25a9bcdc46ffce88a183ac5739fb1"
    31665 "2024-01-15 05:01:00" 1.

Definition tx2 : TransactionRow.t :=
  TransactionRow.Make 3
    "0000892132d0dda9f3cf625fe5035314849801c99dc7a1b63efebcfb96194eef"
    "00000b9d46b399133e151cd6c0a28a5f66c149bdd31827ac274d628090538508"
    2 "deposit" (301 # 4)
    "93b73a863adfc37f23264e23e140aa5bd35a28a95125e5b103f7be9ae1b9db62"
    "5a19c2cfb2849a9776d24e93498311f48f227dd3130e6421a18427c574b98077"
    43011 "2024-01-15 05:02:00" 1.

Definition tampered_transactions : database :=
  Database [] [tx0; tx1_forged; tx2] [] [] [] [] [].

(** A model-version ledger of three rows, the second of which does not
    name the hash of the first. *)
Definition mv (id : Z) (block_hash previous_hash : string) : ModelVersionRow.t :=
  ModelVersionRow.Make id block_hash previous_hash "v2.0" (85 # 100)
    "d4c999ae43633bd2036188d2bca68e1be8202b2cc1f3a1c42a728eaff7d2483d"
    "a1" "2024-01-15 05:00:00" 0 1.

Definition unlinked_models : database :=
  Database [] [] [mv 1 "h1" "0"; mv 2 "h2" "x"; mv 3 "h3" "h2"] [] [] [] [].

(** C1 fails on the code: after one call of [add_credit_score_block] on a
    new database (user 1, score 720, version v1, confidence 0.91, one risk
    factor), the row holds the timestamp written by the database,
    [2024-01-15 05:00:00], and not the text [2024-01-15T10:30:00.039261]
    that was hashed; [_verify_single_block] answers [False] on it, and
    [verify_blockchain_integrity] returns [valid = False],
    [verified_blocks = 0] and [integrity_score = 0.0]. *)
Theorem C1_fresh_block_fails_verification :
  CreditBlockchain.add_credit_score_block sha256_hexdigest default_ledger
    empty_database clock0 1 720 "v1" (91 # 100) ["high_debt_ratio"]
  = Some ("0000d379964e9d1310f65c3596f41d9d010a862f9de2ccfcd4e86ebeca2877c8",
          fresh_credit_db) /\
  credit_score_blockchain fresh_credit_db
  = [ CreditScoreRow.Make 1
        "0000d379964e9d1310f65c3596f41d9d010a862f9de2ccfcd4e86ebeca2877c8"
        "0000000000000000000000000000000000000000000000000000000000000000"
        1 720 "v1" (91 # 100)
        (String "[" (String dquote ("high_debt_ratio" ++ String dquote "]")))
        "fe2bf5bc78aa570f433b9e6ddb144721334eb705ae470e946e8f7a6e980deeb9"
        0 "2024-01-15 05:00:00" "system" 0 1 ] /\
  isoformat (py_now clock0) = "2024-01-15T10:30:00.039261" /\
  (forall b, In b (fetchall fresh_credit_db "credit_score_blockchain") ->
     CreditBlockchain._verify_single_block sha256_hexdigest default_ledger b
       "credit_score" = false) /\
  (let r :=
     fst (CreditBlockchain.verify_blockchain_integrity sha256_hexdigest
            default_ledger fresh_credit_db clock0 "credit_score") in
   CreditBlockchain.valid r = false /\
   CreditBlockchain.total_blocks r = 1%nat /\
   CreditBlockchain.verified_blocks r = 0%nat /\
   CreditBlockchain.integrity_score r = 0%Q).
Proof.
  assert (Hrows : credit_score_blockchain fresh_credit_db
  = [ CreditScoreRow.Make 1
        "0000d379964e9d1310f65c3596f41d9d010a862f9de2ccfcd4e86ebeca2877c8"
        "0000000000000000000000000000000000000000000000000000000000000000"
        1 720 "v1" (91 # 100)
        (String "[" (String dquote ("high_debt_ratio" ++ String dquote "]")))
        "fe2bf5bc78aa570f433b9e6ddb144721334eb705ae470e946e8f7a6e980deeb9"
        0 "2024-01-15 05:00:00" "system" 0 1 ]).
  { vm_compute. reflexivity. }
  split; [vm_compute; reflexivity|].
  split; [exact Hrows|].
  split; [vm_compute; reflexivity|].
  split.
  - intros b Hb. unfold fetchall in Hb. cbn [String.eqb] in Hb.
    change (String.eqb "credit_score_blockchain" "credit_score_blockchain")
      with true in Hb.
    cbv iota in Hb. rewrite Hrows in Hb.
    destruct Hb as [<- | []]. vm_compute. reflexivity.
  - vm_compute. repeat split; reflexivity.
Qed.

(** C2, as the claim states it, fails.  On the tampered transaction ledger
    the first broken link is at index 1; the loop runs on 2 blocks and
    verifies both, yet the score is 2 divided by 3, the number of all the
    blocks, and not 2 divided by the 2 blocks examined, so that [valid] is
    [False].  And for a kind whose linkage is not tested the loop goes on
    after a broken link: it runs on all 3 blocks of the model-version
    ledger, whose first broken link is at index 1 too. *)
Lemma C2_counterexample :
  let blocks := fetchall tampered_transactions "transaction_blockchain" in
  let r :=
    fst (CreditBlockchain.verify_blockchain_integrity sha256_hexdigest
           default_ledger tampered_transactions clock0 "transaction") in
  nth_error blocks 0 = Some (TransactionBlock tx0) /\
  nth_error blocks 1 = Some (TransactionBlock tx1_forged) /\
  previous_hash_of (TransactionBlock tx1_forged)
  <> block_hash_of (TransactionBlock tx0) /\
  CreditBlockchain.blocks_examined sha256_hexdigest default_ledger
    tampered_transactions "transaction" = 2%nat /\
  CreditBlockchain.verified_blocks r = 2%nat /\
  CreditBlockchain.total_blocks r = 3%nat /\
  Qeq_bool (CreditBlockchain.integrity_score r) (truediv 2 2) = false /\
  Qeq_bool (CreditBlockchain.integrity_score r) (truediv 2 3) = true /\
  CreditBlockchain.valid r = false /\
  (let blocks' := fetchall unlinked_models "model_version_blockchain" in
   (exists p b,
       nth_error blocks' 0 = Some p /\ nth_error blocks' 1 = Some b /\
       previous_hash_of b <> block_hash_of p) /\
   CreditBlockchain.blocks_examined sha256_hexdigest default_ledger
     unlinked_models "model_version" = 3%nat).
Proof.
  cbv zeta.
  split; [reflexivity|]. split; [reflexivity|].
  split; [intros H; vm_compute in H; discriminate H|].
  do 6 (split; [vm_compute; reflexivity|]).
  split; [|vm_compute; reflexivity].
  eexists. eexists. split; [reflexivity|]. split; [reflexivity|].
  intros H; vm_compute in H; discriminate H.
Qed.

(** The verification of the tampered transaction ledger. *)
Lemma C2_witness :
  let blocks := fetchall tampered_transactions
                  (CreditBlockchain.table_map "transaction") in
  let r :=
    fst (CreditBlockchain.verify_blockchain_integrity sha256_hexdigest
           default_ledger tampered_transactions clock0 "transaction") in
  CreditBlockchain.blocks_examined sha256_hexdigest default_ledger
    tampered_transactions "transaction" = 2%nat /\
  CreditBlockchain.verified_blocks r
  = count_verified sha256_hexdigest default_ledger "transaction"
      (firstn 2 blocks) /\
  CreditBlockchain.total_blocks r = List.length blocks /\
  CreditBlockchain.integrity_score r
  = truediv (Z.of_nat (CreditBlockchain.verified_blocks r))
            (Z.of_nat (List.length blocks)) /\
  CreditBlockchain.valid r = Qeq_bool (CreditBlockchain.integrity_score r) 1.
Proof.
  apply (C2_fail_fast sha256_hexdigest default_ledger tampered_transactions
           clock0 "transaction" 0%nat (TransactionBlock tx0)
           (TransactionBlock tx1_forged)).
  - right. reflexivity.
  - reflexivity.
  - reflexivity.
  - intros H. vm_compute in H. discriminate H.
  - intros j q a Hj. lia.
Defined.

(** C7, as the claim states it, fails on the empty ledger: the
    verification returns without writing to the log and its answer has no
    [verification_hash]. *)
Lemma C7_counterexample :
  let out :=
    CreditBlockchain.verify_blockchain_integrity sha256_hexdigest
      default_ledger empty_database clock0 "credit_score" in
  blockchain_verification_log (snd out) = [] /\
  CreditBlockchain.verification_hash (fst out) = None.
Proof.
  split; reflexivity.
Qed.

(** The verification of a new database. *)
Lemma C8_witness :
  CreditBlockchain.verify_blockchain_integrity sha256_hexdigest default_ledger
    empty_database clock0 "credit_score"
  = (CreditBlockchain.Verification true 0 0 1 None, empty_database) /\
  CreditBlockchain.blocks_examined sha256_hexdigest default_ledger
    empty_database "credit_score" = 0%nat /\
  (forall demo,
     SimpleBlockchain.verify_blockchain sha256_hexdigest demo []
     = Some (SimpleBlockchain.Verification true 0 0 1)).
Proof.
  apply (C8_empty_ledger sha256_hexdigest default_ledger empty_database
           clock0 "credit_score").
  reflexivity.
Defined.


(** The verification of the model-version ledger of three rows. *)
Lemma C10_witness :
  (forall b,
      CreditBlockchain._verify_single_block sha256_hexdigest default_ledger b
        "model_version" = false) /\
  (fetchall unlinked_models (CreditBlockchain.table_map "model_version") <> [] ->
   let r :=
     fst (CreditBlockchain.verify_blockchain_integrity sha256_hexdigest
            default_ledger unlinked_models clock0 "model_version") in
   CreditBlockchain.verified_blocks r = 0%nat /\
   CreditBlockchain.integrity_score r = 0%Q /\
   CreditBlockchain.valid r = false /\
   CreditBlockchain.total_blocks r
   = List.length
       (fetchall unlinked_models (CreditBlockchain.table_map "model_version"))).
Proof.
  apply (C10_unverifiable_kinds sha256_hexdigest default_ledger
           unlinked_models clock0 "model_version").
  - intros H. discriminate H.
  - intros H. discriminate H.
Defined.



(* ===================================================================== *)
(** ** Why a block of the credit-score ledger never verifies *)
(* ===================================================================== *)

(** [c] occurs in [s]. *)
Fixpoint occurs (c : ascii) (s : string) : bool :=
  match s with
  | EmptyString => false
  | String c' r => Ascii.eqb c c' || occurs c r
  end.

Lemma occurs_app (c : ascii) (s1 s2 : string) :
  occurs c (s1 ++ s2) = occurs c s1 || occurs c s2.
Proof.
  induction s1 as [|c' s1 IH]; simpl; auto.
  rewrite IH. apply orb_assoc.
Qed.

Lemma digit_char_no_T (d : Z) :
  0 <= d < 10 -> Ascii.eqb "T" (digit_char d) = false.
Proof.
  intros Hd.
  assert (H : d = 0 \/ d = 1 \/ d = 2 \/ d = 3 \/ d = 4 \/ d = 5 \/ d = 6 \/
              d = 7 \/ d = 8 \/ d = 9) by lia.
  repeat (destruct H as [-> | H]; [reflexivity|]). subst d. reflexivity.
Qed.

Lemma digits_acc_no_T (fuel : nat) :
  forall n acc,
    occurs "T" acc = false -> occurs "T" (digits_acc fuel n acc) = false.
Proof.
  induction fuel as [|fuel IH]; intros n acc Hacc; simpl; auto.
  assert (Hd : occurs "T" (String (digit_char (n mod 10)) acc) = false).
  { simpl. rewrite Hacc, orb_false_r. apply digit_char_no_T.
    apply Z.mod_pos_bound. lia. }
  destruct (n <? 10); auto.
Qed.

Lemma str_int_no_T (z : Z) : occurs "T" (str_int z) = false.
Proof.
  unfold str_int, str_nat.
  destruct (z <? 0); [cbn [occurs]|];
    rewrite digits_acc_no_T by reflexivity; reflexivity.
Qed.

Lemma zfill_no_T (w : nat) (n : Z) : occurs "T" (zfill w n) = false.
Proof.
  unfold zfill. rewrite occurs_app, str_int_no_T, orb_false_r.
  induction (w - String.length (str_int n))%nat as [|k IH]; simpl; auto.
Qed.

Lemma date_part_no_T (d : datetime) : occurs "T" (date_part d) = false.
Proof.
  unfold date_part. repeat rewrite occurs_app. repeat rewrite zfill_no_T.
  reflexivity.
Qed.

Lemma time_part_no_T (d : datetime) : occurs "T" (time_part d) = false.
Proof.
  unfold time_part. repeat rewrite occurs_app. repeat rewrite zfill_no_T.
  reflexivity.
Qed.

(** The text that [CURRENT_TIMESTAMP] writes has no [T]; the text that
    [isoformat] writes has one.  The timestamp a row holds is therefore
    never the timestamp that was hashed when the row was built. *)
Lemma current_timestamp_no_T (d : datetime) :
  occurs "T" (current_timestamp d) = false.
Proof.
  unfold current_timestamp. repeat rewrite occurs_app.
  rewrite date_part_no_T, time_part_no_T. reflexivity.
Qed.

Lemma isoformat_has_T (d : datetime) : occurs "T" (isoformat d) = true.
Proof.
  unfold isoformat. repeat rewrite occurs_app.
  rewrite date_part_no_T. reflexivity.
Qed.

Lemma isoformat_ne_current_timestamp (d1 d2 : datetime) :
  isoformat d1 <> current_timestamp d2.
Proof.
  intros H.
  pose proof (isoformat_has_T d1) as H1. rewrite H in H1.
  rewrite current_timestamp_no_T in H1. discriminate.
Qed.

Lemma append_assoc (s1 s2 s3 : string) : (s1 ++ s2) ++ s3 = s1 ++ (s2 ++ s3).
Proof.
  induction s1 as [|c s1 IH]; simpl; congruence.
Qed.

Lemma append_inv_head (s x y : string) : s ++ x = s ++ y -> x = y.
Proof.
  induction s as [|c s IH]; simpl; intros H; auto.
  injection H as H. auto.
Qed.

Lemma append_inv_tail (x y t : string) : x ++ t = y ++ t -> x = y.
Proof.
  revert y; induction x as [|c x IH]; intros [|c' y] H; auto.
  - apply (f_equal String.length) in H.
    simpl in H. rewrite string_length_app in H. lia.
  - apply (f_equal String.length) in H.
    simpl in H. rewrite string_length_app in H. lia.
  - simpl in H. injection H as -> H. f_equal. auto.
Qed.

(** Reading back one escaped character. *)
Lemma parse_string_escape_char (c : ascii) (t : string) :
  parse_string (escape_char c ++ t)
  = match parse_string t with
    | Some (u, rest) => Some (String c u, rest)
    | None => None
    end.
Proof.
  destruct c as [[] [] [] [] [] [] [] []];
    cbn; destruct (parse_string t) as [[u rest]|]; reflexivity.
Qed.

(** [json.loads] undoes the escaping of [json.dumps] inside a string. *)
Lemma parse_string_escape (s rest : string) :
  parse_string (escape s ++ String dquote rest) = Some (s, rest).
Proof.
  induction s as [|c s IH].
  - reflexivity.
  - cbn [escape]. rewrite append_assoc, parse_string_escape_char, IH.
    reflexivity.
Qed.

(** The elements of a JSON array of strings, as [json.dumps] writes them. *)
Definition dump_strings (l : list string) : string :=
  join ", " (map json_string l).

Lemma dump_strings_cons (x y : string) (l : list string) :
  dump_strings (x :: y :: l) = json_string x ++ ", " ++ dump_strings (y :: l).
Proof.
  reflexivity.
Qed.

Lemma json_dumps_strings (l : list string) :
  json_dumps (JList (map JStr l)) = "[" ++ dump_strings l ++ "]".
Proof.
  cbn [json_dumps]. rewrite map_map. reflexivity.
Qed.

Lemma parse_value_quote (fuel : nat) (r : string) :
  parse_value (S fuel) (String dquote r)
  = match parse_string r with
    | Some (t, rest) => Some (JStr t, rest)
    | None => None
    end.
Proof.
  reflexivity.
Qed.

Lemma parse_elements_step (fuel : nat) (s : string) :
  parse_elements (S fuel) s
  = match parse_value fuel s with
    | Some (v, rest) =>
        match skip_ws rest with
        | String "]" rest' => Some ([v], rest')
        | String "," rest' =>
            match parse_elements fuel (skip_ws rest') with
            | Some (vs, rest'') => Some (v :: vs, rest'')
            | None => None
            end
        | _ => None
        end
    | None => None
    end.
Proof.
  reflexivity.
Qed.

(** The text of a non-empty array after its opening bracket: the first
    string, then what follows it. *)
Lemma dump_strings_head (x : string) (l : list string) (rest : string) :
  dump_strings (x :: l) ++ String "]" rest
  = String dquote
      (escape x ++
       String dquote
         (match l with
          | [] => String "]" rest
          | y :: l' => String "," (String " "
                         (dump_strings (y :: l') ++ String "]" rest))
          end)).
Proof.
  destruct l as [|y l].
  - unfold dump_strings, join, json_string. cbn [map String.concat append].
    rewrite append_assoc. reflexivity.
  - rewrite dump_strings_cons. unfold json_string at 1.
    cbn [append]. rewrite !append_assoc. reflexivity.
Qed.

(** Reading back the elements of an array of strings. *)
Lemma parse_elements_strings (l : list string) :
  forall x fuel rest,
    (List.length l + 2 <= fuel)%nat ->
    parse_elements fuel (dump_strings (x :: l) ++ String "]" rest)
    = Some (map JStr (x :: l), rest).
Proof.
  induction l as [|y l IH]; intros x fuel rest Hfuel;
    (destruct fuel as [|[|fuel]]; [simpl in Hfuel; lia ..|]);
    rewrite dump_strings_head, parse_elements_step, parse_value_quote,
      parse_string_escape.
  - reflexivity.
  - change (skip_ws (String "," ?s)) with (String "," s). cbv iota.
    assert (Hskip :
      skip_ws (String " " (dump_strings (y :: l) ++ String "]" rest))
      = dump_strings (y :: l) ++ String "]" rest).
    { rewrite dump_strings_head. reflexivity. }
    simpl in Hfuel.
    rewrite Hskip, IH by lia. reflexivity.
Qed.

Lemma parse_value_array (fuel : nat) (r : string) :
  parse_value (S fuel) (String "[" (String dquote r))
  = match parse_elements fuel (String dquote r) with
    | Some (items, rest) => Some (JList items, rest)
    | None => None
    end.
Proof.
  reflexivity.
Qed.

Lemma dump_strings_length (l : list string) (x rest : string) :
  (List.length l + 2
   <= String.length (dump_strings (x :: l) ++ String "]" rest))%nat.
Proof.
  revert x; induction l as [|y l IH]; intros x; rewrite dump_strings_head;
    cbn [String.length]; rewrite string_length_app; cbn [String.length].
  - simpl. lia.
  - specialize (IH y). simpl. lia.
Qed.

(** [json.loads (json.dumps l)] gives back a list of strings [l]. *)
Lemma json_loads_dumps_strings (l : list string) :
  json_loads (json_dumps (JList (map JStr l))) = Some (JList (map JStr l)).
Proof.
  rewrite json_dumps_strings. unfold json_loads.
  destruct l as [|x l].
  - reflexivity.
  - change ("[" ++ dump_strings (x :: l) ++ "]")
      with (String "[" (dump_strings (x :: l) ++ String "]" EmptyString)).
    pose proof (dump_strings_length l x EmptyString) as Hlen.
    pose proof (parse_elements_strings l x
                  (String.length
                     (String "[" (dump_strings (x :: l)
                                  ++ String "]" EmptyString)))
                  EmptyString) as Hparse.
    cbn [String.length] in Hparse.
    specialize (Hparse ltac:(lia)).
    rewrite dump_strings_head in Hparse |- *.
    change (skip_ws (String "[" ?s)) with (String "[" s).
    rewrite parse_value_array.
    cbn [String.length] in Hparse |- *.
    rewrite Hparse. reflexivity.
Qed.

Lemma occurs_T_escape_char (c : ascii) :
  occurs "T" (escape_char c) = Ascii.eqb "T" c.
Proof.
  destruct c as [[] [] [] [] [] [] [] []]; vm_compute; reflexivity.
Qed.

(** Escaping neither adds nor removes a [T]. *)
Lemma occurs_T_escape (s : string) : occurs "T" (escape s) = occurs "T" s.
Proof.
  induction s as [|c s IH]; auto.
  cbn [escape occurs]. rewrite occurs_app, occurs_T_escape_char, IH.
  reflexivity.
Qed.

(** The text of which [add_credit_score_block] and
    [_verify_single_block] take the digest: the sorted JSON text of the
    block data, then the Merkle root, then the nonce. *)
Definition block_text (user_id credit_score : Z) (model_version : string)
  (prediction_confidence : Q) (risk_factors : json)
  (previous_hash timestamp merkle_root : string) (nonce : Z) : string :=
  (json_dumps
     (JDict [ ("user_id", JInt user_id);
              ("credit_score", JInt credit_score);
              ("model_version", JStr model_version);
              ("prediction_confidence", JFloat prediction_confidence);
              ("risk_factors", risk_factors);
              ("previous_hash", JStr previous_hash);
              ("timestamp", JStr timestamp) ])
   ++ merkle_root) ++ str_int nonce.

Ltac cancel_append H :=
  repeat first
    [ apply append_inv_tail in H
    | apply append_inv_head in H
    | injection H as H ].

(** Two such texts that differ by the timestamp only are different texts
    as soon as one timestamp has a [T] and the other has none. *)
Lemma block_text_timestamp (user_id credit_score : Z) (model_version : string)
  (prediction_confidence : Q) (risk_factors : json)
  (previous_hash merkle_root : string) (nonce : Z) (ts1 ts2 : string) :
  occurs "T" ts1 <> occurs "T" ts2 ->
  block_text user_id credit_score model_version prediction_confidence
    risk_factors previous_hash ts1 merkle_root nonce
  <> block_text user_id credit_score model_version prediction_confidence
       risk_factors previous_hash ts2 merkle_root nonce.
Proof.
  intros Hts H. apply Hts. clear Hts.
  rewrite <- (occurs_T_escape ts1), <- (occurs_T_escape ts2). f_equal.
  unfold block_text in H. cbn [json_dumps map fst snd] in H.
  assert (Hsort : forall v1 v2 v3 v4 v5 v6 v7 : string,
    sort_items [ ("user_id", v1); ("credit_score", v2); ("model_version", v3);
                 ("prediction_confidence", v4); ("risk_factors", v5);
                 ("previous_hash", v6); ("timestamp", v7) ]
    = [ ("credit_score", v2); ("model_version", v3);
        ("prediction_confidence", v4); ("previous_hash", v6);
        ("risk_factors", v5); ("timestamp", v7); ("user_id", v1) ])
    by reflexivity.
  rewrite !Hsort in H.
  unfold join, dump_item, json_string in H.
  cbn [map String.concat fst snd] in H.
  cancel_append H. exact H.
Qed.

Section NeverVerifies.

Variable sha256 : string -> string.

(** A digest function without collisions. *)
Hypothesis sha256_injective : forall x y, sha256 x = sha256 y -> x = y.

(** The answer of [_verify_single_block] on a row of the credit-score
    ledger does not depend on the object. *)
Definition unverifiable (row : CreditScoreRow.t) : Prop :=
  forall self,
    CreditBlockchain._verify_single_block sha256 self (CreditScoreBlock row)
      "credit_score" = false.

(** The row that [add_credit_score_block] inserts does not verify: its
    hash is the digest of a text with the [isoformat] timestamp, and the
    text rebuilt from the row has the timestamp of the database. *)
Lemma appended_row_unverifiable self db c user_id credit_score model_version
  prediction_confidence risk_factors h db' :
  CreditBlockchain.add_credit_score_block sha256 self db c user_id
    credit_score model_version prediction_confidence risk_factors
  = Some (h, db') ->
  exists row,
    db' = with_credit_score_blockchain db
            (credit_score_blockchain db ++ [row])%list /\
    unverifiable row.
Proof.
  unfold CreditBlockchain.add_credit_score_block.
  destruct (_ || _); [discriminate|].
  intros H.
  match type of H with
  | Some (_, _ _ (_ ++ [?row])%list) = _ => exists row
  end.
  apply some_pair_inj in H as [_ Hdb].
  split; [symmetry; exact Hdb|].
  intros self'. unfold CreditBlockchain._verify_single_block.
  change (String.eqb "credit_score" "credit_score") with true. cbv iota.
  cbn [CreditScoreRow.risk_factors CreditScoreRow.user_id
       CreditScoreRow.credit_score CreditScoreRow.model_version
       CreditScoreRow.prediction_confidence CreditScoreRow.previous_hash
       CreditScoreRow.timestamp CreditScoreRow.merkle_root
       CreditScoreRow.nonce CreditScoreRow.block_hash].
  rewrite json_loads_dumps_strings.
  apply String.eqb_neq. intros Heq. apply sha256_injective in Heq.
  revert Heq.
  apply (block_text_timestamp user_id credit_score model_version
           prediction_confidence (JList (map JStr risk_factors))).
  rewrite current_timestamp_no_T, isoformat_has_T. discriminate.
Qed.

(** No row of the credit-score ledger of a reachable database verifies. *)
Lemma reachable_unverifiable (db : database) :
  reachable sha256 db -> Forall unverifiable (credit_score_blockchain db).
Proof.
  intros Hreach.
  induction Hreach as
    [ | self db c user_id credit_score model_version prediction_confidence
        risk_factors h db' _ IH Hadd
      | self db c user_id transaction_type amount h db' _ IH Hadd
      | self db c blockchain_type _ IH
      | self db c model_version accuracy training_data_hash h db' _ IH Hadd
      | self db c user_id input_features prediction_result model_hash db'
        _ IH Hadd ].
  - constructor.
  - apply appended_row_unverifiable in Hadd as (row & -> & Hrow).
    cbn [credit_score_blockchain with_credit_score_blockchain].
    apply Forall_app. split; auto.
  - apply add_transaction_block_row in Hadd as (row & -> & _). exact IH.
  - unfold CreditBlockchain.verify_blockchain_integrity.
    destruct (fetchall db (CreditBlockchain.table_map blockchain_type));
      exact IH.
  - apply add_model_block_row in Hadd as (row & -> & _). exact IH.
  - unfold CreditModelBlockchain.audit_prediction in Hadd.
    destruct (sqlite_integer user_id); [|discriminate].
    apply (f_equal (fun o => match o with Some d => d | None => db end)) in Hadd.
    subst db'. exact IH.
Qed.

Lemma scan_unverified (self : CreditBlockchain.t) (blockchain_type : string)
  (blocks : list block) :
  (forall b, In b blocks ->
     CreditBlockchain._verify_single_block sha256 self b blockchain_type
     = false) ->
  forall prev v e,
    fst (CreditBlockchain.scan sha256 self blockchain_type prev blocks v e) = v.
Proof.
  induction blocks as [|b rest IH]; intros Hall prev v e; auto.
  cbn [CreditBlockchain.scan].
  rewrite (Hall b (or_introl eq_refl)).
  destruct (CreditBlockchain.link_broken blockchain_type prev b); auto.
  apply IH. intros b' Hb'. apply Hall. right. exact Hb'.
Qed.

(** With a digest function without collisions, the verification of the
    credit-score ledger after any sequence of appends that left at least
    one block verifies no block at all. *)
Theorem appended_blocks_never_verify (self : CreditBlockchain.t)
  (db : database) (c : clock) :
  reachable sha256 db ->
  credit_score_blockchain db <> [] ->
  let r :=
    fst (CreditBlockchain.verify_blockchain_integrity sha256 self db c
           "credit_score") in
  CreditBlockchain.verified_blocks r = 0%nat /\
  CreditBlockchain.integrity_score r = 0%Q /\
  CreditBlockchain.valid r = false.
Proof.
  intros Hreach Hne r.
  assert (Hne' :
    fetchall db (CreditBlockchain.table_map "credit_score") <> []).
  { change (map CreditScoreBlock (credit_score_blockchain db) <> []).
    destruct (credit_score_blockchain db); [congruence | discriminate]. }
  destruct (verify_nonempty sha256 self db c "credit_score" Hne')
    as (Hv & _ & Hs & Hval).
  fold r in Hv, Hs, Hval.
  assert (Hzero : CreditBlockchain.verified_blocks r = 0%nat).
  { rewrite Hv. apply scan_unverified.
    change (forall b, In b (map CreditScoreBlock (credit_score_blockchain db)) ->
              CreditBlockchain._verify_single_block sha256 self b
                "credit_score" = false).
    intros b Hb. apply in_map_iff in Hb as (row & <- & Hrow).
    pose proof (reachable_unverifiable db Hreach) as Hall.
    rewrite Forall_forall in Hall. apply (Hall row Hrow). }
  assert (Hscore : CreditBlockchain.integrity_score r = 0%Q).
  { rewrite Hs, Hzero. reflexivity. }
  repeat split; auto. rewrite Hval, Hscore. reflexivity.
Qed.

End NeverVerifies.

(** The hypothesis of [appended_blocks_never_verify] can be met: with the
    identity as digest function, which has no collisions, and a ledger of
    difficulty 0, one append leaves a block, and it does not verify. *)
Definition identity_digest (s : string) : string := s.

Definition open_ledger : CreditBlockchain.t :=
  CreditBlockchain.Make "credit_risk.db" 0.

Definition identity_credit_db : database :=
  match
    CreditBlockchain.add_credit_score_block identity_digest open_ledger
      empty_database clock0 1 720 "v1" (91 # 100) ["high_debt_ratio"]
  with
  | Some (_, db) => db
  | None => empty_database
  end.

Lemma appended_blocks_never_verify_instance :
  let r :=
    fst (CreditBlockchain.verify_blockchain_integrity identity_digest
           default_ledger identity_credit_db clock0 "credit_score") in
  CreditBlockchain.verified_blocks r = 0%nat /\
  CreditBlockchain.integrity_score r = 0%Q /\
  CreditBlockchain.valid r = false.
Proof.
  apply (appended_blocks_never_verify identity_digest (fun x y H => H)).
  - eapply (reach_credit_score identity_digest open_ledger empty_database
              clock0 1 720 "v1" (91 # 100) ["high_debt_ratio"] _
              identity_credit_db (reach_empty _)).
    vm_compute. reflexivity.
  - intros H. vm_compute in H. discriminate H.
Qed.

(** The rows of the tampered transaction ledger are well formed: each
    [block_hash] is the digest of the row's [previous_hash],
    [transaction_hash], [merkle_root] and [nonce], each [merkle_root] is
    the root of the one-leaf tree of the [transaction_hash], and each
    nonce meets the default difficulty of 4. *)
Lemma tampered_rows_well_formed :
  Forall
    (fun r =>
       let block_string :=
         TransactionRow.previous_hash r ++ TransactionRow.transaction_hash r
         ++ TransactionRow.merkle_root r in
       TransactionRow.block_hash r
       = sha256_hexdigest (block_string ++ str_int (TransactionRow.nonce r)) /\
       TransactionRow.merkle_root r
       = CreditBlockchain.calculate_merkle_root sha256_hexdigest
           [TransactionRow.transaction_hash r] /\
       CreditBlockchain.meets_difficulty sha256_hexdigest default_ledger
         block_string (TransactionRow.nonce r) = true)
    [tx0; tx1_forged; tx2].
Proof.
  repeat constructor; vm_compute; reflexivity.
Qed.

(* ===================================================================== *)
(** * Further properties of the code *)
(* ===================================================================== *)


(* ===================================================================== *)
(** ** The transaction ledger verifies *)
(* ===================================================================== *)

(** [n / n] is the float 1.0. *)
Lemma truediv_self (n : Z) : 0 < n -> truediv n n = binary64_value (2 ^ 52, -52).
Proof.
  intros Hn. unfold truediv, float_of_Q.
  cbn [Qnum Qden]. rewrite Z2Pos.id by exact Hn.
  destruct (Z.eqb_spec n 0) as [|_]; [lia|].
  destruct (Z.ltb_spec n 0) as [|_]; [lia|].
  f_equal. unfold to_binary64.
  replace (Z.log2 n - Z.log2 n - 52) with (-52) by lia.
  change (scale 2 n n (-52)) with (n * 2 ^ 52, n).
  cbv beta iota.
  assert (Hdiv : n * 2 ^ 52 / n = 2 ^ 52).
  { rewrite Z.mul_comm. apply Z.div_mul. lia. }
  assert (Hmod : (n * 2 ^ 52) mod n = 0).
  { rewrite Z.mul_comm. apply Z.mod_mul. lia. }
  rewrite Hdiv. change (2 ^ 52 <? 2 ^ 52) with false. cbv iota.
  change (scale 2 n n (-52)) with (n * 2 ^ 52, n). cbv beta iota.
  unfold round_half_even. rewrite Hdiv, Hmod.
  replace (2 * 0 ?= n) with Lt by (symmetry; apply Z.compare_lt_iff; lia).
  reflexivity.
Qed.

(** The database reached keeps its three ledgers linked (the invariant of
    the append operations). *)
Lemma reachable_chained (sha256 : string -> string) (db : database) :
  reachable sha256 db -> chained db.
Proof.
  intros Hreach.
  induction Hreach as
    [ | self db c user_id credit_score model_version prediction_confidence
        risk_factors h db' _ IH Hadd
      | self db c user_id transaction_type amount h db' _ IH Hadd
      | self db c blockchain_type _ IH
      | self db c model_version accuracy training_data_hash h db' _ IH Hadd
      | self db c user_id input_features prediction_result model_hash db'
        _ IH Hadd ].
  - repeat split; intros *; intros H; try (destruct i); discriminate.
  - destruct IH as (R1 & L1 & R2 & L2 & L3).
    apply add_credit_score_block_row in Hadd as (row & -> & _ & Hprev).
    repeat split; auto; cbn [credit_score_blockchain with_credit_score_blockchain].
    + apply rooted_snoc; auto. intros Hnil. rewrite Hprev, Hnil.
      reflexivity.
    + apply linked_snoc; auto. intros tip Htip. rewrite Hprev, Htip.
      reflexivity.
  - destruct IH as (R1 & L1 & R2 & L2 & L3).
    apply add_transaction_block_row in Hadd as (row & -> & _ & Hprev).
    repeat split; auto; cbn [transaction_blockchain with_transaction_blockchain].
    + apply rooted_snoc; auto. intros Hnil. rewrite Hprev, Hnil.
      reflexivity.
    + apply linked_snoc; auto. intros tip Htip. rewrite Hprev, Htip.
      reflexivity.
  - unfold CreditBlockchain.verify_blockchain_integrity.
    destruct (fetchall db (CreditBlockchain.table_map blockchain_type));
      exact IH.
  - destruct IH as (R1 & L1 & R2 & L2 & L3).
    apply add_model_block_row in Hadd as (row & -> & _ & Hprev).
    repeat split; auto; cbn [model_blockchain with_model_blockchain].
    apply linked_snoc; auto. intros tip Htip. rewrite Hprev, Htip.
    reflexivity.
  - unfold CreditModelBlockchain.audit_prediction in Hadd.
    destruct (sqlite_integer user_id); [|discriminate].
    apply (f_equal (fun o => match o with Some d => d | None => db end)) in Hadd.
    subst db'. exact IH.
Qed.

Section TransactionLedger.

Variable sha256 : string -> string.

(** A transaction row whose stored hash is the digest of its sealed
    fields. *)
Definition sealed (row : TransactionRow.t) : Prop :=
  forall self,
    CreditBlockchain._verify_single_block sha256 self (TransactionBlock row)
      "transaction" = true.

(** The row that [add_transaction_block] inserts verifies: every field
    that was hashed is stored as it was hashed. *)
Lemma appended_transaction_sealed self db c user_id transaction_type amount
  h db' :
  CreditBlockchain.add_transaction_block sha256 self db c user_id
    transaction_type amount = Some (h, db') ->
  exists row,
    db' = with_transaction_blockchain db
            (transaction_blockchain db ++ [row])%list /\
    sealed row.
Proof.
  unfold CreditBlockchain.add_transaction_block.
  destruct (_ || _); [discriminate|].
  intros H.
  match type of H with
  | Some (_, _ _ (_ ++ [?row])%list) = _ => exists row
  end.
  apply some_pair_inj in H as [_ Hdb].
  split; [symmetry; exact Hdb|].
  intros self'. unfold CreditBlockchain._verify_single_block.
  change (String.eqb "transaction" "credit_score") with false.
  change (String.eqb "transaction" "transaction") with true. cbv iota.
  cbn [TransactionRow.previous_hash TransactionRow.transaction_hash
       TransactionRow.merkle_root TransactionRow.nonce
       TransactionRow.block_hash].
  rewrite <- !append_assoc. apply String.eqb_refl.
Qed.

Lemma reachable_sealed (db : database) :
  reachable sha256 db -> Forall sealed (transaction_blockchain db).
Proof.
  intros Hreach.
  induction Hreach as
    [ | self db c user_id credit_score model_version prediction_confidence
        risk_factors h db' _ IH Hadd
      | self db c user_id transaction_type amount h db' _ IH Hadd
      | self db c blockchain_type _ IH
      | self db c model_version accuracy training_data_hash h db' _ IH Hadd
      | self db c user_id input_features prediction_result model_hash db'
        _ IH Hadd ].
  - constructor.
  - apply add_credit_score_block_row in Hadd as (row & -> & _). exact IH.
  - apply appended_transaction_sealed in Hadd as (row & -> & Hrow).
    cbn [transaction_blockchain with_transaction_blockchain].
    apply Forall_app. split; auto.
  - unfold CreditBlockchain.verify_blockchain_integrity.
    destruct (fetchall db (CreditBlockchain.table_map blockchain_type));
      exact IH.
  - apply add_model_block_row in Hadd as (row & -> & _). exact IH.
  - unfold CreditModelBlockchain.audit_prediction in Hadd.
    destruct (sqlite_integer user_id); [|discriminate].
    apply (f_equal (fun o => match o with Some d => d | None => db end)) in Hadd.
    subst db'. exact IH.
Qed.

Lemma count_verified_all (self : CreditBlockchain.t) (blockchain_type : string)
  (l : list block) :
  (forall b, In b l ->
     CreditBlockchain._verify_single_block sha256 self b blockchain_type
     = true) ->
  count_verified sha256 self blockchain_type l = List.length l.
Proof.
  unfold count_verified. induction l as [|b l IH]; intros Hall; auto.
  cbn [filter]. rewrite (Hall b (or_introl eq_refl)). cbn [List.length].
  f_equal. apply IH. intros b' Hb'. apply Hall. right. exact Hb'.
Qed.

(** On the transaction ledger of a history the loop counts every block:
    each block verifies and no link is broken. *)
Lemma reachable_transactions_counted (self : CreditBlockchain.t)
  (db : database) :
  reachable sha256 db ->
  fst (CreditBlockchain.scan sha256 self "transaction" None
         (map TransactionBlock (transaction_blockchain db)) 0 0)
  = List.length (transaction_blockchain db).
Proof.
  intros Hreach. rewrite scan_no_break.
  - cbn [fst]. rewrite Nat.add_0_l, count_verified_all; [apply length_map|].
    intros b Hb. apply in_map_iff in Hb as (row & <- & Hrow).
    pose proof (reachable_sealed db Hreach) as Hall.
    rewrite Forall_forall in Hall. apply (Hall row Hrow).
  - intros pre q b post Heq. cbn [app] in Heq.
    rewrite link_broken_checked by reflexivity.
    destruct (reachable_chained sha256 db Hreach) as (_ & _ & _ & L & _).
    assert (Hq : nth_error (map TransactionBlock (transaction_blockchain db))
                   (List.length pre) = Some q).
    { rewrite Heq, nth_error_app2 by lia. rewrite Nat.sub_diag.
      reflexivity. }
    assert (Hb : nth_error (map TransactionBlock (transaction_blockchain db))
                   (S (List.length pre)) = Some b).
    { rewrite Heq, nth_error_app2 by lia.
      replace (S (List.length pre) - List.length pre)%nat with 1%nat by lia.
      reflexivity. }
    rewrite nth_error_map in Hq, Hb.
    destruct (nth_error (transaction_blockchain db) (List.length pre))
      as [rq|] eqn:Eq; [|discriminate].
    destruct (nth_error (transaction_blockchain db) (S (List.length pre)))
      as [rb|] eqn:Eb; [|discriminate].
    cbn [option_map] in Hq, Hb.
    injection Hq as <-. injection Hb as <-.
    cbn [previous_hash_of block_hash_of].
    rewrite (L _ _ _ Eq Eb), String.eqb_refl. reflexivity.
Qed.


(** X1.  After any sequence of operations on a new database, the
    verification of the transaction ledger verifies every block: the
    counts are equal, the score is 1.0 and [valid] is [True]. *)
Theorem X1_transaction_ledger_verifies (self : CreditBlockchain.t)
  (db : database) (c : clock) :
  reachable sha256 db ->
  let r :=
    fst (CreditBlockchain.verify_blockchain_integrity sha256 self db c
           "transaction") in
  CreditBlockchain.valid r = true /\
  CreditBlockchain.verified_blocks r = CreditBlockchain.total_blocks r /\
  CreditBlockchain.total_blocks r = List.length (transaction_blockchain db) /\
  (CreditBlockchain.integrity_score r == 1)%Q.
Proof.
  intros Hreach r.
  destruct (transaction_blockchain db) as [|row0 rows] eqn:Hrows.
  - subst r. unfold CreditBlockchain.verify_blockchain_integrity.
    change (fetchall db (CreditBlockchain.table_map "transaction"))
      with (map TransactionBlock (transaction_blockchain db)).
    rewrite Hrows. repeat split; reflexivity.
  - assert (Hne :
      fetchall db (CreditBlockchain.table_map "transaction") <> []).
    { change (map TransactionBlock (transaction_blockchain db) <> []).
      rewrite Hrows. discriminate. }
    destruct (verify_nonempty sha256 self db c "transaction" Hne)
      as (Hv & Ht & Hs & Hval).
    fold r in Hv, Ht, Hs, Hval.
    change (fetchall db (CreditBlockchain.table_map "transaction"))
      with (map TransactionBlock (transaction_blockchain db)) in Hv, Ht, Hs.
    rewrite (reachable_transactions_counted self db Hreach) in Hv.
    rewrite length_map in Ht, Hs.
    assert (Hscore :
      CreditBlockchain.integrity_score r = binary64_value (2 ^ 52, -52)).
    { rewrite Hs, Hv. apply truediv_self.
      rewrite Hrows. cbn [List.length]. lia. }
    rewrite <- Hrows.
    repeat split.
    + rewrite Hval, Hscore. reflexivity.
    + rewrite Hv, Ht. reflexivity.
    + exact Ht.
    + rewrite Hscore. reflexivity.
Qed.

End TransactionLedger.

(** A transaction mined at the first nonce: the process clock reads
    10:30:00.041608. *)
Definition clock1 : clock :=
  Clock (Datetime 2024 1 15 10 30 0 41608) (Datetime 2024 1 15 5 0 0 0).

Definition fresh_transaction_db : database :=
  match
    CreditBlockchain.add_transaction_block sha256_hexdigest default_ledger
      empty_database clock1 1 "deposit" 1500
  with
  | Some (_, db) => db
  | None => empty_database
  end.

Lemma fresh_transaction_db_rows :
  CreditBlockchain.add_transaction_block sha256_hexdigest default_ledger
    empty_database clock1 1 "deposit" 1500
  = Some ("0000b0fbe21060562084627161068eb24595abb4fb515fad32bfa94f50eb0edf",
          fresh_transaction_db) /\
  transaction_blockchain fresh_transaction_db
  = [ TransactionRow.Make 1
        "0000b0fbe21060562084627161068eb24595abb4fb515fad32bfa94f50eb0edf"
        "0000000000000000000000000000000000000000000000000000000000000000"
        1 "deposit" 1500
        "9001d61551d89e4f40e0c653bce832b05bf32135ba1ab1b81ee0ee70d2400b76"
        "a5705009c6f56496e574d74c203ddfa24c58fea06c2291b9a8bce72b0abdc5c2"
        0 "2024-01-15 05:00:00" 1 ].
Proof.
  split; vm_compute; reflexivity.
Qed.

(** The transaction ledger after one append verifies. *)
Lemma X1_witness :
  let r :=
    fst (CreditBlockchain.verify_blockchain_integrity sha256_hexdigest
           default_ledger fresh_transaction_db clock0 "transaction") in
  CreditBlockchain.valid r = true /\
  CreditBlockchain.verified_blocks r = CreditBlockchain.total_blocks r /\
  CreditBlockchain.total_blocks r
  = List.length (transaction_blockchain fresh_transaction_db) /\
  (CreditBlockchain.integrity_score r == 1)%Q.
Proof.
  apply (X1_transaction_ledger_verifies sha256_hexdigest default_ledger
           fresh_transaction_db clock0).
  apply (reach_transaction sha256_hexdigest default_ledger empty_database
           clock1 1 "deposit" 1500
           "0000b0fbe21060562084627161068eb24595abb4fb515fad32bfa94f50eb0edf"
           fresh_transaction_db (reach_empty _)).
  vm_compute. reflexivity.
Defined.

(* ===================================================================== *)
(** ** What the verification of a transaction does not read *)
(* ===================================================================== *)

(** Two transaction rows at the same place of the table with the same
    sealed fields: hash, previous hash, transaction hash, Merkle root and
    nonce. *)
Definition same_seal (r r' : TransactionRow.t) : Prop :=
  TransactionRow.id r = TransactionRow.id r' /\
  TransactionRow.block_hash r = TransactionRow.block_hash r' /\
  TransactionRow.previous_hash r = TransactionRow.previous_hash r' /\
  TransactionRow.transaction_hash r = TransactionRow.transaction_hash r' /\
  TransactionRow.merkle_root r = TransactionRow.merkle_root r' /\
  TransactionRow.nonce r = TransactionRow.nonce r'.

Lemma scan_same_seal (sha256 : string -> string) (self : CreditBlockchain.t)
  (rows rows' : list TransactionRow.t) :
  Forall2 same_seal rows rows' ->
  forall prev prev' v e,
    match prev, prev' with
    | Some p, Some p' => block_hash_of p = block_hash_of p'
    | None, None => True
    | _, _ => False
    end ->
    CreditBlockchain.scan sha256 self "transaction" prev
      (map TransactionBlock rows) v e
    = CreditBlockchain.scan sha256 self "transaction" prev'
        (map TransactionBlock rows') v e.
Proof.
  induction 1 as [|r r' rows rows' (_ & Hh & Hp & Ht & Hm & Hn) _ IH];
    intros prev prev' v e Hprev; [reflexivity|].
  cbn [map CreditBlockchain.scan].
  assert (Hone :
    CreditBlockchain._verify_single_block sha256 self (TransactionBlock r)
      "transaction"
    = CreditBlockchain._verify_single_block sha256 self (TransactionBlock r')
        "transaction").
  { unfold CreditBlockchain._verify_single_block.
    change (String.eqb "transaction" "credit_score") with false.
    change (String.eqb "transaction" "transaction") with true. cbv iota.
    rewrite Hh, Hp, Ht, Hm, Hn. reflexivity. }
  assert (Hlink :
    CreditBlockchain.link_broken "transaction" prev (TransactionBlock r)
    = CreditBlockchain.link_broken "transaction" prev' (TransactionBlock r')).
  { destruct prev as [p|], prev' as [p'|]; try contradiction; auto.
    unfold CreditBlockchain.link_broken.
    cbn [previous_hash_of]. rewrite Hp, Hprev. reflexivity. }
  rewrite Hone, Hlink.
  destruct (CreditBlockchain.link_broken "transaction" prev'
              (TransactionBlock r')); [reflexivity|].
  apply IH. cbn [block_hash_of]. exact Hh.
Qed.

(** X2.  The verification of the transaction ledger reads the sealed
    fields only: rewriting the user, the type, the amount, the timestamp
    or the [verified] column of stored transactions leaves its answer
    unchanged, [verification_hash] included. *)
Theorem X2_transaction_payload_unchecked (sha256 : string -> string)
  (self : CreditBlockchain.t) (db : database) (c : clock)
  (rows' : list TransactionRow.t) :
  Forall2 same_seal (transaction_blockchain db) rows' ->
  fst (CreditBlockchain.verify_blockchain_integrity sha256 self
         (with_transaction_blockchain db rows') c "transaction")
  = fst (CreditBlockchain.verify_blockchain_integrity sha256 self db c
           "transaction").
Proof.
  intros Hsame. unfold CreditBlockchain.verify_blockchain_integrity.
  change (fetchall (with_transaction_blockchain db rows')
            (CreditBlockchain.table_map "transaction"))
    with (map TransactionBlock rows').
  change (fetchall db (CreditBlockchain.table_map "transaction"))
    with (map TransactionBlock (transaction_blockchain db)).
  pose proof (scan_same_seal sha256 self _ _ Hsame None None 0%nat 0%nat I)
    as Hscan.
  pose proof (Forall2_length Hsame) as Hlen.
  destruct Hsame as [|r r' rows rows' Hr Hrows]; [reflexivity|].
  cbn [map] in Hscan |- *. cbn [List.length] in Hlen.
  rewrite <- Hscan.
  cbn [List.length]. rewrite !length_map.
  injection Hlen as Hlen. rewrite <- Hlen. reflexivity.
Qed.

(** The first mined transaction with its amount rewritten from 1500.0 to
    999999.0 and its user from 1 to 2. *)
Definition tx0_rewritten : TransactionRow.t :=
  TransactionRow.Make 1
    "00008052588c5ea5a9433dee4599184fe216b11035ef41e0fdcc0bf20d3269be"
    "0000000000000000000000000000000000000000000000000000000000000000"
    2 "deposit" 999999
    "1628eb6daf44d86fece31e32513fd4647a2b341288fb0215fe0570f9ad6eab3e"
    "6d3fa2cb303601d234190729e3b8ad6524afca730f75bddfa1e15ed4e4de985f"
    13935 "2024-01-15 05:00:00" 1.

Lemma X2_witness :
  fst (CreditBlockchain.verify_blockchain_integrity sha256_hexdigest
         default_ledger
         (with_transaction_blockchain (Database [] [tx0] [] [] [] [] [])
            [tx0_rewritten]) clock0 "transaction")
  = fst (CreditBlockchain.verify_blockchain_integrity sha256_hexdigest
           default_ledger (Database [] [tx0] [] [] [] [] []) clock0
           "transaction").
Proof.
  apply (X2_transaction_payload_unchecked sha256_hexdigest default_ledger
           (Database [] [tx0] [] [] [] [] []) clock0 [tx0_rewritten]).
  repeat constructor.
Defined.

(* ===================================================================== *)
(** ** More on the Merkle root *)
(* ===================================================================== *)

Lemma next_level_app (sha256 : string -> string) (l m : list string) :
  Nat.even (List.length l) = true ->
  CreditBlockchain.next_level sha256 (l ++ m)
  = (CreditBlockchain.next_level sha256 l
     ++ CreditBlockchain.next_level sha256 m)%list.
Proof.
  revert l. fix IH 1.
  intros [|a [|b l]] Heven.
  - reflexivity.
  - discriminate.
  - cbn [app CreditBlockchain.next_level]. f_equal. apply IH. exact Heven.
Qed.

(** X3.  An odd last leaf is paired with itself at every size: for a
    non-empty [l] of even length, the root of [l ++ [c]] is the root of
    [l ++ [c; c]]. *)
Theorem X3_merkle_odd_leaf_duplicated (sha256 : string -> string)
  (l : list string) (c : string) :
  Nat.even (List.length l) = true ->
  l <> [] ->
  CreditBlockchain.calculate_merkle_root sha256 (l ++ [c])
  = CreditBlockchain.calculate_merkle_root sha256 (l ++ [c; c]).
Proof.
  intros Heven Hne.
  destruct l as [|a [|b l]]; [congruence | discriminate |].
  cbn [app].
  rewrite !CreditBlockchain.calculate_merkle_root_equation_3.
  change (a :: b :: (l ++ [c])%list) with ((a :: b :: l) ++ [c])%list.
  change (a :: b :: (l ++ [c; c])%list) with ((a :: b :: l) ++ [c; c])%list.
  rewrite !next_level_app by exact Heven.
  reflexivity.
Qed.

Lemma X3_witness :
  CreditBlockchain.calculate_merkle_root sha256_hexdigest
    (["a"; "b"; "c"; "d"] ++ ["e"])
  = CreditBlockchain.calculate_merkle_root sha256_hexdigest
      (["a"; "b"; "c"; "d"] ++ ["e"; "e"]).
Proof.
  apply (X3_merkle_odd_leaf_duplicated sha256_hexdigest
           ["a"; "b"; "c"; "d"] "e").
  - reflexivity.
  - discriminate.
Defined.

(** The root is always the digest of some text. *)
Lemma merkle_root_is_digest (sha256 : string -> string) (l : list string) :
  exists x, CreditBlockchain.calculate_merkle_root sha256 l = sha256 x.
Proof.
  funelim (CreditBlockchain.calculate_merkle_root sha256 l).
  - eexists. now simp calculate_merkle_root.
  - eexists. now simp calculate_merkle_root.
  - destruct H as [x Hx]. exists x. exact Hx.
Qed.

(** X4.  With SHA-256, the Merkle root of any list of leaves, of any
    length and content, is a text of 64 characters. *)
Theorem X4_merkle_root_length (l : list string) :
  String.length (CreditBlockchain.calculate_merkle_root sha256_hexdigest l)
  = 64%nat.
Proof.
  destruct (merkle_root_is_digest sha256_hexdigest l) as [x ->].
  apply hexdigest_length.
Qed.

(* ===================================================================== *)
(** ** More on the proof of work *)
(* ===================================================================== *)

(** The value returned is a nonce that meets the difficulty, or 1000001. *)
Lemma proof_of_work_result (sha256 : string -> string)
  (self : CreditBlockchain.t) (block_data : string) :
  let r := CreditBlockchain.proof_of_work sha256 self block_data in
  (0 <= r <= 1000000 /\
   CreditBlockchain.meets_difficulty sha256 self block_data r = true /\
   forall m, 0 <= m < r ->
     CreditBlockchain.meets_difficulty sha256 self block_data m = false)
  \/ (r = 1000001 /\
      forall m, 0 <= m <= 1000000 ->
        CreditBlockchain.meets_difficulty sha256 self block_data m = false).
Proof.
  intros r.
  assert (Hrange : 0 <= 0 <= 1000000) by lia.
  assert (Hfuel : (Z.to_nat (1000001 - 0) <= CreditBlockchain.pow_fuel)%nat).
  { unfold CreditBlockchain.pow_fuel. lia. }
  destruct (pow_loop_spec sha256 self block_data CreditBlockchain.pow_fuel 0
              Hrange Hfuel)
    as [(r' & Hr' & Hok & Hmin & Hres & _) | (Hall & Hres & _)].
  - left. assert (Hrr : r = r') by exact Hres. rewrite Hrr. auto.
  - right. split; [exact Hres | exact Hall].
Qed.

Lemma str_repeat_add (s : string) (n m : nat) :
  str_repeat s (n + m) = str_repeat s n ++ str_repeat s m.
Proof.
  induction n as [|n IH]; cbn [str_repeat Nat.add]; auto.
  rewrite IH, append_assoc. reflexivity.
Qed.

Lemma prefix_app_l (t u s : string) :
  String.prefix (t ++ u) s = true -> String.prefix t s = true.
Proof.
  revert s. induction t as [|a t IH]; intros s H.
  - destruct s; reflexivity.
  - destruct s as [|b s]; [discriminate|].
    cbn [append String.prefix] in H |- *.
    destruct (ascii_dec a b); [|discriminate]. apply IH. exact H.
Qed.

(** A digest that starts with [d2] zeros starts with [d1 <= d2] zeros. *)
Lemma startswith_fewer_zeros (s : string) (d1 d2 : Z) :
  d1 <= d2 ->
  startswith s (str_mul "0" d2) = true ->
  startswith s (str_mul "0" d1) = true.
Proof.
  intros Hle. unfold startswith, str_mul.
  replace (Z.to_nat d2) with (Z.to_nat d1 + (Z.to_nat d2 - Z.to_nat d1))%nat
    by lia.
  rewrite str_repeat_add. apply prefix_app_l.
Qed.

(** X5.  The nonce returned by [proof_of_work] lies in [0 .. 1000001], and
    it never decreases when the difficulty is raised: the same block data
    mined at a difficulty [d1 <= d2] needs at most the nonce needed at
    [d2]. *)
Theorem X5_proof_of_work_monotone (sha256 : string -> string)
  (self1 self2 : CreditBlockchain.t) (block_data : string) :
  CreditBlockchain.difficulty self1 <= CreditBlockchain.difficulty self2 ->
  0 <= CreditBlockchain.proof_of_work sha256 self1 block_data /\
  CreditBlockchain.proof_of_work sha256 self1 block_data
  <= CreditBlockchain.proof_of_work sha256 self2 block_data /\
  CreditBlockchain.proof_of_work sha256 self2 block_data <= 1000001.
Proof.
  intros Hle.
  destruct (proof_of_work_result sha256 self1 block_data)
    as [(Hr1 & Hok1 & Hmin1) | (Hr1 & Hall1)];
  destruct (proof_of_work_result sha256 self2 block_data)
    as [(Hr2 & Hok2 & Hmin2) | (Hr2 & Hall2)];
  revert Hr1 Hok1 Hmin1 Hr2 Hok2 Hmin2 || revert Hr1 Hok1 Hmin1 Hr2 Hall2
  || revert Hr1 Hall1 Hr2 Hok2 Hmin2 || revert Hr1 Hall1 Hr2 Hall2;
  generalize (CreditBlockchain.proof_of_work sha256 self1 block_data);
  generalize (CreditBlockchain.proof_of_work sha256 self2 block_data);
  intros r2 r1.
  - intros Hr1 Hok1 Hmin1 Hr2 Hok2 Hmin2.
    repeat split; try lia.
    destruct (Z.le_gt_cases r1 r2) as [|Hgt]; auto.
    assert (Hok : CreditBlockchain.meets_difficulty sha256 self1 block_data r2
                  = true).
    { unfold CreditBlockchain.meets_difficulty in *.
      apply (startswith_fewer_zeros _ _ _ Hle Hok2). }
    rewrite Hmin1 in Hok by lia. discriminate.
  - intros Hr1 Hok1 Hmin1 Hr2 Hall2. lia.
  - intros Hr1 Hall1 Hr2 Hok2 Hmin2.
    assert (Hok : CreditBlockchain.meets_difficulty sha256 self1 block_data r2
                  = true).
    { unfold CreditBlockchain.meets_difficulty in *.
      apply (startswith_fewer_zeros _ _ _ Hle Hok2). }
    rewrite Hall1 in Hok by lia. discriminate.
  - intros Hr1 Hall1 Hr2 Hall2. lia.
Qed.

Lemma X5_witness :
  0 <= CreditBlockchain.proof_of_work sha256_hexdigest
         (CreditBlockchain.Make "credit_risk.db" 0) "abc" /\
  CreditBlockchain.proof_of_work sha256_hexdigest
    (CreditBlockchain.Make "credit_risk.db" 0) "abc"
  <= CreditBlockchain.proof_of_work sha256_hexdigest
       (CreditBlockchain.Make "credit_risk.db" 1) "abc" /\
  CreditBlockchain.proof_of_work sha256_hexdigest
    (CreditBlockchain.Make "credit_risk.db" 1) "abc" <= 1000001.
Proof.
  apply (X5_proof_of_work_monotone sha256_hexdigest
           (CreditBlockchain.Make "credit_risk.db" 0)
           (CreditBlockchain.Make "credit_risk.db" 1) "abc").
  cbn [CreditBlockchain.difficulty]. lia.
Defined.

(** X6.  A block stored by [add_credit_score_block] carries the hash the
    call returns and a nonce in [0 .. 1000001]; unless the nonce is 1000001
    (the search gave up), the stored hash starts with [difficulty]
    characters 0. *)
Theorem X6_credit_block_mined (sha256 : string -> string)
  (self : CreditBlockchain.t) (db : database) (c : clock)
  (user_id credit_score : Z) (model_version : string)
  (prediction_confidence : Q) (risk_factors : list string)
  (h : string) (db' : database) :
  CreditBlockchain.add_credit_score_block sha256 self db c user_id
    credit_score model_version prediction_confidence risk_factors
  = Some (h, db') ->
  exists row,
    credit_score_blockchain db'
    = (credit_score_blockchain db ++ [row])%list /\
    CreditScoreRow.block_hash row = h /\
    0 <= CreditScoreRow.nonce row <= 1000001 /\
    (CreditScoreRow.nonce row <= 1000000 ->
     startswith h (str_mul "0" (CreditBlockchain.difficulty self)) = true).
Proof.
  unfold CreditBlockchain.add_credit_score_block.
  destruct (_ || _); [discriminate|].
  intros H.
  match type of H with
  | Some (_, _ _ (_ ++ [?row])%list) = _ => exists row
  end.
  apply some_pair_inj in H as [Hh Hdb].
  rewrite <- Hdb, <- Hh.
  cbn [credit_score_blockchain with_credit_score_blockchain
       CreditScoreRow.block_hash CreditScoreRow.nonce].
  split; [reflexivity|]. split; [reflexivity|].
  match goal with
  | |- context [CreditBlockchain.proof_of_work sha256 self ?bd] =>
      destruct (proof_of_work_result sha256 self bd)
        as [(Hr & Hok & _) | (Hr & _)];
      revert Hr Hok || revert Hr;
      generalize (CreditBlockchain.proof_of_work sha256 self bd)
  end.
  - intros r Hr Hok. split; [lia|]. intros _. exact Hok.
  - intros r ->. split; [lia|]. intros Habs. lia.
Qed.

Lemma X6_witness :
  exists row,
    credit_score_blockchain fresh_credit_db
    = (credit_score_blockchain empty_database ++ [row])%list /\
    CreditScoreRow.block_hash row
    = "0000d379964e9d1310f65c3596f41d9d010a862f9de2ccfcd4e86ebeca2877c8" /\
    0 <= CreditScoreRow.nonce row <= 1000001 /\
    (CreditScoreRow.nonce row <= 1000000 ->
     startswith
       "0000d379964e9d1310f65c3596f41d9d010a862f9de2ccfcd4e86ebeca2877c8"
       (str_mul "0" (CreditBlockchain.difficulty default_ledger)) = true).
Proof.
  apply (X6_credit_block_mined sha256_hexdigest default_ledger empty_database
           clock0 1 720 "v1" (91 # 100) ["high_debt_ratio"]).
  vm_compute. reflexivity.
Defined.

(** X7.  A block stored by [add_transaction_block] carries the hash the
    call returns and a nonce in [0 .. 1000001]; unless the nonce is 1000001
    (the search gave up), the stored hash starts with [difficulty]
    characters 0. *)
Theorem X7_transaction_block_mined (sha256 : string -> string)
  (self : CreditBlockchain.t) (db : database) (c : clock)
  (user_id : Z) (transaction_type : string) (amount : Q)
  (h : string) (db' : database) :
  CreditBlockchain.add_transaction_block sha256 self db c user_id
    transaction_type amount = Some (h, db') ->
  exists row,
    transaction_blockchain db'
    = (transaction_blockchain db ++ [row])%list /\
    TransactionRow.block_hash row = h /\
    0 <= TransactionRow.nonce row <= 1000001 /\
    (TransactionRow.nonce row <= 1000000 ->
     startswith h (str_mul "0" (CreditBlockchain.difficulty self)) = true).
Proof.
  unfold CreditBlockchain.add_transaction_block.
  destruct (_ || _); [discriminate|].
  intros H.
  match type of H with
  | Some (_, _ _ (_ ++ [?row])%list) = _ => exists row
  end.
  apply some_pair_inj in H as [Hh Hdb].
  rewrite <- Hdb, <- Hh.
  cbn [transaction_blockchain with_transaction_blockchain
       TransactionRow.block_hash TransactionRow.nonce].
  split; [reflexivity|]. split; [reflexivity|].
  match goal with
  | |- context [CreditBlockchain.proof_of_work sha256 self ?bd] =>
      destruct (proof_of_work_result sha256 self bd)
        as [(Hr & Hok & _) | (Hr & _)];
      revert Hr Hok || revert Hr;
      generalize (CreditBlockchain.proof_of_work sha256 self bd)
  end.
  - intros r Hr Hok. split; [lia|]. intros _. exact Hok.
  - intros r ->. split; [lia|]. intros Habs. lia.
Qed.

Lemma X7_witness :
  exists row,
    transaction_blockchain fresh_transaction_db
    = (transaction_blockchain empty_database ++ [row])%list /\
    TransactionRow.block_hash row
    = "0000b0fbe21060562084627161068eb24595abb4fb515fad32bfa94f50eb0edf" /\
    0 <= TransactionRow.nonce row <= 1000001 /\
    (TransactionRow.nonce row <= 1000000 ->
     startswith
       "0000b0fbe21060562084627161068eb24595abb4fb515fad32bfa94f50eb0edf"
       (str_mul "0" (CreditBlockchain.difficulty default_ledger)) = true).
Proof.
  apply (X7_transaction_block_mined sha256_hexdigest default_ledger
           empty_database clock1 1 "deposit" 1500).
  vm_compute. reflexivity.
Defined.

(* ===================================================================== *)
(** ** What the operations leave in the tables *)
(* ===================================================================== *)

(** One call of a method that writes to the database [credit_risk.db]. *)
Inductive operation (sha256 : string -> string) : database -> database -> Prop :=
| op_credit_score self db c user_id credit_score model_version
    prediction_confidence risk_factors h db' :
    CreditBlockchain.add_credit_score_block sha256 self db c user_id
      credit_score model_version prediction_confidence risk_factors
    = Some (h, db') ->
    operation sha256 db db'
| op_transaction self db c user_id transaction_type amount h db' :
    CreditBlockchain.add_transaction_block sha256 self db c user_id
      transaction_type amount = Some (h, db') ->
    operation sha256 db db'
| op_verify self db c blockchain_type :
    operation sha256 db
      (snd (CreditBlockchain.verify_blockchain_integrity sha256 self db c
              blockchain_type))
| op_health_check self db time :
    operation sha256 db
      (snd (CreditBlockchain.blockchain_health_check sha256 self db time))
| op_model self db c model_version accuracy training_data_hash h db' :
    CreditModelBlockchain.add_model_block sha256 self db c model_version
      accuracy training_data_hash = Some (h, db') ->
    operation sha256 db db'
| op_audit self db c user_id input_features prediction_result model_hash db' :
    CreditModelBlockchain.audit_prediction sha256 self db c user_id
      input_features prediction_result model_hash = Some db' ->
    operation sha256 db db'.

(** [rows'] is [rows] followed by at most [n] new rows. *)
Definition grows {A : Type} (n : nat) (rows rows' : list A) : Prop :=
  exists new, rows' = (rows ++ new)%list /\ (List.length new <= n)%nat.

Lemma grows_refl {A : Type} (n : nat) (rows : list A) : grows n rows rows.
Proof.
  exists []. split; [symmetry; apply app_nil_r | simpl; lia].
Qed.

Lemma grows_snoc {A : Type} (n : nat) (rows : list A) (row : A) :
  grows (S n) rows (rows ++ [row]).
Proof.
  exists [row]. split; [reflexivity | simpl; lia].
Qed.

Lemma grows_trans {A : Type} (n m : nat) (l1 l2 l3 : list A) :
  grows n l1 l2 -> grows m l2 l3 -> grows (n + m) l1 l3.
Proof.
  intros (a & -> & Ha) (b & -> & Hb). exists (a ++ b)%list.
  rewrite app_assoc, List.length_app. split; [reflexivity | lia].
Qed.

(** What one verification leaves: the same database, or one more row in
    the log. *)
Lemma verify_database (sha256 : string -> string) (self : CreditBlockchain.t)
  (db : database) (c : clock) (blockchain_type : string) :
  let db' :=
    snd (CreditBlockchain.verify_blockchain_integrity sha256 self db c
           blockchain_type) in
  credit_score_blockchain db' = credit_score_blockchain db /\
  transaction_blockchain db' = transaction_blockchain db /\
  model_version_blockchain db' = model_version_blockchain db /\
  prediction_audit_blockchain db' = prediction_audit_blockchain db /\
  model_blockchain db' = model_blockchain db /\
  prediction_audit db' = prediction_audit db /\
  (blockchain_verification_log db' = blockchain_verification_log db \/
   exists row,
     blockchain_verification_log db'
     = (blockchain_verification_log db ++ [row])%list /\
     VerificationLogRow.id row
     = next_id VerificationLogRow.id (blockchain_verification_log db)).
Proof.
  unfold CreditBlockchain.verify_blockchain_integrity.
  destruct (fetchall db (CreditBlockchain.table_map blockchain_type)).
  - cbn [snd]. repeat split; auto.
  - cbn [snd credit_score_blockchain transaction_blockchain
         model_version_blockchain prediction_audit_blockchain
         model_blockchain prediction_audit blockchain_verification_log
         with_blockchain_verification_log].
    repeat split; auto. right. eexists. split; reflexivity.
Qed.

(** The database left by the health check is the one left by the two
    verifications it runs. *)
Lemma health_check_database (sha256 : string -> string)
  (self : CreditBlockchain.t) (db : database) (time : nat -> clock) :
  snd (CreditBlockchain.blockchain_health_check sha256 self db time)
  = snd (CreditBlockchain.verify_blockchain_integrity sha256 self
           (snd (CreditBlockchain.verify_blockchain_integrity sha256 self db
                   (time 0%nat) "credit_score"))
           (time 1%nat) "transaction").
Proof.
  unfold CreditBlockchain.blockchain_health_check.
  cbn [fold_left]. unfold CreditBlockchain.health_step at 2.
  destruct (CreditBlockchain.verify_blockchain_integrity sha256 self db
              (time 0%nat) "credit_score") as [v1 db1].
  unfold CreditBlockchain.health_step. cbn [snd].
  destruct (CreditBlockchain.verify_blockchain_integrity sha256 self db1
              (time 1%nat) "transaction") as [v2 db2].
  reflexivity.
Qed.

(** X8.  The tables are append-only.  Whatever method is called, each of
    the seven tables afterwards is the table before followed by new rows:
    no stored row is changed, moved or deleted.  At most one row is added
    to a table by one call, two to the verification log by the health
    check, and the tables [model_version_blockchain] and
    [prediction_audit_blockchain] never receive a row. *)
Theorem X8_append_only (sha256 : string -> string) (db db' : database) :
  operation sha256 db db' ->
  grows 1 (credit_score_blockchain db) (credit_score_blockchain db') /\
  grows 1 (transaction_blockchain db) (transaction_blockchain db') /\
  grows 2 (blockchain_verification_log db) (blockchain_verification_log db') /\
  grows 1 (model_blockchain db) (model_blockchain db') /\
  grows 1 (prediction_audit db) (prediction_audit db') /\
  model_version_blockchain db' = model_version_blockchain db /\
  prediction_audit_blockchain db' = prediction_audit_blockchain db.
Proof.
  intros [ self db0 c user_id credit_score model_version
           prediction_confidence risk_factors h db1 Hadd
         | self db0 c user_id transaction_type amount h db1 Hadd
         | self db0 c blockchain_type
         | self db0 time
         | self db0 c model_version accuracy training_data_hash h db1 Hadd
         | self db0 c user_id input_features prediction_result model_hash db1
           Hadd ].
  - apply add_credit_score_block_row in Hadd as (row & -> & _).
    repeat split; try apply grows_refl. apply grows_snoc.
  - apply add_transaction_block_row in Hadd as (row & -> & _).
    repeat split; try apply grows_refl. apply grows_snoc.
  - destruct (verify_database sha256 self db0 c blockchain_type)
      as (-> & -> & -> & -> & -> & -> & Hlog).
    repeat split; try apply grows_refl.
    destruct Hlog as [-> | (row & -> & _)];
      [apply grows_refl | apply (grows_snoc 1)].
  - rewrite health_check_database.
    set (db1 := snd (CreditBlockchain.verify_blockchain_integrity sha256 self
                       db0 (time 0%nat) "credit_score")).
    destruct (verify_database sha256 self db1 (time 1%nat) "transaction")
      as (-> & -> & -> & -> & -> & -> & Hlog2).
    destruct (verify_database sha256 self db0 (time 0%nat) "credit_score")
      as (H1 & H2 & H3 & H4 & H5 & H6 & Hlog1).
    fold db1 in H1, H2, H3, H4, H5, H6, Hlog1.
    rewrite H1, H2, H3, H4, H5, H6.
    repeat split; try apply grows_refl.
    apply (grows_trans 1 1 _ (blockchain_verification_log db1)).
    + destruct Hlog1 as [-> | (row & -> & _)];
        [apply grows_refl | apply grows_snoc].
    + destruct Hlog2 as [-> | (row & -> & _)];
        [apply grows_refl | apply grows_snoc].
  - apply add_model_block_row in Hadd as (row & -> & _).
    repeat split; try apply grows_refl. apply grows_snoc.
  - unfold CreditModelBlockchain.audit_prediction in Hadd.
    destruct (sqlite_integer user_id); [|discriminate].
    apply (f_equal (fun o => match o with Some d => d | None => db0 end))
      in Hadd.
    subst db1. repeat split; try apply grows_refl. apply grows_snoc.
Qed.

Lemma X8_witness :
  grows 1 (credit_score_blockchain empty_database)
    (credit_score_blockchain fresh_transaction_db) /\
  grows 1 (transaction_blockchain empty_database)
    (transaction_blockchain fresh_transaction_db) /\
  grows 2 (blockchain_verification_log empty_database)
    (blockchain_verification_log fresh_transaction_db) /\
  grows 1 (model_blockchain empty_database)
    (model_blockchain fresh_transaction_db) /\
  grows 1 (prediction_audit empty_database)
    (prediction_audit fresh_transaction_db) /\
  model_version_blockchain fresh_transaction_db
  = model_version_blockchain empty_database /\
  prediction_audit_blockchain fresh_transaction_db
  = prediction_audit_blockchain empty_database.
Proof.
  apply (X8_append_only sha256_hexdigest empty_database fresh_transaction_db).
  apply (op_transaction sha256_hexdigest default_ledger empty_database clock1 1
           "deposit" 1500
           "0000b0fbe21060562084627161068eb24595abb4fb515fad32bfa94f50eb0edf").
  vm_compute. reflexivity.
Defined.

(* --------------------------------------------------------------------- *)
(** *** Row numbers and hashes of a history *)







Lemma unique_hash {A : Type} (block_hash : A -> string) (rows : list A)
  (h : string) :
  existsb (fun r => String.eqb (block_hash r) h) rows = false ->
  ~ In h (map block_hash rows).
Proof.
  intros Hex Hin. apply in_map_iff in Hin as (r & Hr & Hin).
  assert (Htrue : existsb (fun r => String.eqb (block_hash r) h) rows = true).
  { apply existsb_exists. exists r. split; auto. apply String.eqb_eq. auto. }
  congruence.
Qed.











(* ===================================================================== *)
(** ** [get_user_credit_history] ([blockchain_integration.py]) *)
(* ===================================================================== *)

From Stdlib Require Import Sorted Permutation.

(** One dictionary of the list that [get_user_credit_history] returns. *)
Module CreditHistoryRecord.
Record t := Make
  { block_hash : string; credit_score : Z; model_version : string;
    prediction_confidence : Q; risk_factors : json; timestamp : string;
    blockchain_verified : Z }.
End CreditHistoryRecord.







(* --------------------------------------------------------------------- *)












(* --------------------------------------------------------------------- *)
(** *** The history after an append *)








(* ===================================================================== *)
(** ** [CreditModelBlockchain.verify_blockchain_integrity]
       ([deep_learning_model.py]) *)
(* ===================================================================== *)

Module CreditModelVerification.

Section WithDigest.

Variable sha256 : string -> string.

(** The hash recomputed from the columns of a fetched block. *)
Definition calculated_hash (block : ModelBlockRow.t) : string :=
  let block_data :=
    JDict [ ("model_version", JStr (ModelBlockRow.model_version block));
            ("accuracy", JFloat (ModelBlockRow.accuracy block));
            ("training_data_hash",
             JStr (ModelBlockRow.training_data_hash block));
            ("previous_hash", JStr (ModelBlockRow.previous_hash block));
            ("timestamp", JStr (ModelBlockRow.timestamp block)) ] in
  let block_string := json_dumps block_data in
  sha256 block_string.

(** The [for] loop, which leaves by [return False] at the first block
    whose hash or whose link is wrong; [previous_block] is [None] at
    index 0. *)
Fixpoint verify_loop (previous_block : option ModelBlockRow.t)
  (blocks : list ModelBlockRow.t) : bool :=
  match blocks with
  | [] => true
  | block :: rest =>
      if negb (String.eqb (calculated_hash block)
                          (ModelBlockRow.block_hash block))
      then false
      else
        match previous_block with
        | Some p =>
            if negb (String.eqb (ModelBlockRow.previous_hash block)
                                (ModelBlockRow.block_hash p))
            then false
            else verify_loop (Some block) rest
        | None => verify_loop (Some block) rest
        end
  end.

Definition verify_blockchain_integrity (self : CreditModelBlockchain.t)
  (db : database) : bool :=
  match model_blockchain db with
  | [] => true
  | blocks => verify_loop None blocks
  end.

End WithDigest.

End CreditModelVerification.

Lemma linked_cons_inv {A : Type} (block_hash previous_hash : A -> string)
  (a : A) (l : list A) :
  linked block_hash previous_hash (a :: l) <->
  (match l with
   | [] => True
   | b :: _ => previous_hash b = block_hash a
   end /\ linked block_hash previous_hash l).
Proof.
  unfold linked. split.
  - intros H. split.
    + destruct l as [|b l]; [exact I|]. apply (H 0%nat a b); reflexivity.
    + intros i p b Hp Hb. apply (H (S i) p b); assumption.
  - intros [Hhd Htl] i p b Hp Hb. destruct i as [|i].
    + cbn [nth_error] in Hp, Hb. injection Hp as <-.
      destruct l as [|b' l]; [discriminate|].
      cbn [nth_error] in Hb. injection Hb as <-. exact Hhd.
    + apply (Htl i p b); assumption.
Qed.

Lemma verify_loop_spec (sha256 : string -> string)
  (blocks : list ModelBlockRow.t) :
  forall previous_block,
    CreditModelVerification.verify_loop sha256 previous_block blocks = true <->
    (Forall (fun b => CreditModelVerification.calculated_hash sha256 b
                      = ModelBlockRow.block_hash b) blocks /\
     linked ModelBlockRow.block_hash ModelBlockRow.previous_hash
       (match previous_block with
        | Some p => p :: blocks
        | None => blocks
        end)).
Proof.
  induction blocks as [|b blocks IH]; intros previous_block.
  - cbn [CreditModelVerification.verify_loop]. split; [|reflexivity].
    intros _. split; [constructor|].
    intros i p b Hp Hb.
    destruct previous_block; destruct i; try destruct i; discriminate.
  - cbn [CreditModelVerification.verify_loop].
    destruct (String.eqb_spec
                (CreditModelVerification.calculated_hash sha256 b)
                (ModelBlockRow.block_hash b)) as [Hhash | Hhash];
      cbn [negb].
    + destruct previous_block as [p|].
      * destruct (String.eqb_spec (ModelBlockRow.previous_hash b)
                    (ModelBlockRow.block_hash p)) as [Hlink | Hlink];
          cbn [negb].
        -- rewrite IH. rewrite (linked_cons_inv _ _ p (b :: blocks)).
           split.
           ++ intros [Hall Hl]. repeat split; auto.
           ++ intros [Hall [_ Hl]]. apply Forall_inv_tail in Hall. auto.
        -- split; [discriminate|]. intros [_ Hl].
           apply linked_cons_inv in Hl as [Hl _]. contradiction.
      * rewrite IH. split.
        -- intros [Hall Hl]. split; auto.
        -- intros [Hall Hl]. apply Forall_inv_tail in Hall. auto.
    + split; [discriminate|]. intros [Hall _].
      apply Forall_inv in Hall. contradiction.
Qed.

(** X12.  [CreditModelBlockchain.verify_blockchain_integrity] returns
    [True] exactly when every block of [model_blockchain] stores the hash
    recomputed from its own columns and every block after the first names
    the hash of the block before it.  The [previous_hash] of the first
    block is not examined. *)
Theorem X12_model_ledger_verification (sha256 : string -> string)
  (self : CreditModelBlockchain.t) (db : database) :
  CreditModelVerification.verify_blockchain_integrity sha256 self db = true <->
  (forall b, In b (model_blockchain db) ->
     CreditModelVerification.calculated_hash sha256 b
     = ModelBlockRow.block_hash b) /\
  (forall i p b,
     nth_error (model_blockchain db) i = Some p ->
     nth_error (model_blockchain db) (S i) = Some b ->
     ModelBlockRow.previous_hash b = ModelBlockRow.block_hash p).
Proof.
  unfold CreditModelVerification.verify_blockchain_integrity.
  rewrite <- Forall_forall.
  destruct (model_blockchain db) as [|b blocks] eqn:Hrows.
  - split; [|reflexivity]. intros _. split; [constructor|].
    intros i p b Hp. destruct i; discriminate.
  - apply (verify_loop_spec sha256 (b :: blocks) None).
Qed.

(* --------------------------------------------------------------------- *)
(** *** A model block added by [add_model_block] *)



Section ModelNeverVerifies.

Variable sha256 : string -> string.

(** A digest function without collisions. *)
Hypothesis sha256_injective : forall x y, sha256 x = sha256 y -> x = y.




End ModelNeverVerifies.




(* ===================================================================== *)
(** ** [DeepLearningCreditModel]: the hash of the model
       ([deep_learning_model.py]) *)
(* ===================================================================== *)

Module DeepLearningCreditModel.

(** The attributes the two methods read: [self.deep_model], absent or a
    network with its [count_params()], [self.blockchain_hash] and
    [self.model_accuracy]. *)
Record t := Make
  { deep_model : option Z; blockchain_hash : option string;
    model_accuracy : Q }.

(** [__init__]. *)
Definition init : t :=
  {| deep_model := None; blockchain_hash := None; model_accuracy := 0 |}.

Section WithDigest.

Variable sha256 : string -> string.




End WithDigest.

End DeepLearningCreditModel.






(* ===================================================================== *)
(** ** [calculate_simple_credit_score] ([simple_blockchain_demo.py]) *)
(* ===================================================================== *)

(** A Python [float] of any kind: a finite binary64, carried by its exact
    rational value, an infinity or a NaN. *)
Module PyFloat.

Inductive t : Type :=
| Finite (q : Q)
| PosInf
| NegInf
| NaN.

(** The binary64 nearest to the positive rational [n / d], ties to even:
    a multiple of [2^-1074] below the normal range, the infinity from
    [2^1024] on. *)
Definition round_pos (n d : Z) : t :=
  let '(m, e) := to_binary64 n d in
  if e <? - 1074 then
    Finite (Qmake (round_half_even (n * 2 ^ 1074) d) (Z.to_pos (2 ^ 1074)))
  else if 971 <? e then PosInf
  else Finite (binary64_value (m, e)).

Definition neg (x : t) : t :=
  match x with
  | Finite q => Finite (Qopp q)
  | PosInf => NegInf
  | NegInf => PosInf
  | NaN => NaN
  end.

Definition of_Q (q : Q) : t :=
  let n := Qnum q in
  let d := Z.pos (Qden q) in
  if n =? 0 then Finite 0
  else if n <? 0 then neg (round_pos (- n) d)
  else round_pos n d.

(** [x < y]; a comparison with a NaN is false. *)
Definition ltb (x y : t) : bool :=
  match x, y with
  | NaN, _ | _, NaN => false
  | _, NegInf => false
  | PosInf, _ => false
  | NegInf, _ => true
  | _, PosInf => true
  | Finite a, Finite b => negb (Qle_bool b a)
  end.

(** [x <= y]. *)
Definition leb (x y : t) : bool :=
  match x, y with
  | NaN, _ | _, NaN => false
  | NegInf, _ => true
  | _, PosInf => true
  | _, NegInf => false
  | PosInf, _ => false
  | Finite a, Finite b => Qle_bool a b
  end.

Definition of_int (n : Z) : t := Finite (inject_Z n).

(** [x / y]; [None] stands for [ZeroDivisionError]. *)
Definition truediv (x y : t) : option t :=
  match y with
  | NaN => Some NaN
  | Finite b =>
      if Qeq_bool b 0 then None
      else
        match x with
        | Finite a => Some (of_Q (a / b))
        | PosInf => Some (if Qle_bool 0 b then PosInf else NegInf)
        | NegInf => Some (if Qle_bool 0 b then NegInf else PosInf)
        | NaN => Some NaN
        end
  | PosInf | NegInf =>
      match x with
      | Finite _ => Some (Finite 0)
      | _ => Some NaN
      end
  end.

(** [x * n] for an [int] [n] above 0. *)
Definition mul_int (x : t) (n : Z) : t :=
  match x with
  | Finite a => of_Q (a * inject_Z n)
  | _ => x
  end.

(** [int(x)]: the integer part; [None] stands for the [OverflowError] of an
    infinity and the [ValueError] of a NaN. *)
Definition to_int (x : t) : option Z :=
  match x with
  | Finite a => Some (Z.quot (Qnum a) (Z.pos (Qden a)))
  | _ => None
  end.

End PyFloat.

(** A number that is an [int] or a finite [float]: what [min] and [max]
    return when one argument is an [int] literal. *)
Inductive number : Type :=
| Int (n : Z)
| Float (x : Q).

Definition number_value (v : number) : Q :=
  match v with
  | Int n => inject_Z n
  | Float x => x
  end.

(** [round(v, 2)]: an [int] is returned as it is; a [float] goes to the
    nearest decimal of two places, ties to even on its exact value, which
    is read back as a [float]. *)
Definition round2 (v : number) : number :=
  match v with
  | Int n => Int n
  | Float x =>
      let n := Qnum x in
      let d := Z.pos (Qden x) in
      let hundredths :=
        if n <? 0 then - round_half_even (- n * 100) d
        else round_half_even (n * 100) d in
      Float (float_of_Q (Qmake hundredths 100))
  end.

(** The dictionary that [calculate_simple_credit_score] returns. *)
Module Prediction.
Record t := Make
  { credit_score : Z; decision : string; risk_category : string;
    max_loan_amount : Z; recommended_interest_rate : number;
    model_confidence : Q; blockchain_verified : bool }.
End Prediction.

(** The three steps of the score. *)
Definition income_factor (monthly_income : PyFloat.t) : Z :=
  if PyFloat.leb (PyFloat.of_int 50000) monthly_income then 150
  else if PyFloat.leb (PyFloat.of_int 25000) monthly_income then 100
  else if PyFloat.leb (PyFloat.of_int 15000) monthly_income then 50
  else 0.

(** [existing_debt / monthly_income if monthly_income > 0 else 1]. *)
Definition debt_ratio (monthly_income existing_debt : PyFloat.t)
  : option PyFloat.t :=
  if PyFloat.ltb (PyFloat.of_int 0) monthly_income
  then PyFloat.truediv existing_debt monthly_income
  else Some (PyFloat.of_int 1).

Definition debt_factor (debt_ratio : PyFloat.t) : Z :=
  if PyFloat.ltb debt_ratio (PyFloat.Finite (float_of_Q (3 # 10))) then 100
  else if PyFloat.ltb debt_ratio (PyFloat.Finite (float_of_Q (6 # 10)))
  then 50
  else - 50.

Definition amount_factor (requested_amount : PyFloat.t) : Z :=
  if PyFloat.leb requested_amount (PyFloat.of_int 50000) then 50
  else if PyFloat.leb requested_amount (PyFloat.of_int 100000) then 25
  else 0.

(** [max(12, min(24, 24 - (score - 300) / 600 * 12))]. *)
Definition interest_rate (score : Z) : number :=
  let x :=
    float_of_Q (24 - float_of_Q (truediv (score - 300) 600 * 12)) in
  let lower := if negb (Qle_bool 24 x) then Float x else Int 24 in
  if negb (Qle_bool (number_value lower) 12) then lower else Int 12.

(** [calculate_simple_credit_score]; [None] stands for the exception of
    [int(max_loan)] on an infinite [max_loan]. *)
Definition calculate_simple_credit_score
  (monthly_income existing_debt requested_amount : PyFloat.t)
  : option Prediction.t :=
  let score := 500 in
  let score := score + income_factor monthly_income in
  match debt_ratio monthly_income existing_debt with
  | None => None
  | Some debt_ratio =>
      let score := score + debt_factor debt_ratio in
      let score := score + amount_factor requested_amount in
      let '(decision, risk_category) :=
        if 700 <=? score then ("Approve", "Excellent")
        else if 600 <=? score then ("Approve", "Good")
        else if 500 <=? score then ("Review", "Fair")
        else ("Reject", "Poor") in
      let product := PyFloat.mul_int monthly_income 10 in
      let max_loan :=
        if PyFloat.ltb product (PyFloat.of_int 125000) then PyFloat.to_int product
        else Some 125000 in
      match max_loan with
      | None => None
      | Some max_loan_amount =>
          Some (Prediction.Make (Z.max 300 (Z.min 900 score)) decision
                  risk_category max_loan_amount
                  (round2 (interest_rate score))
                  (float_of_Q (85 # 100)) true)
      end
  end.

(* --------------------------------------------------------------------- *)
(** *** The score, the decision and the rate *)

(** The score before the clamp of the [return] statement. *)
Definition raw_score (monthly_income debt_ratio requested_amount : PyFloat.t)
  : Z :=
  500 + income_factor monthly_income + debt_factor debt_ratio
  + amount_factor requested_amount.

(** The division is guarded: [debt_ratio] never raises. *)
Lemma debt_ratio_defined (monthly_income existing_debt : PyFloat.t) :
  exists ratio, debt_ratio monthly_income existing_debt = Some ratio.
Proof.
  unfold debt_ratio.
  destruct (PyFloat.ltb (PyFloat.of_int 0) monthly_income) eqn:Hpos;
    [|eexists; reflexivity].
  destruct monthly_income as [b| | |]; try discriminate.
  - cbn [PyFloat.truediv].
    destruct (Qeq_bool b 0) eqn:Hzero.
    + exfalso. cbn [PyFloat.ltb PyFloat.of_int] in Hpos.
      apply Qeq_bool_iff in Hzero.
      apply negb_true_iff in Hpos.
      assert (Hle : Qle_bool b (inject_Z 0) = true).
      { apply Qle_bool_iff. rewrite Hzero. apply Qle_refl. }
      congruence.
    + destruct existing_debt; eexists; reflexivity.
  - destruct existing_debt; eexists; reflexivity.
Qed.

Lemma raw_score_cases (monthly_income ratio requested_amount : PyFloat.t) :
  In (raw_score monthly_income ratio requested_amount)
     [450; 475; 500; 525; 550; 575; 600; 625; 650; 675; 700; 725; 750; 775;
      800].
Proof.
  unfold raw_score, income_factor, debt_factor, amount_factor.
  repeat match goal with
         | |- context [if ?b then _ else _] => destruct b
         end;
    cbn; tauto.
Qed.

(** What the function returns, in terms of the score. *)
Lemma calculate_simple_credit_score_result
  (monthly_income existing_debt requested_amount : PyFloat.t)
  (r : Prediction.t) :
  calculate_simple_credit_score monthly_income existing_debt requested_amount
  = Some r ->
  exists ratio,
    debt_ratio monthly_income existing_debt = Some ratio /\
    let score := raw_score monthly_income ratio requested_amount in
    Prediction.credit_score r = Z.max 300 (Z.min 900 score) /\
    (Prediction.decision r, Prediction.risk_category r)
    = (if 700 <=? score then ("Approve", "Excellent")
       else if 600 <=? score then ("Approve", "Good")
       else if 500 <=? score then ("Review", "Fair")
       else ("Reject", "Poor")) /\
    Prediction.recommended_interest_rate r = round2 (interest_rate score) /\
    (if PyFloat.ltb (PyFloat.mul_int monthly_income 10)
          (PyFloat.of_int 125000)
     then PyFloat.to_int (PyFloat.mul_int monthly_income 10)
     else Some 125000) = Some (Prediction.max_loan_amount r).
Proof.
  unfold calculate_simple_credit_score.
  destruct (debt_ratio monthly_income existing_debt) as [ratio|];
    [|discriminate].
  fold (raw_score monthly_income ratio requested_amount).
  remember (raw_score monthly_income ratio requested_amount) as score
    eqn:Hscore.
  destruct (if 700 <=? score then _ else _) as [decision risk_category] eqn:Hd.
  destruct (if PyFloat.ltb _ _ then _ else _) as [max_loan_amount|] eqn:Hm;
    [|discriminate].
  intros H. injection H as <-. exists ratio.
  cbn [Prediction.credit_score Prediction.decision Prediction.risk_category
       Prediction.recommended_interest_rate Prediction.max_loan_amount].
  rewrite <- Hscore. repeat split; try reflexivity. symmetry. exact Hd.
Qed.

(** X15.  Whatever the three amounts are, infinities and NaN included, the
    score that [calculate_simple_credit_score] returns is one of the
    multiples of 25 from 450 to 800: the clamp to [300 .. 900] of the
    [return] statement never changes it.  The decision and the category
    follow the thresholds 700, 600 and 500 of that score. *)
Theorem X15_simple_score_range
  (monthly_income existing_debt requested_amount : PyFloat.t)
  (r : Prediction.t) :
  calculate_simple_credit_score monthly_income existing_debt requested_amount
  = Some r ->
  450 <= Prediction.credit_score r <= 800 /\
  Prediction.credit_score r mod 25 = 0 /\
  (exists ratio,
     debt_ratio monthly_income existing_debt = Some ratio /\
     Prediction.credit_score r
     = 500 + income_factor monthly_income + debt_factor ratio
       + amount_factor requested_amount) /\
  (700 <= Prediction.credit_score r ->
   Prediction.decision r = "Approve" /\
   Prediction.risk_category r = "Excellent") /\
  (600 <= Prediction.credit_score r < 700 ->
   Prediction.decision r = "Approve" /\ Prediction.risk_category r = "Good") /\
  (500 <= Prediction.credit_score r < 600 ->
   Prediction.decision r = "Review" /\ Prediction.risk_category r = "Fair") /\
  (Prediction.credit_score r < 500 ->
   Prediction.decision r = "Reject" /\ Prediction.risk_category r = "Poor").
Proof.
  intros H.
  apply calculate_simple_credit_score_result in H
    as (ratio & Hratio & Hscore & Hdecision & _ & _).
  pose proof (raw_score_cases monthly_income ratio requested_amount) as Hcases.
  assert (Hraw : Prediction.credit_score r
                 = raw_score monthly_income ratio requested_amount).
  { rewrite Hscore. cbn [In] in Hcases. lia. }
  rewrite <- Hraw in Hdecision, Hcases.
  split; [cbn [In] in Hcases; lia|].
  split.
  { cbn [In] in Hcases.
    repeat (destruct Hcases as [<- | Hcases]; [reflexivity|]).
    destruct Hcases. }
  split; [exists ratio; split; [exact Hratio | exact Hraw]|].
  assert (Hpair : forall a b c d : string, (a, b) = (c, d) -> a = c /\ b = d).
  { intros a b c d Heq. injection Heq as -> ->. split; reflexivity. }
  split; [|split; [|split]]; intros Hrange;
    destruct (Z.leb_spec 700 (Prediction.credit_score r));
    destruct (Z.leb_spec 600 (Prediction.credit_score r));
    destruct (Z.leb_spec 500 (Prediction.credit_score r));
    try lia; apply Hpair in Hdecision; tauto.
Qed.

(** An applicant with an income of 30000, a debt of 6000 and a request of
    200000. *)
Definition sample_prediction : Prediction.t :=
  match
    calculate_simple_credit_score (PyFloat.of_int 30000) (PyFloat.of_int 6000)
      (PyFloat.of_int 200000)
  with
  | Some r => r
  | None => Prediction.Make 0 EmptyString EmptyString 0 (Int 0) 0 false
  end.

Lemma X15_witness :
  let r := sample_prediction in
  450 <= Prediction.credit_score r <= 800 /\
  Prediction.credit_score r mod 25 = 0 /\
  (exists ratio,
     debt_ratio (PyFloat.of_int 30000) (PyFloat.of_int 6000) = Some ratio /\
     Prediction.credit_score r
     = 500 + income_factor (PyFloat.of_int 30000) + debt_factor ratio
       + amount_factor (PyFloat.of_int 200000)) /\
  (700 <= Prediction.credit_score r ->
   Prediction.decision r = "Approve" /\
   Prediction.risk_category r = "Excellent") /\
  (600 <= Prediction.credit_score r < 700 ->
   Prediction.decision r = "Approve" /\ Prediction.risk_category r = "Good") /\
  (500 <= Prediction.credit_score r < 600 ->
   Prediction.decision r = "Review" /\ Prediction.risk_category r = "Fair") /\
  (Prediction.credit_score r < 500 ->
   Prediction.decision r = "Reject" /\ Prediction.risk_category r = "Poor").
Proof.
  apply (X15_simple_score_range (PyFloat.of_int 30000) (PyFloat.of_int 6000)
           (PyFloat.of_int 200000)).
  vm_compute. reflexivity.
Defined.

Lemma interest_rate_cases (score : Z) :
  In score [450; 475; 500; 525; 550; 575; 600; 625; 650; 675; 700; 725; 750;
            775; 800] ->
  exists x,
    round2 (interest_rate score) = Float x /\
    (x == (1500 - score) # 50)%Q /\
    Qle_bool 14 x = true /\ Qle_bool x 21 = true.
Proof.
  intros Hin. cbn [In] in Hin.
  repeat (destruct Hin as [<- | Hin];
          [eexists; split; [vm_compute; reflexivity|];
           repeat split; vm_compute; reflexivity|]).
  destruct Hin.
Qed.

Lemma to_int_below (x : PyFloat.t) (bound m : Z) :
  0 <= bound ->
  PyFloat.ltb x (PyFloat.of_int bound) = true ->
  PyFloat.to_int x = Some m ->
  m <= bound.
Proof.
  intros Hbound Hlt Hint.
  destruct x as [a| | |]; try discriminate.
  cbn [PyFloat.to_int] in Hint. injection Hint as <-.
  cbn [PyFloat.ltb PyFloat.of_int] in Hlt.
  apply negb_true_iff in Hlt.
  assert (Hnum : Qnum a < bound * Z.pos (Qden a)).
  { destruct (Z.lt_ge_cases (Qnum a) (bound * Z.pos (Qden a))) as [|Hge];
      auto.
    assert (Hle : Qle_bool (inject_Z bound) a = true).
    { apply Qle_bool_iff. unfold Qle, inject_Z. cbn [Qnum Qden]. lia. }
    congruence. }
  destruct (Z.lt_ge_cases (Qnum a) 0) as [Hneg | Hpos].
  - pose proof (Z.quot_pos (- Qnum a) (Z.pos (Qden a))) as Hq.
    rewrite Z.quot_opp_l in Hq by lia. lia.
  - rewrite Z.quot_div_nonneg by lia.
    apply Z.lt_le_incl. apply Z.div_lt_upper_bound; lia.
Qed.

(** X16.  The recommended interest rate is always a [float], never the
    [int] bound of the clamp to [12 .. 24]: it is 24 - (score - 300) / 50
    exactly, hence between 14 and 21, and it falls by one half for every
    25 points of score.  The loan ceiling [max_loan_amount] never exceeds
    125000. *)
Theorem X16_simple_rate_and_ceiling
  (monthly_income existing_debt requested_amount : PyFloat.t)
  (r : Prediction.t) :
  calculate_simple_credit_score monthly_income existing_debt requested_amount
  = Some r ->
  (exists x,
     Prediction.recommended_interest_rate r = Float x /\
     (x == (1500 - Prediction.credit_score r) # 50)%Q /\
     (14 <= x)%Q /\ (x <= 21)%Q) /\
  Prediction.max_loan_amount r <= 125000.
Proof.
  intros H.
  apply calculate_simple_credit_score_result in H
    as (ratio & Hratio & Hscore & _ & Hrate & Hloan).
  pose proof (raw_score_cases monthly_income ratio requested_amount) as Hcases.
  assert (Hraw : Prediction.credit_score r
                 = raw_score monthly_income ratio requested_amount).
  { rewrite Hscore. cbn [In] in Hcases. lia. }
  rewrite <- Hraw in Hrate, Hcases.
  split.
  - destruct (interest_rate_cases _ Hcases) as (x & Hx & Heq & Hlo & Hhi).
    exists x. rewrite Hrate.
    apply Qle_bool_iff in Hlo, Hhi. auto.
  - destruct (PyFloat.ltb (PyFloat.mul_int monthly_income 10)
                (PyFloat.of_int 125000)) eqn:Hlt.
    + apply (to_int_below _ 125000 _ ltac:(lia) Hlt Hloan).
    + injection Hloan as <-. lia.
Qed.

Lemma sample_prediction_returned :
  calculate_simple_credit_score (PyFloat.of_int 30000) (PyFloat.of_int 6000)
    (PyFloat.of_int 200000) = Some sample_prediction.
Proof.
  vm_compute. reflexivity.
Qed.

Lemma X16_witness :
  (exists x,
     Prediction.recommended_interest_rate sample_prediction = Float x /\
     (x == (1500 - Prediction.credit_score sample_prediction) # 50)%Q /\
     (14 <= x)%Q /\ (x <= 21)%Q) /\
  Prediction.max_loan_amount sample_prediction <= 125000.
Proof.
  apply (X16_simple_rate_and_ceiling (PyFloat.of_int 30000)
           (PyFloat.of_int 6000) (PyFloat.of_int 200000)).
  vm_compute. reflexivity.
Defined.

(* --------------------------------------------------------------------- *)
(** *** When the function raises *)

Lemma round_pos_not_neg (n d : Z) : PyFloat.round_pos n d <> PyFloat.NegInf.
Proof.
  unfold PyFloat.round_pos. destruct (to_binary64 n d) as [m e].
  destruct (e <? - 1074); [discriminate|].
  destruct (971 <? e); discriminate.
Qed.

(** X17.  [calculate_simple_credit_score] raises in one case only: when
    [monthly_income * 10] is minus infinity, on which [int] fails.  The
    division by the income never raises, and a NaN, an infinite debt or an
    infinite request are answered with a prediction.  In particular every
    income that is zero or more, plus infinity and NaN included, gets a
    prediction. *)
Theorem X17_simple_score_raises
  (monthly_income existing_debt requested_amount : PyFloat.t) :
  (calculate_simple_credit_score monthly_income existing_debt
     requested_amount = None <->
   PyFloat.mul_int monthly_income 10 = PyFloat.NegInf) /\
  (PyFloat.ltb monthly_income (PyFloat.of_int 0) = false ->
   calculate_simple_credit_score monthly_income existing_debt
     requested_amount <> None).
Proof.
  assert (Hiff :
    calculate_simple_credit_score monthly_income existing_debt
      requested_amount = None <->
    PyFloat.mul_int monthly_income 10 = PyFloat.NegInf).
  { unfold calculate_simple_credit_score.
    destruct (debt_ratio_defined monthly_income existing_debt)
      as (ratio & ->).
    destruct (if 700 <=? _ then _ else _) as [decision risk_category].
    destruct (PyFloat.mul_int monthly_income 10) as [a| | |];
      cbn [PyFloat.ltb PyFloat.of_int PyFloat.to_int].
    - destruct (negb _); split; discriminate.
    - split; discriminate.
    - split; reflexivity.
    - split; discriminate. }
  split; [exact Hiff|].
  intros Hsign Hnone. apply Hiff in Hnone.
  destruct monthly_income as [a| | |]; try discriminate.
  cbn [PyFloat.mul_int] in Hnone. unfold PyFloat.of_Q in Hnone.
  cbn [PyFloat.ltb PyFloat.of_int] in Hsign.
  apply negb_false_iff, Qle_bool_iff in Hsign.
  unfold Qle, inject_Z in Hsign. cbn [Qnum Qden] in Hsign.
  assert (Hnum : 0 <= Qnum (a * inject_Z 10)).
  { unfold Qmult, inject_Z. cbn [Qnum Qden]. lia. }
  destruct (Qnum (a * inject_Z 10) =? 0); [discriminate|].
  destruct (Z.ltb_spec (Qnum (a * inject_Z 10)) 0); [lia|].
  exact (round_pos_not_neg _ _ Hnone).
Qed.

(* --------------------------------------------------------------------- *)
(** *** The rejected applications *)

Lemma leb_of_int_le (a b : Z) (x : PyFloat.t) :
  a <= b ->
  PyFloat.leb (PyFloat.of_int b) x = true ->
  PyFloat.leb (PyFloat.of_int a) x = true.
Proof.
  intros Hab. destruct x as [q| | |]; auto.
  cbn [PyFloat.leb PyFloat.of_int]. rewrite !Qle_bool_iff.
  intros H. apply (Qle_trans _ (inject_Z b)); auto.
  rewrite <- Zle_Qle. exact Hab.
Qed.

Lemma ltb_finite_le (x : PyFloat.t) (a b : Q) :
  Qle_bool a b = true ->
  PyFloat.ltb x (PyFloat.Finite a) = true ->
  PyFloat.ltb x (PyFloat.Finite b) = true.
Proof.
  intros Hab. destruct x as [q| | |]; auto.
  cbn [PyFloat.ltb]. rewrite !negb_true_iff.
  intros H. destruct (Qle_bool b q) eqn:Hbq; auto.
  apply Qle_bool_iff in Hab, Hbq.
  assert (Haq : Qle_bool a q = true).
  { apply Qle_bool_iff. apply (Qle_trans _ b); auto. }
  congruence.
Qed.

(** X18.  An application is rejected in one case only: the income does not
    reach 15000, the debt ratio is not below 0.6 (which includes every
    income of zero or less, where the ratio is taken as 1), and the amount
    requested is above 50000 or no number at all. *)
Theorem X18_simple_reject
  (monthly_income existing_debt requested_amount : PyFloat.t)
  (r : Prediction.t) :
  calculate_simple_credit_score monthly_income existing_debt requested_amount
  = Some r ->
  (Prediction.decision r = "Reject" <->
   PyFloat.leb (PyFloat.of_int 15000) monthly_income = false /\
   PyFloat.leb requested_amount (PyFloat.of_int 50000) = false /\
   exists ratio,
     debt_ratio monthly_income existing_debt = Some ratio /\
     PyFloat.ltb ratio (PyFloat.Finite (float_of_Q (6 # 10))) = false).
Proof.
  intros H.
  apply calculate_simple_credit_score_result in H
    as (ratio & Hratio & _ & Hdecision & _ & _).
  assert (Hd : Prediction.decision r
               = fst (if 700 <=? raw_score monthly_income ratio requested_amount
                      then ("Approve", "Excellent")
                      else if 600 <=? raw_score monthly_income ratio
                                        requested_amount
                      then ("Approve", "Good")
                      else if 500 <=? raw_score monthly_income ratio
                                        requested_amount
                      then ("Review", "Fair")
                      else ("Reject", "Poor"))).
  { rewrite <- Hdecision. reflexivity. }
  rewrite Hd. clear Hd Hdecision.
  pose proof (leb_of_int_le 15000 25000 monthly_income ltac:(lia)) as H25.
  pose proof (leb_of_int_le 15000 50000 monthly_income ltac:(lia)) as H50.
  pose proof (ltb_finite_le ratio (float_of_Q (3 # 10)) (float_of_Q (6 # 10))
                eq_refl) as H36.
  rewrite Hratio.
  unfold raw_score, income_factor, debt_factor, amount_factor.
  destruct (PyFloat.leb (PyFloat.of_int 50000) monthly_income) eqn:E50;
    destruct (PyFloat.leb (PyFloat.of_int 25000) monthly_income) eqn:E25;
    destruct (PyFloat.leb (PyFloat.of_int 15000) monthly_income) eqn:E15;
    try discriminate (H50 eq_refl); try discriminate (H25 eq_refl);
    destruct (PyFloat.ltb ratio (PyFloat.Finite (float_of_Q (3 # 10))))
      eqn:E3;
    destruct (PyFloat.ltb ratio (PyFloat.Finite (float_of_Q (6 # 10))))
      eqn:E6;
    try discriminate (H36 eq_refl);
    destruct (PyFloat.leb requested_amount (PyFloat.of_int 50000));
    destruct (PyFloat.leb requested_amount (PyFloat.of_int 100000));
    cbn -[float_of_Q];
    (split;
     [ intros Hrej;
       first
         [ discriminate Hrej
         | split;
           [ reflexivity
           | split;
             [ reflexivity
             | exists ratio; split; [reflexivity | exact E6] ] ] ]
     | intros (Hi & Ha & ratio' & Hr' & Hlt);
       first
         [ discriminate Hi
         | discriminate Ha
         | injection Hr' as <-; first [congruence | reflexivity] ] ]).
Qed.

(** An applicant with an income of 12000, a debt of 9000 and a request of
    80000. *)
Definition rejected_prediction : Prediction.t :=
  match
    calculate_simple_credit_score (PyFloat.of_int 12000) (PyFloat.of_int 9000)
      (PyFloat.of_int 80000)
  with
  | Some r => r
  | None => Prediction.Make 0 EmptyString EmptyString 0 (Int 0) 0 false
  end.

Lemma X18_witness :
  Prediction.decision rejected_prediction = "Reject" <->
  PyFloat.leb (PyFloat.of_int 15000) (PyFloat.of_int 12000) = false /\
  PyFloat.leb (PyFloat.of_int 80000) (PyFloat.of_int 50000) = false /\
  exists ratio,
    debt_ratio (PyFloat.of_int 12000) (PyFloat.of_int 9000) = Some ratio /\
    PyFloat.ltb ratio (PyFloat.Finite (float_of_Q (6 # 10))) = false.
Proof.
  apply (X18_simple_reject (PyFloat.of_int 12000) (PyFloat.of_int 9000)
           (PyFloat.of_int 80000)).
  vm_compute. reflexivity.
Defined.

(* ===================================================================== *)
(** ** The ledger and the endpoint of [simple_blockchain_demo.py] *)
(* ===================================================================== *)


(** The row of a successful [add_credit_block]. *)
Lemma add_credit_block_row (sha256 : string -> string)
  self rows c user_id credit_score prediction_data h rows' :
  SimpleBlockchain.add_credit_block sha256 self rows c user_id credit_score
    prediction_data = Some (h, rows') ->
  sqlite_integer user_id = true /\
  ~ In h (map CreditBlockRow.block_hash rows) /\
  rows'
  = (rows
     ++ [CreditBlockRow.Make (next_id CreditBlockRow.id rows) h
           match fetch_last rows with
           | Some tip => CreditBlockRow.block_hash tip
           | None => str_mul "0" 64
           end
           user_id credit_score (json_dumps_unsorted prediction_data)
           (current_timestamp (sql_now c)) 1])%list.
Proof.
  unfold SimpleBlockchain.add_credit_block.
  destruct (existsb _ _) eqn:Hex; [discriminate|].
  destruct (sqlite_integer user_id); [|discriminate].
  destruct (sqlite_integer credit_score); [|discriminate].
  cbn [orb andb negb]. intros H.
  apply some_pair_inj in H as [Hh Hrows].
  split; [reflexivity|]. split.
  - rewrite <- Hh. apply unique_hash. exact Hex.
  - rewrite <- Hrows, <- Hh. reflexivity.
Qed.


(* --------------------------------------------------------------------- *)
(** *** [enhanced_prediction] *)

(** The request body [CreditScoreRequest]. *)
Module CreditScoreRequest.
Record t := Make
  { user_id : Z; monthly_income : PyFloat.t; existing_debt : PyFloat.t;
    requested_amount : PyFloat.t }.
End CreditScoreRequest.

(** The dictionary [prediction] as a JSON value, its keys in the order of
    the [return] statement. *)
Definition prediction_dict (p : Prediction.t) : json :=
  JDict [ ("credit_score", JInt (Prediction.credit_score p));
          ("decision", JStr (Prediction.decision p));
          ("risk_category", JStr (Prediction.risk_category p));
          ("max_loan_amount", JInt (Prediction.max_loan_amount p));
          ("recommended_interest_rate",
           match Prediction.recommended_interest_rate p with
           | Int n => JInt n
           | Float x => JFloat x
           end);
          ("model_confidence", JFloat (Prediction.model_confidence p));
          ("blockchain_verified", JBool (Prediction.blockchain_verified p)) ].

(** The answer of the endpoint; [blockchain_hash] is the key that the
    endpoint adds to [prediction] after the block is stored. *)
Module PredictionResponse.
Record t := Make
  { success : bool; prediction : Prediction.t; blockchain_hash : string;
    model_accuracy : Q; blockchain_verified : bool }.
End PredictionResponse.

(** [enhanced_prediction] on the module's [blockchain] object; [None]
    stands for the [HTTPException] of status 500 into which every exception
    is turned, the table being left as it was. *)
Definition enhanced_prediction (sha256 : string -> string)
  (blockchain : SimpleBlockchain.t) (rows : SimpleBlockchain.credit_blocks)
  (c : clock) (request : CreditScoreRequest.t)
  : option (PredictionResponse.t * SimpleBlockchain.credit_blocks) :=
  match
    calculate_simple_credit_score (CreditScoreRequest.monthly_income request)
      (CreditScoreRequest.existing_debt request)
      (CreditScoreRequest.requested_amount request)
  with
  | None => None
  | Some prediction =>
      match
        SimpleBlockchain.add_credit_block sha256 blockchain rows c
          (CreditScoreRequest.user_id request)
          (Prediction.credit_score prediction) (prediction_dict prediction)
      with
      | None => None
      | Some (block_hash, rows') =>
          Some (PredictionResponse.Make true prediction block_hash
                  (float_of_Q (85 # 100)) true,
                rows')
      end
  end.

(** X20.  A request answered by [enhanced_prediction] leaves exactly one
    new block in [credit_blocks].  That block belongs to the user of the
    request, carries the hash that the answer reports in
    [blockchain_hash] and the score of the answer, which lies between 450
    and 800, and its [prediction_data] is the JSON text of the prediction
    as it was before the hash was added to it. *)
Theorem X20_enhanced_prediction_block (sha256 : string -> string)
  (blockchain : SimpleBlockchain.t) (rows rows' : SimpleBlockchain.credit_blocks)
  (c : clock) (request : CreditScoreRequest.t)
  (response : PredictionResponse.t) :
  enhanced_prediction sha256 blockchain rows c request
  = Some (response, rows') ->
  exists row,
    rows' = (rows ++ [row])%list /\
    CreditBlockRow.user_id row = CreditScoreRequest.user_id request /\
    CreditBlockRow.block_hash row = PredictionResponse.blockchain_hash response /\
    ~ In (CreditBlockRow.block_hash row) (map CreditBlockRow.block_hash rows) /\
    CreditBlockRow.credit_score row
    = Prediction.credit_score (PredictionResponse.prediction response) /\
    450 <= CreditBlockRow.credit_score row <= 800 /\
    CreditBlockRow.prediction_data row
    = json_dumps_unsorted
        (prediction_dict (PredictionResponse.prediction response)) /\
    calculate_simple_credit_score (CreditScoreRequest.monthly_income request)
      (CreditScoreRequest.existing_debt request)
      (CreditScoreRequest.requested_amount request)
    = Some (PredictionResponse.prediction response).
Proof.
  unfold enhanced_prediction.
  destruct (calculate_simple_credit_score _ _ _) as [prediction|] eqn:Hcalc;
    [|discriminate].
  destruct (SimpleBlockchain.add_credit_block _ _ _ _ _ _ _)
    as [[block_hash rows1]|] eqn:Hadd; [|discriminate].
  intros H. apply some_pair_inj in H as [<- <-].
  apply add_credit_block_row in Hadd as (_ & Hnew & ->).
  eexists. split; [reflexivity|].
  cbn [CreditBlockRow.user_id CreditBlockRow.block_hash
       CreditBlockRow.credit_score CreditBlockRow.prediction_data
       PredictionResponse.blockchain_hash PredictionResponse.prediction].
  repeat split; auto.
  - apply calculate_simple_credit_score_result in Hcalc
      as (ratio & _ & Hscore & _).
    pose proof (raw_score_cases (CreditScoreRequest.monthly_income request)
                  ratio (CreditScoreRequest.requested_amount request)) as Hc.
    rewrite Hscore. cbn [In] in Hc. lia.
  - apply calculate_simple_credit_score_result in Hcalc
      as (ratio & _ & Hscore & _).
    pose proof (raw_score_cases (CreditScoreRequest.monthly_income request)
                  ratio (CreditScoreRequest.requested_amount request)) as Hc.
    rewrite Hscore. cbn [In] in Hc. lia.
Qed.

(** The request of user 7 with an income of 30000, a debt of 6000 and a
    request of 200000, on a new table. *)
Definition demo_request : CreditScoreRequest.t :=
  CreditScoreRequest.Make 7 (PyFloat.of_int 30000) (PyFloat.of_int 6000)
    (PyFloat.of_int 200000).

Definition demo_response : PredictionResponse.t :=
  match
    enhanced_prediction sha256_hexdigest SimpleBlockchain.init [] clock0
      demo_request
  with
  | Some (response, _) => response
  | None =>
      PredictionResponse.Make false sample_prediction EmptyString 0 false
  end.

Definition demo_blocks : SimpleBlockchain.credit_blocks :=
  match
    enhanced_prediction sha256_hexdigest SimpleBlockchain.init [] clock0
      demo_request
  with
  | Some (_, rows) => rows
  | None => []
  end.

Lemma demo_blocks_rows :
  demo_blocks
  = [ CreditBlockRow.Make 1
        "1675eeb5e3fc4f7036b820a4740a098bb3c6b0636214f9534ce1a92f828d62ee"
        "0000000000000000000000000000000000000000000000000000000000000000"
        7 700
        (json_dumps_unsorted (prediction_dict sample_prediction))
        "2024-01-15 05:00:00" 1 ] /\
  sha256_hexdigest (json_dumps_unsorted (prediction_dict sample_prediction))
  = "6982476b14ad843d5b2b1fc3364daa72e9e22ddbab831a1a6af715013dbc935c".
Proof.
  split; vm_compute; reflexivity.
Qed.


Lemma X20_witness :
  exists row,
    demo_blocks = ([] ++ [row])%list /\
    CreditBlockRow.user_id row = CreditScoreRequest.user_id demo_request /\
    CreditBlockRow.block_hash row
    = PredictionResponse.blockchain_hash demo_response /\
    ~ In (CreditBlockRow.block_hash row) (map CreditBlockRow.block_hash []) /\
    CreditBlockRow.credit_score row
    = Prediction.credit_score (PredictionResponse.prediction demo_response) /\
    450 <= CreditBlockRow.credit_score row <= 800 /\
    CreditBlockRow.prediction_data row
    = json_dumps_unsorted
        (prediction_dict (PredictionResponse.prediction demo_response)) /\
    calculate_simple_credit_score
      (CreditScoreRequest.monthly_income demo_request)
      (CreditScoreRequest.existing_debt demo_request)
      (CreditScoreRequest.requested_amount demo_request)
    = Some (PredictionResponse.prediction demo_response).
Proof.
  apply (X20_enhanced_prediction_block sha256_hexdigest SimpleBlockchain.init
           [] demo_blocks clock0 demo_request demo_response).
  vm_compute. reflexivity.
Defined.

(* ===================================================================== *)
(** ** When a verification answers [valid] *)
(* ===================================================================== *)

Lemma round_half_even_le (n d : Z) : round_half_even n d <= n / d + 1.
Proof.
  unfold round_half_even.
  destruct (2 * (n mod d) ?= d); [destruct (Z.even (n / d))| |]; lia.
Qed.

Lemma round_half_even_nonneg (n d : Z) :
  0 <= n -> 0 < d -> 0 <= round_half_even n d.
Proof.
  intros Hn Hd. unfold round_half_even.
  pose proof (Z.div_pos n d Hn Hd).
  destruct (2 * (n mod d) ?= d); [destruct (Z.even (n / d))| |]; lia.
Qed.

(** The binary64 nearest to a proper fraction [n / d] with [d] below
    [2^53] is below 1. *)
Lemma to_binary64_proper_fraction (n d : Z) :
  0 < n < d -> d < 2 ^ 53 ->
  snd (to_binary64 n d) < 0 /\
  0 <= fst (to_binary64 n d) < 2 ^ (- snd (to_binary64 n d)).
Proof.
  intros Hn Hd.
  assert (Hform : exists e m,
    to_binary64 n d = (if m =? 2 ^ 53 then (2 ^ 52, e + 1) else (m, e)) /\
    e <= - 53 /\ 0 <= m < 2 ^ (- e)).
  { unfold to_binary64.
    assert (Hlog : Z.log2 n <= Z.log2 d) by (apply Z.log2_le_mono; lia).
    set (e1 := Z.log2 n - Z.log2 d - 52).
    assert (He1 : e1 <= - 52) by (unfold e1; lia).
    unfold scale at 1.
    rewrite (proj2 (Z.leb_gt 0 e1)) by lia. cbv beta iota.
    set (e := if n * 2 ^ (- e1) / d <? 2 ^ 52 then e1 - 1 else e1).
    assert (He : e <= - 53).
    { unfold e.
      destruct (Z.ltb_spec (n * 2 ^ (- e1) / d) (2 ^ 52)) as [|Hge]; [lia|].
      destruct (Z.eq_dec e1 (- 52)) as [Heq|]; [|lia].
      exfalso. rewrite Heq in Hge. change (- - 52) with 52 in Hge.
      assert (n * 2 ^ 52 / d < 2 ^ 52); [|lia].
      apply Z.div_lt_upper_bound; [lia|]. nia. }
    unfold scale.
    rewrite (proj2 (Z.leb_gt 0 e)) by lia. cbv beta iota.
    exists e, (round_half_even (n * 2 ^ (- e)) d).
    split; [reflexivity|]. split; [exact He|].
    set (P := 2 ^ (- e)).
    assert (HP : 2 ^ 53 <= P).
    { unfold P. apply Z.pow_le_mono_r; lia. }
    assert (Hfloor : n * P / d <= P - 2).
    { assert (n * P / d < P - 1); [|lia].
      apply Z.div_lt_upper_bound; [lia|]. nia. }
    pose proof (round_half_even_le (n * P) d) as Hle.
    pose proof (round_half_even_nonneg (n * P) d ltac:(nia) ltac:(lia)) as Hge.
    lia. }
  destruct Hform as (e & m & -> & He & Hm0 & Hm).
  destruct (Z.eqb_spec m (2 ^ 53)) as [Heq | _]; cbn [fst snd].
  - assert (He' : e <= - 54).
    { destruct (Z.eq_dec e (- 53)) as [E|]; [|lia].
      exfalso. rewrite E in Hm. change (- - 53) with 53 in Hm. lia. }
    split; [lia|]. split; [apply Z.pow_nonneg; lia|].
    apply Z.pow_lt_mono_r; lia.
  - lia.
Qed.

(** On counts below [2^53], the score is 1.0 only when all the blocks are
    counted. *)
Lemma truediv_one (v t : Z) :
  0 <= v <= t -> 0 < t < 2 ^ 53 ->
  Qeq_bool (truediv v t) 1 = true <-> v = t.
Proof.
  intros Hv Ht. split.
  - intros Hone.
    destruct (Z.eq_dec v t) as [|Hne]; [assumption|]. exfalso.
    revert Hone. unfold truediv, float_of_Q. cbn [Qnum Qden].
    rewrite Z2Pos.id by lia.
    destruct (Z.eqb_spec v 0) as [|Hpos]; [discriminate|].
    destruct (Z.ltb_spec v 0) as [|_]; [lia|].
    destruct (to_binary64_proper_fraction v t ltac:(lia) ltac:(lia))
      as (He & Hm0 & Hm).
    destruct (to_binary64 v t) as [m e]. cbn [fst snd] in He, Hm0, Hm.
    unfold binary64_value, binary64_frac. cbn [fst snd].
    destruct (Z.leb_spec 0 e) as [|_]; [lia|].
    unfold Qeq_bool. cbn [Qnum Qden].
    assert (Hpow : 0 < 2 ^ (- e)) by (apply Z.pow_pos_nonneg; lia).
    rewrite Z2Pos.id by exact Hpow.
    intros Heq. apply Z.eqb_eq in Heq. lia.
  - intros ->. rewrite truediv_self by lia. reflexivity.
Qed.

Section ValidAnswer.

Variable sha256 : string -> string.
Variable self : CreditBlockchain.t.
Variable blockchain_type : string.

(** No block but the last one breaks the chain. *)
Fixpoint unbroken (previous_block : option block) (blocks : list block)
  : Prop :=
  match blocks with
  | [] => True
  | b :: rest =>
      (CreditBlockchain.link_broken blockchain_type previous_block b = true ->
       rest = []) /\
      unbroken (Some b) rest
  end.

Lemma scan_le (blocks : list block) :
  forall prev v e,
    (fst (CreditBlockchain.scan sha256 self blockchain_type prev blocks v e)
     <= v + List.length blocks)%nat.
Proof.
  induction blocks as [|b rest IH]; intros prev v e;
    cbn [CreditBlockchain.scan List.length fst]; [lia|].
  destruct (CreditBlockchain._verify_single_block sha256 self b
              blockchain_type);
    destruct (CreditBlockchain.link_broken blockchain_type prev b);
    cbn [fst]; try lia.
  - specialize (IH (Some b) (S v) (S e)). lia.
  - specialize (IH (Some b) v (S e)). lia.
Qed.

Lemma scan_all (blocks : list block) :
  forall prev v e,
    fst (CreditBlockchain.scan sha256 self blockchain_type prev blocks v e)
    = (v + List.length blocks)%nat <->
    Forall (fun b => CreditBlockchain._verify_single_block sha256 self b
                       blockchain_type = true) blocks /\
    unbroken prev blocks.
Proof.
  induction blocks as [|b rest IH]; intros prev v e.
  - cbn [CreditBlockchain.scan List.length fst unbroken].
    split; [intros _; split; [constructor | exact I] | intros _; lia].
  - cbn [CreditBlockchain.scan List.length unbroken].
    destruct (CreditBlockchain._verify_single_block sha256 self b
                blockchain_type) eqn:Hb;
      destruct (CreditBlockchain.link_broken blockchain_type prev b) eqn:Hl;
      cbn [fst].
    + split.
      * intros Hlen. assert (Hrest : rest = []).
        { destruct rest; [reflexivity | cbn [List.length] in Hlen; lia]. }
        subst rest. repeat split; auto; repeat constructor; auto.
      * intros (_ & Hlast & _). rewrite (Hlast eq_refl). cbn. lia.
    + rewrite Nat.add_succ_r, <- Nat.add_succ_l, IH. split.
      * intros [Hall Hun]. repeat split; auto. discriminate.
      * intros (Hall & _ & Hun). apply Forall_inv_tail in Hall. auto.
    + split.
      * intros Hlen. lia.
      * intros (Hall & _). apply Forall_inv in Hall. congruence.
    + split.
      * intros Hlen.
        pose proof (scan_le rest (Some b) v (S e)). lia.
      * intros (Hall & _). apply Forall_inv in Hall. congruence.
Qed.

End ValidAnswer.

Lemma unbroken_spec (blockchain_type : string) (blocks : list block) :
  blockchain_type = "credit_score" \/ blockchain_type = "transaction" ->
  forall prev,
    unbroken blockchain_type prev blocks <->
    (forall pre q b post,
        (match prev with Some p => [p] | None => [] end ++ blocks)%list
        = (pre ++ q :: b :: post)%list ->
        post <> [] ->
        previous_hash_of b = block_hash_of q).
Proof.
  intros Hkind.
  assert (Hbroken : forall p b,
    CreditBlockchain.link_broken blockchain_type (Some p) b = true <->
    previous_hash_of b <> block_hash_of p).
  { intros p b. rewrite link_broken_checked.
    - rewrite negb_true_iff. apply String.eqb_neq.
    - unfold link_checked. destruct Hkind as [-> | ->]; reflexivity. }
  induction blocks as [|b rest IH]; intros prev.
  - cbn [unbroken]. split; [|intros _; exact I].
    intros _ pre q b post Heq Hpost. exfalso.
    apply (f_equal (@List.length block)) in Heq.
    rewrite !List.length_app in Heq. cbn [List.length] in Heq.
    destruct prev; cbn [List.length] in Heq; lia.
  - cbn [unbroken]. rewrite IH. split.
    + intros [Hlast Hrest] pre q b' post Heq Hpost.
      destruct prev as [p|].
      * destruct pre as [|x pre]; cbn [app] in Heq.
        -- injection Heq as <- <- <-.
           destruct (String.eqb_spec (previous_hash_of b) (block_hash_of p))
             as [|Hne]; [assumption|].
           exfalso. apply Hpost. apply Hlast. apply Hbroken. exact Hne.
        -- injection Heq as <- Heq. apply (Hrest pre q b' post); auto.
      * cbn [app] in Heq. apply (Hrest pre q b' post); auto.
    + intros Hall. split.
      * intros Hl. destruct prev as [p|]; [|discriminate Hl].
        apply Hbroken in Hl.
        destruct rest as [|b2 rest]; [reflexivity|]. exfalso. apply Hl.
        apply (Hall [] p b (b2 :: rest)); [reflexivity | discriminate].
      * intros pre q b' post Heq Hpost.
        destruct prev as [p|].
        -- apply (Hall (p :: pre) q b' post); auto.
           cbn [app] in Heq |- *. rewrite Heq. reflexivity.
        -- apply (Hall pre q b' post); auto.
Qed.

(** X21.  On a ledger of the kind [credit_score] or [transaction] with
    fewer than [2^53] blocks, the verification answers [valid] if and only
    if every block passes [_verify_single_block] and every block except
    possibly the last one names the hash of the block before it.  A wrong
    [previous_hash] in the last block does not make the ledger invalid:
    the loop counts the block before it tests the link. *)
Theorem X21_valid_answer (sha256 : string -> string)
  (self : CreditBlockchain.t) (db : database) (c : clock)
  (blockchain_type : string) :
  blockchain_type = "credit_score" \/ blockchain_type = "transaction" ->
  let blocks := fetchall db (CreditBlockchain.table_map blockchain_type) in
  Z.of_nat (List.length blocks) < 2 ^ 53 ->
  (CreditBlockchain.valid
     (fst (CreditBlockchain.verify_blockchain_integrity sha256 self db c
             blockchain_type)) = true <->
   (forall b, In b blocks ->
      CreditBlockchain._verify_single_block sha256 self b blockchain_type
      = true) /\
   (forall pre q b post,
      blocks = (pre ++ q :: b :: post)%list ->
      post <> [] ->
      previous_hash_of b = block_hash_of q)).
Proof.
  intros Hkind blocks Hsize.
  rewrite <- Forall_forall.
  rewrite <- (unbroken_spec blockchain_type blocks Hkind None).
  rewrite <- (scan_all sha256 self blockchain_type blocks None 0 0).
  destruct blocks as [|b0 rest] eqn:Hblocks.
  - unfold CreditBlockchain.verify_blockchain_integrity.
    fold blocks. rewrite Hblocks. cbn. split; reflexivity.
  - assert (Hne : fetchall db (CreditBlockchain.table_map blockchain_type)
                  <> []).
    { fold blocks. rewrite Hblocks. discriminate. }
    destruct (verify_nonempty sha256 self db c blockchain_type Hne)
      as (Hv & _ & Hs & Hval).
    fold blocks in Hv, Hs. rewrite Hblocks in Hv, Hs.
    rewrite Hval, Hs, Hv.
    pose proof (scan_le sha256 self blockchain_type (b0 :: rest) None 0 0)
      as Hle.
    rewrite truediv_one.
    + cbn [Nat.add]. split; [intros H; apply Nat2Z.inj; exact H|].
      intros ->. reflexivity.
    + cbn [Nat.add] in Hle. lia.
    + cbn [List.length] in Hsize |- *. lia.
Qed.

(** Two forged transaction blocks that pass [_verify_single_block] each,
    the second naming the genesis hash instead of the hash of the first:
    the verification answers [valid]. *)
Lemma broken_last_link_valid :
  let db := Database [] [tx0; tx1_forged] [] [] [] [] [] in
  TransactionRow.previous_hash tx1_forged <> TransactionRow.block_hash tx0 /\
  CreditBlockchain.valid
    (fst (CreditBlockchain.verify_blockchain_integrity sha256_hexdigest
            default_ledger db clock0 "transaction")) = true.
Proof.
  split; [discriminate | vm_compute; reflexivity].
Qed.

Lemma X21_witness :
  let blocks :=
    fetchall (Database [] [tx0; tx1_forged] [] [] [] [] [])
      (CreditBlockchain.table_map "transaction") in
  CreditBlockchain.valid
    (fst (CreditBlockchain.verify_blockchain_integrity sha256_hexdigest
            default_ledger (Database [] [tx0; tx1_forged] [] [] [] [] [])
            clock0 "transaction")) = true <->
  (forall b, In b blocks ->
     CreditBlockchain._verify_single_block sha256_hexdigest default_ledger b
       "transaction" = true) /\
  (forall pre q b post,
     blocks = (pre ++ q :: b :: post)%list ->
     post <> [] ->
     previous_hash_of b = block_hash_of q).
Proof.
  apply (X21_valid_answer sha256_hexdigest default_ledger
           (Database [] [tx0; tx1_forged] [] [] [] [] []) clock0
           "transaction").
  - right. reflexivity.
  - reflexivity.
Defined.

(* ===================================================================== *)
(** ** The health check of a history *)
(* ===================================================================== *)




(* ===================================================================== *)
(** ** When [SimpleBlockchain.verify_blockchain] raises *)
(* ===================================================================== *)



